(** * dezoomify: pyramid geometry and the acquisition/composition pipeline

    A shallow embedding of [src/dezoomify.py] (Python 3), and the
    properties of its specification that hold, or fail, on it.

    Numbers.  Python [int] is unbounded: [Z].  The two run fields
    [self.width] and [self.height] are the result of a true division
    ([/] on two ints, a float in Python 3); every float of the program
    is an integer or an integer divided by a power of two, so floats are
    modelled by exact rationals [Q], and [math.floor], [math.ceil] and
    [int(.)] are [Qfloor], [Qceiling] and truncation towards zero.  The
    rationals are the program's doubles while the width, the height and
    the tile size are below 2^53 ([double_exact]): the conversions and the
    divisions by a power of two are then exact, and the ceiling of the
    rounded quotient by the tile size is the ceiling of the exact one.
    From 2^53 on the program rounds, and from 2^1024 on it raises
    [OverflowError]; the model does neither, and the statements that
    depend on the values of the divisions carry the bound.

    Effects.  The log, the files the program creates and deletes, the
    jpegtran commands it runs and the counter of temporary names form the
    state [world]; a computation [M A] takes a state to a result (a value,
    an exception, or no result when the fuel of a loop runs out) and the
    next state.  The network and the jpegtran executable are parameters
    ([env]).  The logger records every call with its level; the handler's
    threshold (WARNING unless [-v]) is applied when a log is read
    ([shown]).

    Threads.  One iteration of a downloader thread is atomic, and the
    threads are scheduled one after the other.  The join loop is a function
    of the sequence of results of [joinQueue.get], and its properties are
    proved for every such sequence. *)

From stdpp Require Import gmap strings.
From Stdlib Require Import ZArith QArith Qround Qpower List Lia.
From Stdlib Require Import String Ascii DecimalString.
Import ListNotations.

Local Open Scope Z_scope.

(** ** Python arithmetic *)

Module Py.

(** [math.floor(q)] and [math.ceil(q)] on a float *)
Definition floor (q : Q) : Z := Qfloor q.
Definition ceil (q : Q) : Z := Qceiling q.

(** [int(q)] on a float: truncation towards zero *)
Definition int (q : Q) : Z :=
  if Qle_bool 0 q then Qfloor q else Qceiling q.

(** [float(n)] and the implicit int-to-float promotion of [/] *)
Definition float (n : Z) : Q := inject_Z n.

(** [pow(2, n)] and [2 ** n] for an int [n]: an int for [n >= 0], the
    float [1 / 2 ** -n] otherwise *)
Definition pow2 (n : Z) : Q := Qpower 2 n.

(** [range(a, b)] *)
Definition range (a b : Z) : list Z :=
  map (fun i => a + Z.of_nat i) (seq 0 (Z.to_nat (b - a))).

(** ['%d' % q] on a float argument: the integer part *)
Definition fmt_d (q : Q) : Z := int q.

(** [str(n)] and ['{}'.format(n)] on an int: its decimal digits *)
Definition str (n : Z) : string := NilZero.string_of_int (Z.to_int n).

(** [l[i]] on a list: negative indices count from the end, [None]
    stands for [IndexError] *)
Definition getitem {A : Type} (l : list A) (i : Z) : option A :=
  let n := Z.of_nat (List.length l) in
  if (0 <=? i) && (i <? n) then nth_error l (Z.to_nat i)
  else if (- n <=? i) && (i <? 0) then nth_error l (Z.to_nat (n + i))
  else None.

End Py.

(** The geometries on which the rationals of the model are the doubles of
    the program: every integer below 2^53 is a double, a double divided by
    a power of two is a double, and for [0 <= a < 2^53] and
    [0 < t < 2^53] the quotient [a / t], rounded to the nearest double,
    has the ceiling of the exact quotient. *)
Definition double_exact (maxWidth maxHeight tileSize : Z) : Prop :=
  maxWidth < 2 ^ 53 /\ maxHeight < 2 ^ 53 /\ tileSize < 2 ^ 53.

(** ** Results of code that may raise or loop *)

Inductive exn : Type :=
| ZeroDivisionError
| IndexError
| ValueError
| SystemExit
| OSError
| URLError.

Inductive outcome (A : Type) : Type :=
| Done (a : A)
| Raised (e : exn)
| OutOfFuel.
Arguments Done {A} a.
Arguments Raised {A} e.
Arguments OutOfFuel {A}.

(** ** [UntilerDezoomify.getZoomLevels] *)

(** The body of [while True:], with the list under construction in
    [levels]; [fuel] bounds the number of iterations. *)
Fixpoint getZoomLevels_loop (fuel : nat) (tileSize locWidth locHeight : Z)
    (levels : list (Z * Z)) : outcome (list (Z * Z)) :=
  match fuel with
  | O => OutOfFuel
  | S fuel' =>
    if tileSize =? 0 then Raised ZeroDivisionError else
    let widthInTiles := Py.ceil (Py.float locWidth / Py.float tileSize) in
    let heightInTiles := Py.ceil (Py.float locHeight / Py.float tileSize) in
    let levels := levels ++ [(widthInTiles, heightInTiles)] in
    if (widthInTiles =? 1) && (heightInTiles =? 1) then Done levels
    else
      let locWidth := Py.int (Py.float locWidth / 2) in
      let locHeight := Py.int (Py.float locHeight / 2) in
      getZoomLevels_loop fuel' tileSize locWidth locHeight levels
  end.

(** [self.levels] after the call: the accumulated list, reversed *)
Definition getZoomLevels (fuel : nat) (maxWidth maxHeight tileSize : Z)
    : outcome (list (Z * Z)) :=
  match getZoomLevels_loop fuel tileSize maxWidth maxHeight [] with
  | Done levels => Done (rev levels)
  | Raised e => Raised e
  | OutOfFuel => OutOfFuel
  end.

(** ** Integer forms of the float expressions *)

(** ceiling of [a / b] on integers *)
Definition cdiv (a b : Z) : Z := - ((- a) / b).

(** tile grid after [i] halvings of the full size *)
Definition level_at (tileSize w h : Z) (i : nat) : Z * Z :=
  (cdiv (w / 2 ^ Z.of_nat i) tileSize, cdiv (h / 2 ^ Z.of_nat i) tileSize).

Definition single_tile (p : Z * Z) : bool := (fst p =? 1) && (snd p =? 1).

(** ** Files, log records and external commands *)

(** The staging directory of an image: [os.path.splitext(destination)[0]]
    when tiles are kept, a fresh [tempfile.mkdtemp] directory otherwise. *)
Inductive dir : Type :=
| StoreDir (destination : string)
| TempDir (n : nat).

(** The files the program creates and deletes.  [TileFile d col row] is
    [localTileName(col, row)] inside [d]; [TmpImg n] is the [n]-th
    [tempfile.NamedTemporaryFile(suffix='.jpg', delete=False)]. *)
Inductive path : Type :=
| TmpImg (n : nat)
| Dir (d : dir)
| TileFile (d : dir) (col row : Z)
| OutFile (name : string).

Global Instance dir_eq_dec : EqDecision dir.
Proof. solve_decision. Defined.

Global Instance path_eq_dec : EqDecision path.
Proof. solve_decision. Defined.

Definition dir_encode (d : dir) : string + nat :=
  match d with StoreDir s => inl s | TempDir n => inr n end.

Definition dir_decode (x : string + nat) : dir :=
  match x with inl s => StoreDir s | inr n => TempDir n end.

Global Instance dir_countable : Countable dir.
Proof.
  apply (inj_countable' dir_encode dir_decode). intros []; reflexivity.
Defined.

Definition path_encode (p : path) : nat + dir + (dir * Z * Z) + string :=
  match p with
  | TmpImg n => inl (inl (inl n))
  | Dir d => inl (inl (inr d))
  | TileFile d c r => inl (inr (d, c, r))
  | OutFile s => inr s
  end.

Definition path_decode (x : nat + dir + (dir * Z * Z) + string) : path :=
  match x with
  | inl (inl (inl n)) => TmpImg n
  | inl (inl (inr d)) => Dir d
  | inl (inr (d, c, r)) => TileFile d c r
  | inr s => OutFile s
  end.

Global Instance path_countable : Countable path.
Proof.
  apply (inj_countable' path_encode path_decode). intros []; reflexivity.
Defined.

(** [shutil.rmtree(d)] removes the directory and the files in it *)
Definition under (d : dir) (p : path) : bool :=
  match p with
  | Dir d' => bool_decide (d' = d)
  | TileFile d' _ _ => bool_decide (d' = d)
  | _ => false
  end.

Inductive log_level : Type := DEBUG | INFO | WARNING | ERROR.

Definition severity (l : log_level) : nat :=
  match l with DEBUG => 10 | INFO => 20 | WARNING => 30 | ERROR => 40 end.

(** The messages of the program, with the values they are formatted with.
    [MsgProperties] stands for the block of informative lines that ends
    [getProperties]; the line with the URL of the properties file is left
    out. *)
Inductive message : Type :=
| MsgWidthNotFound
| MsgHeightNotFound
| MsgTileSizeNotFound
| MsgLevels (levels : list (Z * Z))
| MsgZoomNotAvailable (zoomLevel : Z)
| MsgProperties (maxZoom zoomLevel maxWidth width maxHeight height : Z)
| MsgDownloading (row col : Z)
| MsgNotOnServer (url : string) (row col : Z)
| MsgCreatedTmp (p : path)
| MsgAdding (row col : Z)
| MsgMissing (numMissing : Z) (plural : bool) (zoomLevel : Z)
| MsgErased
| MsgCreatedDir (d : dir)
| MsgSourceNotFound
| MsgSaved (destination : string).

(** One invocation of jpegtran through [subprocess.call], by its options *)
Inductive cmd : Type :=
| Crop (w h : Z) (outfile src : path)
| Drop (x y : Z) (tile outfile canvas : path)
| Optimize (outfile src : path).

(** What [subprocess.call] does: it returns the exit status of the
    command, or raises [OSError] when the command cannot be started. *)
Inductive call_result : Type :=
| Exit (status : Z)
| CannotStart.

(** What [downloadUrl] does for one tile *)
Inductive fetch_result : Type :=
| FetchOk
| FetchHTTPError
| FetchKeyboardInterrupt
| FetchError (e : exn).

(** The environment of a run: the network and the jpegtran executable *)
Record env : Type := {
  net : string -> fetch_result;
  sys : cmd -> call_result
}.

(** The state a run reads and writes *)
Record world : Type := {
  log : list (log_level * message);
  fs : gset path;
  calls : list cmd;
  fresh : nat
}.

Definition add_log (r : log_level * message) (w : world) : world :=
  {| log := log w ++ [r]; fs := fs w; calls := calls w; fresh := fresh w |}.

Definition add_call (c : cmd) (w : world) : world :=
  {| log := log w; fs := fs w; calls := calls w ++ [c]; fresh := fresh w |}.

Definition set_fs (f : gset path) (w : world) : world :=
  {| log := log w; fs := f; calls := calls w; fresh := fresh w |}.

Definition bump (w : world) : world :=
  {| log := log w; fs := fs w; calls := calls w; fresh := S (fresh w) |}.

(** ** State and exceptions *)

Definition M (A : Type) : Type := world -> outcome A * world.

Definition ret {A : Type} (a : A) : M A := fun w => (Done a, w).

Definition bind {A B : Type} (m : M A) (k : A -> M B) : M B :=
  fun w =>
    match m w with
    | (Done a, w') => k a w'
    | (Raised e, w') => (Raised e, w')
    | (OutOfFuel, w') => (OutOfFuel, w')
    end.

Notation "x <- c ;; k" := (bind c (fun x => k))
  (at level 62, c at next level, right associativity).
Notation "c ;;; k" := (bind c (fun _ => k))
  (at level 62, right associativity).

Definition raise {A : Type} (e : exn) : M A := fun w => (Raised e, w).

Definition lift {A : Type} (o : outcome A) : M A := fun w => (o, w).

Definition logger (l : log_level) (m : message) : M unit :=
  fun w => (Done tt, add_log (l, m) w).

(** [try: body finally: cleanup] *)
Definition try_finally {A : Type} (body : M A) (cleanup : M unit) : M A :=
  fun w =>
    match body w with
    | (OutOfFuel, w') => (OutOfFuel, w')
    | (r, w') =>
      match cleanup w' with
      | (Done _, w'') => (r, w'')
      | (Raised e, w'') => (Raised e, w'')
      | (OutOfFuel, w'') => (OutOfFuel, w'')
      end
    end.

(** [for x in l: body x] *)
Fixpoint for_each {A : Type} (l : list A) (body : A -> M unit) : M unit :=
  match l with
  | [] => ret tt
  | x :: l' => body x ;;; for_each l' body
  end.

(** ** [UntilerDezoomify.getProperties] *)

(** The three fields read from ImageProperties.xml: the result of each
    [re.search] followed by [int(m.group(1))], [None] when the pattern is
    absent. *)
Record ImageProperties : Type := {
  WIDTH : option Z;
  HEIGHT : option Z;
  TILESIZE : option Z
}.

(** The [-z] option: [False] when absent (or an empty string, which
    [not zoomLevel] treats alike), otherwise a string handed to [int] *)
Inductive zoom_arg : Type :=
| ZoomUnset
| ZoomInt (z : Z)
| ZoomNotAnInt.

(** The attributes of [self] assigned by [getProperties] *)
Record Props : Type := {
  maxWidth : Z;
  maxHeight : Z;
  tileSize : Z;
  levels : list (Z * Z);
  maxZoom : Z;
  zoomLevel : Z;
  width : Q;
  height : Q;
  maxxTiles : Z;
  maxyTiles : Z;
  xTiles : Z;
  yTiles : Z
}.

Definition required (field : option Z) (m : message) : M Z :=
  match field with
  | Some n => ret n
  | None => logger ERROR m ;;; raise SystemExit
  end.

Definition index_or_raise {A : Type} (l : list A) (i : Z) : M A :=
  match Py.getitem l i with
  | Some x => ret x
  | None => raise IndexError
  end.

(** lines 508-520: the requested zoom level *)
Definition resolveZoomLevel (zoomLevel : zoom_arg) (maxZoom : Z) : M Z :=
  match zoomLevel with
  | ZoomUnset => ret (maxZoom - 1)
  | ZoomNotAnInt => raise ValueError
  | ZoomInt zoomLevel =>
    if (zoomLevel <? maxZoom) && (zoomLevel >=? 0) then ret zoomLevel
    else
      let zoomLevel := maxZoom - 1 in
      logger WARNING (MsgZoomNotAvailable zoomLevel) ;;; ret zoomLevel
  end.

(** The method from the parsing of the document on (lines 480-540).  The
    fetch of the document (lines 473-478) is left to the caller, who
    passes the three fields; the INFO record with the URL of the document
    (line 475), written before the fetch, is not in the log of the
    model. *)
Definition getProperties (fuel : nat) (doc : ImageProperties)
    (zoomLevel : zoom_arg) : M Props :=
  maxWidth <- required (WIDTH doc) MsgWidthNotFound ;;
  maxHeight <- required (HEIGHT doc) MsgHeightNotFound ;;
  tileSize <- required (TILESIZE doc) MsgTileSizeNotFound ;;
  levels <- lift (getZoomLevels fuel maxWidth maxHeight tileSize) ;;
  logger DEBUG (MsgLevels levels) ;;;
  let maxZoom := Z.of_nat (List.length levels) in
  zoomLevel <- resolveZoomLevel zoomLevel maxZoom ;;
  let width := (Py.float maxWidth / Py.pow2 (maxZoom - zoomLevel - 1))%Q in
  let height := (Py.float maxHeight / Py.pow2 (maxZoom - zoomLevel - 1))%Q in
  finest <- index_or_raise levels (-1) ;;
  current <- index_or_raise levels zoomLevel ;;
  logger INFO (MsgProperties (maxZoom - 1) zoomLevel
                 maxWidth (Py.fmt_d width) maxHeight (Py.fmt_d height)) ;;;
  ret {| maxWidth := maxWidth; maxHeight := maxHeight; tileSize := tileSize;
         levels := levels; maxZoom := maxZoom; zoomLevel := zoomLevel;
         width := width; height := height;
         maxxTiles := fst finest; maxyTiles := snd finest;
         xTiles := fst current; yTiles := snd current |}.

(** ** [UntilerDezoomify.getTileIndex] *)

Definition getTileIndex (self : Props) (level x y : Z) : Z :=
  let index :=
    x + y * Py.ceil (Py.float (Py.floor
                       (width self / Py.pow2 (maxZoom self - level - 1)))
                     / Py.float (tileSize self)) in
  fold_left
    (fun index i =>
       index
       + Py.ceil (Py.float (Py.floor (width self / Py.pow2 (maxZoom self - i)))
                  / Py.float (tileSize self))
         * Py.ceil (Py.float (Py.floor (height self / Py.pow2 (maxZoom self - i)))
                    / Py.float (tileSize self)))
    (Py.range 1 (level + 1)) index.

(** The index the protocol defines (spec, 4.1): the number of tiles of
    all the levels below [level], plus [col + row * xTiles(level)]. *)
Definition tilesBelow (levels : list (Z * Z)) (level : Z) : Z :=
  fold_right (fun p acc => fst p * snd p + acc) 0
             (firstn (Z.to_nat level) levels).

Definition globalIndex (levels : list (Z * Z)) (level col row : Z) : Z :=
  tilesBelow levels level
  + (col + row * fst (nth (Z.to_nat level) levels (0, 0))).

(** ** [urlConcat] and [UntilerDezoomify.getImageTileURL] *)

(** [s.replace("\\", "/")] *)
Fixpoint slashes (s : string) : string :=
  match s with
  | EmptyString => EmptyString
  | String c s' =>
    String (if Ascii.eqb c "\"%char then "/"%char else c) (slashes s')
  end.

(** [arg[1:] if arg.startswith("/") else arg] *)
Definition dropLeadingSlash (s : string) : string :=
  match s with
  | String c s' => if Ascii.eqb c "/"%char then s' else s
  | EmptyString => s
  end.

Definition urlConcat (args : list string) : string :=
  match args with
  | [] => EmptyString
  | [a] => a
  | _ =>
    match map slashes args with
    | [] => EmptyString
    | a0 :: rest => String.concat "/" (a0 :: map dropLeadingSlash rest)
    end
  end.

(** [tileIndex // self.tileSize], line 547 *)
Definition tileGroup (self : Props) (col row : Z) : Z :=
  let tileIndex := getTileIndex self (zoomLevel self) col row in
  tileIndex / tileSize self.

Definition getImageTileURL (imageDir ext : string) (self : Props)
    (col row : Z) : string :=
  urlConcat
    [ imageDir;
      ("TileGroup" ++ Py.str (tileGroup self col row))%string;
      (Py.str (zoomLevel self) ++ "-" ++ Py.str col ++ "-" ++ Py.str row
       ++ "." ++ ext)%string ].

(** ** The attributes in closed form *)

(** The levels of a call that stops after [j] halvings: coarsest first *)
Definition levels_of (T w h : Z) (j : nat) : list (Z * Z) :=
  rev (map (level_at T w h) (seq 0 (S j))).

(** The level a request resolves to (spec, 4.1, [resolveZoomLevel]) *)
Definition effectiveZoom (zoomLevel : zoom_arg) (maxZoom : Z) : Z :=
  match zoomLevel with
  | ZoomInt z => if (0 <=? z) && (z <? maxZoom) then z else maxZoom - 1
  | _ => maxZoom - 1
  end.

Definition zoomWarnings (zoomLevel : zoom_arg) (maxZoom : Z)
    : list (log_level * message) :=
  match zoomLevel with
  | ZoomInt z =>
    if (0 <=? z) && (z <? maxZoom) then []
    else [(WARNING, MsgZoomNotAvailable (maxZoom - 1))]
  | _ => []
  end.

Definition props_of (W H T : Z) (j : nat) (z : Z) : Props :=
  let maxZoom := Z.of_nat (S j) in
  let width := (Py.float W / Py.pow2 (maxZoom - z - 1))%Q in
  let height := (Py.float H / Py.pow2 (maxZoom - z - 1))%Q in
  {| maxWidth := W; maxHeight := H; tileSize := T;
     levels := levels_of T W H j; maxZoom := maxZoom; zoomLevel := z;
     width := width; height := height;
     maxxTiles := fst (level_at T W H 0); maxyTiles := snd (level_at T W H 0);
     xTiles := fst (level_at T W H (j - Z.to_nat z));
     yTiles := snd (level_at T W H (j - Z.to_nat z)) |}.

Definition document (W H T : Z) : ImageProperties :=
  {| WIDTH := Some W; HEIGHT := Some H; TILESIZE := Some T |}.

(** Sum of [f i] over the integers of a list *)
Definition zsum (f : Z -> Z) (l : list Z) : Z :=
  fold_right (fun i acc => f i + acc) 0 l.

(** Number of tiles of the level reached after [n] halvings *)
Definition tilesAt (T W H : Z) (n : Z) : Z :=
  fst (level_at T W H (Z.to_nat n)) * snd (level_at T W H (Z.to_nat n)).

(** ** [ImageUntiler.__init__]: the attributes taken from the arguments *)

Record Args : Type := {
  args_out : string;
  args_zoomLevel : zoom_arg;
  args_store : bool;
  args_nodownload : bool;
  args_nthreads : Z
}.

Record Config : Type := {
  ext : string;
  store : bool;
  out : string;
  nodownload : bool;
  nthreads : Z
}.

(** lines 278-287; [if self.nodownload: self.store = True] *)
Definition configure (args : Args) : Config :=
  let store := args_store args in
  let nodownload := args_nodownload args in
  let store := if nodownload then true else store in
  {| ext := "jpg"; store := store; out := args_out args;
     nodownload := nodownload; nthreads := args_nthreads args |}.

(** [self] during [getImage] *)
Record Untiler : Type := {
  config : Config;
  imageDir : string;
  props : Props;
  tileDir : dir
}.

Definition localTileName (self : Untiler) (col row : Z) : path :=
  TileFile (tileDir self) col row.

(** ** [ImageUntiler.getImage]: the downloader threads *)

(** How a thread ends: [return] on an empty queue, [exit()], or an
    exception no [except] clause of [downloader] catches *)
Inductive thread_end : Type :=
| Returned
| Exited
| Uncaught (e : exn).

(** One thread running [downloader] from its start to its end, alone on
    the queues. *)
Fixpoint downloader (self : Untiler) (E : env)
    (downloadQueue : list (string * Z * Z)) (joinQueue : list (Z * Z))
    (w : world)
    : thread_end * (list (string * Z * Z) * list (Z * Z) * world) :=
  match downloadQueue with
  | [] => (Returned, ([], joinQueue, w))
  | (url, col, row) :: downloadQueue =>
    let destination := localTileName self col row in
    let w := add_log (INFO, MsgDownloading row col) w in
    (* downloadUrl: [open(destination, 'wb')], then [getUrl(url)] *)
    let w := set_fs ({[destination]} ∪ fs w) w in
    match net E url with
    | FetchOk =>
      downloader self E downloadQueue (joinQueue ++ [(col, row)]) w
    | FetchHTTPError =>
      downloader self E downloadQueue joinQueue
                 (add_log (WARNING, MsgNotOnServer url row col) w)
    | FetchKeyboardInterrupt => (Exited, (downloadQueue, joinQueue, w))
    | FetchError e => (Uncaught e, (downloadQueue, joinQueue, w))
    end
  end.

(** [for i in range(self.nthreads): ... t.start()], the threads scheduled
    one after the other: each runs until it ends before the next starts. *)
Fixpoint run_threads (n : nat) (self : Untiler) (E : env)
    (downloadQueue : list (string * Z * Z)) (joinQueue : list (Z * Z))
    (w : world)
    : list thread_end * (list (string * Z * Z) * list (Z * Z) * world) :=
  match n with
  | O => ([], (downloadQueue, joinQueue, w))
  | S n' =>
    let '(e, (dq, jq, w')) := downloader self E downloadQueue joinQueue w in
    let '(es, st) := run_threads n' self E dq jq w' in
    (e :: es, st)
  end.

(** ** [ImageUntiler.getImage]: joining the tiles *)

Definition subprocess_call (E : env) (c : cmd) : M Z :=
  fun w =>
    match sys E c with
    | Exit status => (Done status, add_call c w)
    | CannotStart => (Raised OSError, add_call c w)
    end.

(** [tmpimgs[i]] for the two-element list [tmpimgs] *)
Definition select (tmpimgs : path * path) (i : Z) : path :=
  if i =? 0 then fst tmpimgs else snd tmpimgs.

(** The body of the [try] inside the [while] loop (lines 191-208), on the
    tile [(col, row)] taken from [joinQueue]; the state is
    [(activeTmp, numJoined)]. *)
Definition join_tile (self : Untiler) (E : env) (tmpimgs : path * path)
    (st : Z * Z) (col row : Z) : M (Z * Z) :=
  let '(activeTmp, numJoined) := st in
  (if numJoined =? 0 then
     subprocess_call E
       (Crop (Py.fmt_d (width (props self))) (Py.fmt_d (height (props self)))
             (select tmpimgs activeTmp) (localTileName self col row)) ;;;
     ret tt
   else ret tt) ;;;
  logger INFO (MsgAdding row col) ;;;
  subprocess_call E
    (Drop (col * tileSize (props self)) (row * tileSize (props self))
          (localTileName self col row)
          (select tmpimgs ((activeTmp + 1) mod 2))
          (select tmpimgs activeTmp)) ;;;
  let activeTmp := (activeTmp + 1) mod 2 in
  let numJoined := numJoined + 1 in
  ret (activeTmp, numJoined).

(** The [while] loop, one element of [arrivals] per iteration: what
    [joinQueue.get(block=True, timeout=1)] gave, [None] for [queue.Empty]. *)
Fixpoint join_loop (self : Untiler) (E : env) (tmpimgs : path * path)
    (arrivals : list (option (Z * Z))) (st : Z * Z) : M (Z * Z) :=
  match arrivals with
  | [] => ret st
  | None :: arrivals => join_loop self E tmpimgs arrivals st
  | Some (col, row) :: arrivals =>
    st <- join_tile self E tmpimgs st col row ;;
    join_loop self E tmpimgs arrivals st
  end.

(** The body of [try:] (lines 188-223); returns [numMissing] *)
Definition compose (self : Untiler) (E : env) (tmpimgs : path * path)
    (arrivals : list (option (Z * Z))) (outputDestination : string) : M Z :=
  st <- join_loop self E tmpimgs arrivals (0, 0) ;;
  let '(activeTmp, numJoined) := st in
  let numMissing := xTiles (props self) * yTiles (props self) - numJoined in
  (if numMissing >? 0 then
     logger WARNING
       (MsgMissing numMissing (negb (numMissing =? 1)) (zoomLevel (props self)))
   else ret tt) ;;;
  subprocess_call E
    (Optimize (OutFile outputDestination) (select tmpimgs activeTmp)) ;;;
  ret numMissing.

(** The body of [finally:] (lines 225-231) *)
Definition cleanup (self : Untiler) (tmpimgs : path * path) : M unit :=
  fun w =>
    let w := set_fs (fs w ∖ {[fst tmpimgs]}) w in
    let w := set_fs (fs w ∖ {[snd tmpimgs]}) w in
    if negb (store (config self)) then
      let w := set_fs (base.filter (fun p => under (tileDir self) p = false) (fs w)) w in
      (Done tt, add_log (INFO, MsgErased) w)
    else (Done tt, w).

(** [tempfile.NamedTemporaryFile(suffix='.jpg', delete=False)] *)
Definition NamedTemporaryFile : M path :=
  fun w =>
    let p := TmpImg (fresh w) in
    (Done p, bump (set_fs ({[p]} ∪ fs w) w)).

(** The tile cells in the order of the two [for] loops *)
Definition cells (self : Untiler) : list (Z * Z) :=
  flat_map (fun col => map (fun row => (col, row))
                           (Py.range 0 (yTiles (props self))))
           (Py.range 0 (xTiles (props self))).

Definition getImage (self : Untiler) (E : env) (outputDestination : string)
    : M Z :=
  let nodownload := nodownload (config self) in
  let downloadQueue :=
    if nodownload then []
    else map (fun '(col, row) =>
                (getImageTileURL (imageDir self) (ext (config self))
                                 (props self) col row, col, row))
             (cells self) in
  let joinQueue := if nodownload then cells self else [] in
  queues <-
    (if negb nodownload then
       fun w =>
         let '(_, (dq, jq, w')) :=
           run_threads (Z.to_nat (nthreads (config self))) self E
                       downloadQueue joinQueue w in
         (Done (dq, jq), w')
     else ret (downloadQueue, joinQueue)) ;;
  tmp0 <- NamedTemporaryFile ;;
  logger DEBUG (MsgCreatedTmp tmp0) ;;;
  tmp1 <- NamedTemporaryFile ;;
  logger DEBUG (MsgCreatedTmp tmp1) ;;;
  let tmpimgs := (tmp0, tmp1) in
  try_finally
    (compose self E tmpimgs (map Some (snd queues)) outputDestination)
    (cleanup self tmpimgs).

(** ** The loop over the images of [ImageUntiler.__init__] *)

(** One entry of [self.imageDirs]/[self.outNames]: the base directory
    ([None] when [getImageDirectory] finds none), the properties document
    found there, and the output name. *)
Record job : Type := {
  base : option string;
  properties : ImageProperties;
  destination : string
}.

Definition setupDirectory (cfg : Config) (destination : string) : M dir :=
  if store cfg then
    fun w =>
      let root := StoreDir destination in
      if bool_decide (Dir root ∈ fs w) then (Done root, w)
      else (Done root,
            set_fs ({[Dir root]} ∪ fs w) (add_log (INFO, MsgCreatedDir root) w))
  else
    fun w =>
      let d := TempDir (fresh w) in
      (Done d,
       add_log (INFO, MsgCreatedDir d) (bump (set_fs ({[Dir d]} ∪ fs w) w))).

Definition process_image (fuel : nat) (args : Args) (E : env) (j : job)
    : M unit :=
  let cfg := configure args in
  imageDir <- match base j with
              | Some d => ret d
              | None => logger ERROR MsgSourceNotFound ;;; raise SystemExit
              end ;;
  p <- getProperties fuel (properties j) (args_zoomLevel args) ;;
  tileDir <- setupDirectory cfg (destination j) ;;
  getImage {| config := cfg; imageDir := imageDir; props := p;
              tileDir := tileDir |} E (destination j) ;;;
  logger INFO (MsgSaved (destination j)).

(** lines 324-342 *)
Definition process_images (fuel : nat) (args : Args) (E : env)
    (jobs : list job) : M unit :=
  for_each jobs (process_image fuel args E).

Definition world0 : world :=
  {| log := []; fs := ∅; calls := []; fresh := 0 |}.

(** The records of a log at level WARNING *)
Definition warnings (l : list (log_level * message))
    : list (log_level * message) :=
  List.filter (fun r => match fst r with WARNING => true | _ => false end) l.

(** ** Reading a run's log, queue and command trace *)

Definition task_url (t : string * Z * Z) : string := fst (fst t).
Definition task_cell (t : string * Z * Z) : Z * Z := (snd (fst t), snd t).

Definition fetched (E : env) (t : string * Z * Z) : bool :=
  match net E (task_url t) with FetchOk => true | _ => false end.

Definition not_found (E : env) (t : string * Z * Z) : bool :=
  match net E (task_url t) with FetchHTTPError => true | _ => false end.

(** A fetch the [except] clauses of [downloader] let the loop survive *)
Definition survivable (E : env) (t : string * Z * Z) : Prop :=
  net E (task_url t) = FetchOk \/ net E (task_url t) = FetchHTTPError.

(** The download attempts recorded in a log, as (row, col) *)
Definition attempts (l : list (log_level * message)) : list (Z * Z) :=
  flat_map (fun r => match snd r with
                     | MsgDownloading row col => [(row, col)]
                     | _ => []
                     end) l.

(** The tiles named by the arrivals of the join loop *)
Definition arrived (arrivals : list (option (Z * Z))) : list (Z * Z) :=
  flat_map (fun a => match a with Some t => [t] | None => [] end) arrivals.

(** The placement of the [i]-th joined tile *)
Definition placement (self : Untiler) (tmpimgs : path * path)
    (it : nat * (Z * Z)) : cmd :=
  let i := Z.of_nat (fst it) in
  let col := fst (snd it) in
  let row := snd (snd it) in
  Drop (col * tileSize (props self)) (row * tileSize (props self))
       (localTileName self col row)
       (select tmpimgs ((i + 1) mod 2))
       (select tmpimgs (i mod 2)).

(** The canvas allocation, made when the first tile arrives *)
Definition canvas (self : Untiler) (tmpimgs : path * path)
    (tiles : list (Z * Z)) : list cmd :=
  match tiles with
  | [] => []
  | (col, row) :: _ =>
    [Crop (Py.fmt_d (width (props self))) (Py.fmt_d (height (props self)))
          (fst tmpimgs) (localTileName self col row)]
  end.

Definition is_drop (c : cmd) : bool :=
  match c with Drop _ _ _ _ _ => true | _ => false end.

Definition is_missing (r : log_level * message) : bool :=
  match snd r with MsgMissing _ _ _ => true | _ => false end.

Definition starts (E : env) : Prop := forall c, sys E c <> CannotStart.

(** The queue of [getImage] as first built, with the URL of each cell *)
Definition tasks (self : Untiler) : list (string * Z * Z) :=
  map (fun '(col, row) =>
         (getImageTileURL (imageDir self) (ext (config self))
                          (props self) col row, col, row))
      (cells self).

(** The tiles handed to the join loop and the state the downloads leave *)
Definition handoff (self : Untiler) (E : env) (w : world)
    : list (Z * Z) * world :=
  if nodownload (config self) then (cells self, w)
  else
    let st := snd (run_threads (Z.to_nat (nthreads (config self))) self E
                               (tasks self) [] w) in
    (snd (fst st), snd st).

(** [getImage] from the creation of the temporary images on, for the
    tiles handed to the join loop *)
Definition finish (self : Untiler) (E : env) (outputDestination : string)
    (tiles : list (Z * Z)) : M Z :=
  tmp0 <- NamedTemporaryFile ;;
  logger DEBUG (MsgCreatedTmp tmp0) ;;;
  tmp1 <- NamedTemporaryFile ;;
  logger DEBUG (MsgCreatedTmp tmp1) ;;;
  let tmpimgs := (tmp0, tmp1) in
  try_finally
    (compose self E tmpimgs (map Some tiles) outputDestination)
    (cleanup self tmpimgs).

(** The state [finish] leaves when every command could be started *)
Definition finished (self : Untiler) (outputDestination : string)
    (tiles : list (Z * Z)) (w1 : world) : world :=
  let tmp0 := TmpImg (fresh w1) in
  let tmp1 := TmpImg (S (fresh w1)) in
  let n := List.length tiles in
  let numMissing := xTiles (props self) * yTiles (props self) - Z.of_nat n in
  let kept := (({[tmp1]} ∪ ({[tmp0]} ∪ fs w1)) ∖ {[tmp0]}) ∖ {[tmp1]} in
  {| log := log w1
            ++ [(DEBUG, MsgCreatedTmp tmp0); (DEBUG, MsgCreatedTmp tmp1)]
            ++ map (fun t => (INFO, MsgAdding (snd t) (fst t))) tiles
            ++ (if numMissing >? 0 then
                  [(WARNING, MsgMissing numMissing (negb (numMissing =? 1))
                                        (zoomLevel (props self)))]
                else [])
            ++ (if store (config self) then [] else [(INFO, MsgErased)]);
     fs := if store (config self) then kept
           else base.filter (fun p => under (tileDir self) p = false) kept;
     calls := calls w1
              ++ canvas self (tmp0, tmp1) tiles
              ++ map (placement self (tmp0, tmp1)) (combine (seq 0 n) tiles)
              ++ [Optimize (OutFile outputDestination)
                           (select (tmp0, tmp1) (Z.of_nat n mod 2))];
     fresh := S (S (fresh w1)) |}.

(** A computation that terminates and leaves the files alone *)
Definition keeps_files {A : Type} (m : M A) : Prop :=
  forall w, fst (m w) <> OutOfFuel /\ fs (snd (m w)) = fs w
            /\ fresh (snd (m w)) = fresh w.

(** ** Concrete runs *)

(** A 256 x 512 image with tiles of 256: two levels, the finest with the
    two cells (0, 0) and (0, 1). *)
Definition two_tiles : job :=
  {| base := Some "http://h"%string;
     properties := document 256 512 256;
     destination := "o.jpg" |}.

Definition second_image : job :=
  {| base := Some "http://g"%string;
     properties := document 256 512 256;
     destination := "p.jpg" |}.

Definition one_thread : Args :=
  {| args_out := "o.jpg"; args_zoomLevel := ZoomUnset;
     args_store := false; args_nodownload := false; args_nthreads := 1 |}.

Definition two_tiles_self : Untiler :=
  {| config := configure one_thread; imageDir := "http://h";
     props := props_of 256 512 256 1 1; tileDir := TempDir 0 |}.

(** The first tile cannot be reached, for a reason other than an HTTP
    error response. *)
Definition unreachable_first : env :=
  {| net := fun url =>
              if String.eqb url "http://h/TileGroup0/1-0-0.jpg"
              then FetchError URLError else FetchOk;
     sys := fun _ => Exit 0 |}.

(** The first tile does not exist on the server. *)
Definition missing_first : env :=
  {| net := fun url =>
              if String.eqb url "http://h/TileGroup0/1-0-0.jpg"
              then FetchHTTPError else FetchOk;
     sys := fun _ => Exit 0 |}.

(** Every jpegtran call returns the exit status 1. *)
Definition jpegtran_fails : env :=
  {| net := fun _ => FetchOk; sys := fun _ => Exit 1 |}.

(** Every jpegtran call returns the exit status 0. *)
Definition jpegtran_succeeds : env :=
  {| net := fun _ => FetchOk; sys := fun _ => Exit 0 |}.

(** The canvas allocation cannot be started. *)
Definition crop_cannot_start : env :=
  {| net := fun _ => FetchOk;
     sys := fun c => match c with Crop _ _ _ _ => CannotStart | _ => Exit 0 end |}.

(** [-x]: compose from the tiles a previous run stored *)
Definition recompose : Args :=
  {| args_out := "o.jpg"; args_zoomLevel := ZoomUnset;
     args_store := false; args_nodownload := true; args_nthreads := 16 |}.

Definition recompose_self : Untiler :=
  {| config := configure recompose; imageDir := "http://h";
     props := props_of 256 512 256 1 1; tileDir := StoreDir "o.jpg" |}.

(** The stored tiles of the image, before the run *)
Definition stored_tiles : world :=
  {| log := [];
     fs := {[ Dir (StoreDir "o.jpg"); TileFile (StoreDir "o.jpg") 0 0;
              TileFile (StoreDir "o.jpg") 0 1 ]};
     calls := []; fresh := 0 |}.

(** ** Further readings of the geometry *)

(** The pair [(col, row)] is a cell of the grid of the selected level *)
Definition in_grid (self : Props) (col row : Z) : Prop :=
  0 <= col < xTiles self /\ 0 <= row < yTiles self.

(** The address [(level, col, row)] names a tile of the pyramid *)
Definition in_pyramid (levels : list (Z * Z)) (level col row : Z) : Prop :=
  0 <= level < Z.of_nat (List.length levels) /\
  0 <= col < fst (nth (Z.to_nat level) levels (0, 0)) /\
  0 <= row < snd (nth (Z.to_nat level) levels (0, 0)).

(** ** Further readings of the downloader threads *)

(** A fetch that ends the thread that ran it: anything but a success or
    an HTTP error *)
Definition fatal (E : env) (t : string * Z * Z) : bool :=
  negb (fetched E t || not_found E t).

(** (row, col) of a task, as the log records it *)
Definition task_row_col (t : string * Z * Z) : Z * Z := (snd t, snd (fst t)).

(** The tile file a placement command reads *)
Definition placed (c : cmd) : option path :=
  match c with
  | Drop _ _ tile _ _ => Some tile
  | _ => None
  end.

(** ** Further readings of a run's files *)

(** A computation that touches neither the files nor the commands *)
Definition only_logs {A : Type} (m : M A) : Prop :=
  forall w, fs (snd (m w)) = fs w /\ fresh (snd (m w)) = fresh w
            /\ calls (snd (m w)) = calls w.

(** The names [tempfile] will hand out are not in use: no temporary image
    and no temporary directory, or file in one, carries a number the
    counter has not reached. *)
Definition temp_names_unused (w : world) : Prop :=
  forall q, q ∈ fs w ->
    match q with
    | TmpImg k => (k < fresh w)%nat
    | Dir (TempDir k) => (k < fresh w)%nat
    | TileFile (TempDir k) _ _ => (k < fresh w)%nat
    | _ => True
    end.

(** ** The verbosity of [ImageUntiler.__init__] (lines 289-296) *)

Definition log_threshold (verbose : Z) : log_level :=
  let log_level := WARNING in
  if verbose =? 1 then INFO
  else if verbose >=? 2 then DEBUG
  else log_level.

(** The records the handler lets through *)
Definition shown (verbose : Z) (l : list (log_level * message))
    : list (log_level * message) :=
  List.filter (fun r => (severity (log_threshold verbose) <=? severity (fst r))%nat) l.

(** ** Further readings of URLs *)

(** No character of the string is a slash or a backslash *)
Fixpoint plain (s : string) : bool :=
  match s with
  | EmptyString => true
  | String c s' =>
    negb (Ascii.eqb c "/"%char) && negb (Ascii.eqb c "\"%char) && plain s'
  end.

(** Some character of the string is a backslash *)
Fixpoint has_backslash (s : string) : bool :=
  match s with
  | EmptyString => false
  | String c s' => Ascii.eqb c "\"%char || has_backslash s'
  end.

(** ** [ImageUntiler.getUrlList] *)

(** The functions of the Python library the method calls, as parameters:
    [str.strip], [os.path.splitext], [os.path.dirname], [os.path.join]. *)
Record pylib : Type := {
  strip : string -> string;
  splitext : string -> string * string;
  dirname : string -> string;
  join : string -> string -> string
}.

(** [s.split(' ', 1)]: the string cut at its first space, if it has one *)
Fixpoint split_space (s : string) : list string :=
  match s with
  | EmptyString => [EmptyString]
  | String c s' =>
    if Ascii.eqb c " "%char then [EmptyString; s']
    else match split_space s' with
         | a :: rest => String c a :: rest
         | [] => [String c EmptyString]
         end
  end.

(** [s.endswith(suffix)] *)
Definition endswith (s suffix : string) : bool :=
  let n := String.length s in
  let m := String.length suffix in
  (m <=? n)%nat && String.eqb (substring (n - m) m s) suffix.

(** [re.search('\\.' + ext + '$', s)] for an extension of letters and
    digits: [$] matches at the end, and before a newline that ends [s]. *)
Definition has_extension (ext s : string) : bool :=
  endswith s ("." ++ ext)%string
  || endswith s ("." ++ ext ++ String (ascii_of_nat 10) EmptyString)%string.

(** ['%03d' % i] for [i >= 0] *)
Definition fmt_03d (i : Z) : string :=
  let digits := Py.str i in
  (match String.length digits with
   | 0%nat => "000"
   | 1%nat => "00"
   | 2%nat => "0"
   | _ => EmptyString
   end ++ digits)%string.

(** The body of [for line in listFile:], on the state
    [(imageDirs, outNames, i)] *)
Definition getUrlList_line (lib : pylib) (self : Config)
    (st : list string * list string * Z) (line : string)
    : list string * list string * Z :=
  let '(imageDirs, outNames, i) := st in
  let line := split_space (strip lib line) in
  match line with
  | [url] =>
    let '(root, ext) := splitext lib (out self) in
    (imageDirs ++ [url],
     outNames ++ [(root ++ fmt_03d i ++ ext)%string],
     i + 1)
  | [url; name] =>
    let name :=
      if has_extension (ext self) name then name
      else (name ++ "." ++ ext self)%string in
    (imageDirs ++ [url],
     outNames ++ [join lib (dirname lib (out self)) name],
     i)
  | _ => (imageDirs, outNames, i)
  end.

(** [self.imageDirs] and [self.outNames] after the call; [listed] is
    [args.list], [lines] the lines of the file [args.url] names. *)
Definition getUrlList (lib : pylib) (self : Config) (listed : bool)
    (url : string) (lines : list string) : list string * list string :=
  if negb listed then ([url], [out self])
  else
    fst (fold_left (getUrlList_line lib self) lines ([], [], 1)).

(** ** The temporary images of a run *)




(** A line of the list file that names no output file *)
Definition unnamed (lib : pylib) (line : string) : bool :=
  match split_space (strip lib line) with
  | [_] => true
  | _ => false
  end.

(** The URL of a line: what precedes its first space *)
Definition line_url (lib : pylib) (line : string) : string :=
  hd EmptyString (split_space (strip lib line)).

(** Number of unnamed lines *)
Definition count_unnamed (lib : pylib) (lines : list string) : nat :=
  List.length (List.filter (unnamed lib) lines).

(** A library for a list file whose lines carry no surrounding white
    space and for an output name without extension and directory *)
Definition bare_names : pylib :=
  {| strip := fun s => s;
     splitext := fun s => (s, EmptyString);
     dirname := fun _ => EmptyString;
     join := fun _ name => name |}.
(** * Properties *)

(** ** Integer forms of the float expressions *)

Lemma ceil_div (a b : Z) :
  Py.ceil (Py.float a / Py.float b) = cdiv a b.
Proof.
  unfold Py.ceil, Py.float, cdiv, Qceiling.
  rewrite (Zdiv_Qdiv (- a) b). f_equal.
  apply Qfloor_comp. rewrite inject_Z_opp. unfold Qdiv. ring.
Qed.

Lemma int_half (w : Z) : 0 <= w -> Py.int (Py.float w / 2) = w / 2.
Proof.
  intros Hw. unfold Py.int, Py.float.
  assert (Hle : Qle_bool 0 (inject_Z w / 2) = true).
  { apply Qle_bool_iff. apply Qle_shift_div_l; [reflexivity|].
    rewrite Qmult_0_l. change 0%Q with (inject_Z 0).
    rewrite <- Zle_Qle. exact Hw. }
  rewrite Hle. symmetry. apply (Zdiv_Qdiv w 2).
Qed.

Lemma pow2_nonneg (n : Z) : 0 <= n -> (Py.pow2 n == inject_Z (2 ^ n))%Q.
Proof.
  intros Hn. unfold Py.pow2. symmetry. apply (Zpower_Qpower 2 n Hn).
Qed.

(** [floor((a / 2**k) / pow(2, n))] is the integer quotient by [2^(k+n)] *)
Lemma floor_scaled (q : Q) (a k n : Z) :
  0 <= k -> 0 <= n ->
  (q == Py.float a / Py.pow2 k)%Q ->
  Py.floor (q / Py.pow2 n) = a / 2 ^ (k + n).
Proof.
  intros Hk Hn Hq. unfold Py.floor, Py.float in *.
  rewrite (Zdiv_Qdiv a (2 ^ (k + n))). apply Qfloor_comp.
  rewrite Hq, (pow2_nonneg k Hk), (pow2_nonneg n Hn).
  rewrite Z.pow_add_r by assumption. rewrite inject_Z_mult.
  assert (Hk0 : ~ (inject_Z (2 ^ k) == 0)%Q).
  { change 0%Q with (inject_Z 0). rewrite inject_Z_injective.
    apply Z.pow_nonzero; lia. }
  assert (Hn0 : ~ (inject_Z (2 ^ n) == 0)%Q).
  { change 0%Q with (inject_Z 0). rewrite inject_Z_injective.
    apply Z.pow_nonzero; lia. }
  field. split; assumption.
Qed.

Lemma cdiv_one (a b : Z) : 0 < b -> cdiv a b = 1 <-> 1 <= a <= b.
Proof.
  intros Hb. unfold cdiv. split.
  - intros H. assert (Hq : - a / b = -1) by lia.
    pose proof (Z.mul_div_le (- a) b Hb).
    pose proof (Z.mul_succ_div_gt (- a) b Hb). nia.
  - intros [H1 H2]. assert (- a / b = -1); [|lia].
    symmetry. apply (Z.div_unique (- a) b (-1) (b - a)); lia.
Qed.

Lemma cdiv_zero (b : Z) : cdiv 0 b = 0.
Proof. unfold cdiv. destruct b; reflexivity. Qed.

Lemma single_tile_true (p : Z * Z) : single_tile p = true <-> p = (1, 1).
Proof.
  destruct p as [a b]. unfold single_tile. simpl.
  rewrite andb_true_iff, !Z.eqb_eq. split; [intros [-> ->]; reflexivity|].
  intros H; inversion H; auto.
Qed.

Lemma level_at_half (T w h : Z) (i : nat) :
  0 <= w -> 0 <= h ->
  level_at T (w / 2) (h / 2) i = level_at T w h (S i).
Proof.
  intros Hw Hh. unfold level_at.
  rewrite Nat2Z.inj_succ, Z.pow_succ_r by lia.
  rewrite !Z.div_div by lia. reflexivity.
Qed.

Lemma loop_step (fuel : nat) (T w h : Z) (acc : list (Z * Z)) :
  0 < T -> 0 <= w -> 0 <= h ->
  getZoomLevels_loop (S fuel) T w h acc =
    if single_tile (level_at T w h 0) then Done (acc ++ [level_at T w h 0])
    else getZoomLevels_loop fuel T (w / 2) (h / 2) (acc ++ [level_at T w h 0]).
Proof.
  intros HT Hw Hh. cbn [getZoomLevels_loop].
  destruct (Z.eqb_spec T 0) as [->|_]; [lia|].
  rewrite !ceil_div, !int_half by assumption.
  unfold level_at, single_tile. cbn [fst snd Z.of_nat Z.pow].
  rewrite !Z.div_1_r. reflexivity.
Qed.

(** ** The level-building loop *)

Lemma loop_terminates (T : Z) (HT : 0 < T) (k : nat) :
  forall (w h : Z) (acc : list (Z * Z)),
    0 <= w -> 0 <= h ->
    level_at T w h k = (1, 1) ->
    exists j : nat,
      (j <= k)%nat /\
      level_at T w h j = (1, 1) /\
      (forall i, (i < j)%nat -> level_at T w h i <> (1, 1)) /\
      forall fuel, (j < fuel)%nat ->
        getZoomLevels_loop fuel T w h acc =
          Done (acc ++ map (level_at T w h) (seq 0 (S j))).
Proof.
  induction k as [|k IH]; intros w h acc Hw Hh Hk.
  - exists O. repeat split; [lia | assumption | intros i Hi; lia |].
    intros [|fuel] Hf; [lia|]. rewrite loop_step by assumption.
    apply single_tile_true in Hk. rewrite Hk. reflexivity.
  - destruct (single_tile (level_at T w h 0)) eqn:Hs.
    + apply single_tile_true in Hs.
      exists O. repeat split; [lia | assumption | intros i Hi; lia |].
      intros [|fuel] Hf; [lia|]. rewrite loop_step by assumption.
      apply single_tile_true in Hs. rewrite Hs. reflexivity.
    + assert (Hw2 : 0 <= w / 2) by (apply Z.div_pos; lia).
      assert (Hh2 : 0 <= h / 2) by (apply Z.div_pos; lia).
      rewrite <- level_at_half in Hk by assumption.
      destruct (IH (w / 2) (h / 2) (acc ++ [level_at T w h 0]) Hw2 Hh2 Hk)
        as (j & Hjk & Hj & Hmin & Hrun).
      exists (S j). split; [lia|]. split.
      { rewrite <- level_at_half by assumption. exact Hj. }
      split.
      { intros [|i] Hi.
        - intros Heq. apply single_tile_true in Heq. congruence.
        - rewrite <- level_at_half by assumption. apply Hmin. lia. }
      intros [|fuel] Hf; [lia|]. rewrite loop_step by assumption.
      rewrite Hs, Hrun by lia.
      rewrite <- app_assoc. do 2 f_equal.
      change (seq 0 (S (S j))) with (0%nat :: seq 1 (S j)).
      rewrite <- seq_shift, map_cons, map_map. cbn [app]. f_equal.
      apply map_ext. intros i. apply level_at_half; assumption.
Qed.

Lemma loop_diverges (T : Z) (HT : 0 < T) (fuel : nat) :
  forall (w h : Z) (acc : list (Z * Z)),
    0 <= w -> 0 <= h ->
    (forall k, level_at T w h k <> (1, 1)) ->
    getZoomLevels_loop fuel T w h acc = OutOfFuel.
Proof.
  induction fuel as [|fuel IH]; intros w h acc Hw Hh Hnever; [reflexivity|].
  rewrite loop_step by assumption.
  destruct (single_tile (level_at T w h 0)) eqn:Hs.
  - apply single_tile_true in Hs. destruct (Hnever O Hs).
  - apply IH; try (apply Z.div_pos; lia).
    intros k. rewrite level_at_half by assumption. apply Hnever.
Qed.

(** Once the width has been halved to zero, no later level is a single
    tile. *)
Lemma level_at_zero_width (T h : Z) (k : nat) :
  0 < T -> level_at T 0 h k <> (1, 1).
Proof.
  intros HT. unfold level_at. rewrite Z.div_0_l by (apply Z.pow_nonzero; lia).
  rewrite cdiv_zero. intros H. inversion H.
Qed.

Lemma level_at_single (T w h : Z) (k : nat) :
  0 < T ->
  level_at T w h k = (1, 1) <->
  1 <= w / 2 ^ Z.of_nat k <= T /\ 1 <= h / 2 ^ Z.of_nat k <= T.
Proof.
  intros HT. unfold level_at. rewrite <- !cdiv_one by assumption.
  split; [intros H; inversion H; split; congruence | intros [-> ->]; reflexivity].
Qed.

Lemma getZoomLevels_spec (W H T : Z) (k : nat) :
  0 <= W -> 0 <= H -> 0 < T ->
  level_at T W H k = (1, 1) ->
  exists j : nat,
    (j <= k)%nat /\
    level_at T W H j = (1, 1) /\
    (forall i, (i < j)%nat -> level_at T W H i <> (1, 1)) /\
    forall fuel, (j < fuel)%nat ->
      getZoomLevels fuel W H T = Done (levels_of T W H j).
Proof.
  intros HW HH HT Hk.
  destruct (loop_terminates T HT k W H [] HW HH Hk) as (j & Hjk & Hj & Hmin & Hrun).
  exists j. repeat split; try assumption.
  intros fuel Hf. unfold getZoomLevels. rewrite (Hrun fuel Hf). reflexivity.
Qed.

Lemma levels_of_length (T w h : Z) (j : nat) :
  List.length (levels_of T w h j) = S j.
Proof. unfold levels_of. rewrite length_rev, length_map, length_seq. reflexivity. Qed.

Lemma levels_of_nth (T w h : Z) (j i : nat) (d : Z * Z) :
  (i <= j)%nat ->
  nth i (levels_of T w h j) d = level_at T w h (j - i).
Proof.
  intros Hi. unfold levels_of.
  rewrite rev_nth by (rewrite length_map, length_seq; lia).
  rewrite length_map, length_seq.
  rewrite (nth_indep _ d (level_at T w h 0)) by (rewrite length_map, length_seq; lia).
  rewrite map_nth, seq_nth by lia. reflexivity.
Qed.

(** ** [getProperties] on a well-formed document *)

Lemma getitem_nth {A : Type} (l : list A) (i : Z) (d : A) :
  0 <= i < Z.of_nat (List.length l) ->
  Py.getitem l i = Some (nth (Z.to_nat i) l d).
Proof.
  intros Hi. unfold Py.getitem.
  destruct (Z.leb_spec 0 i); [|lia]. destruct (Z.ltb_spec i (Z.of_nat (List.length l))); [|lia].
  cbn [andb]. apply nth_error_nth'. lia.
Qed.

Lemma getitem_last {A : Type} (l : list A) (d : A) :
  l <> [] ->
  Py.getitem l (-1) = Some (nth (List.length l - 1) l d).
Proof.
  intros Hl. unfold Py.getitem.
  assert (0 < List.length l)%nat by (destruct l; [congruence | cbn; lia]).
  cbn [Z.leb Z.compare andb].
  destruct (Z.leb_spec (- Z.of_nat (List.length l)) (-1)); [|lia].
  cbn [Z.ltb Z.compare andb].
  replace (Z.to_nat (Z.of_nat (List.length l) + -1)) with (List.length l - 1)%nat by lia.
  apply nth_error_nth'. lia.
Qed.

Lemma effectiveZoom_range (zarg : zoom_arg) (m : Z) :
  1 <= m -> 0 <= effectiveZoom zarg m < m.
Proof.
  intros Hm. unfold effectiveZoom. destruct zarg as [|z|]; try lia.
  destruct (Z.leb_spec 0 z), (Z.ltb_spec z m); cbn [andb]; lia.
Qed.

Lemma resolveZoomLevel_run (zarg : zoom_arg) (m : Z) (w : world) :
  zarg <> ZoomNotAnInt ->
  resolveZoomLevel zarg m w =
    (Done (effectiveZoom zarg m),
     {| log := log w ++ zoomWarnings zarg m; fs := fs w;
        calls := calls w; fresh := fresh w |}).
Proof.
  intros Hz. destruct w as [l f c n].
  destruct zarg as [|z|]; [| |congruence]; cbn.
  - rewrite app_nil_r. reflexivity.
  - rewrite Z.geb_leb, andb_comm.
    destruct ((0 <=? z) && (z <? m)); cbn; [rewrite app_nil_r|]; reflexivity.
Qed.

Lemma getProperties_run (W H T : Z) (k : nat) (zarg : zoom_arg) (w : world) :
  0 <= W -> 0 <= H -> 0 < T ->
  level_at T W H k = (1, 1) ->
  zarg <> ZoomNotAnInt ->
  exists j : nat,
    (j <= k)%nat /\
    level_at T W H j = (1, 1) /\
    (forall i, (i < j)%nat -> level_at T W H i <> (1, 1)) /\
    forall fuel, (j < fuel)%nat ->
      let m := Z.of_nat (S j) in
      let z := effectiveZoom zarg m in
      let p := props_of W H T j z in
      getProperties fuel (document W H T) zarg w =
        (Done p,
         {| log := log w ++ [(DEBUG, MsgLevels (levels_of T W H j))]
                     ++ zoomWarnings zarg m
                     ++ [(INFO, MsgProperties (m - 1) z W (Py.fmt_d (width p))
                                  H (Py.fmt_d (height p)))];
            fs := fs w; calls := calls w; fresh := fresh w |}).
Proof.
  intros HW HH HT Hk Hz.
  destruct (getZoomLevels_spec W H T k HW HH HT Hk) as (j & Hjk & Hj & Hmin & Hrun).
  exists j. repeat split; try assumption.
  intros fuel Hf m z p.
  pose proof (effectiveZoom_range zarg m ltac:(lia)) as Hrange. fold z in Hrange.
  unfold getProperties, document. cbn [WIDTH HEIGHT TILESIZE required].
  unfold bind at 1. cbn [ret]. unfold bind at 1. cbn [ret].
  unfold bind at 1. cbn [ret]. unfold bind at 1. unfold lift.
  rewrite (Hrun fuel Hf). unfold bind at 1. cbn [logger].
  rewrite levels_of_length. fold m.
  unfold bind at 1. rewrite (resolveZoomLevel_run zarg m _ Hz). fold z.
  unfold index_or_raise.
  rewrite (getitem_last _ (0, 0)) by (intros E; apply (f_equal (@List.length _)) in E;
                                      rewrite levels_of_length in E; discriminate).
  rewrite (getitem_nth _ z (0, 0)) by (rewrite levels_of_length; fold m; lia).
  rewrite levels_of_length, !levels_of_nth by lia.
  unfold bind, ret, logger, add_log. cbn [log fs calls fresh].
  replace (j - (S j - 1))%nat with O by lia.
  rewrite <- !app_assoc. reflexivity.
Qed.

(** ** [getTileIndex] in closed form *)

Lemma fold_left_zsum (f : Z -> Z) (l : list Z) (a : Z) :
  fold_left (fun acc i => acc + f i) l a = a + zsum f l.
Proof.
  unfold zsum. revert a. induction l as [|i l IH]; intros a; cbn; [lia|].
  rewrite IH. lia.
Qed.

Lemma zsum_app (f : Z -> Z) (l1 l2 : list Z) :
  zsum f (l1 ++ l2) = zsum f l1 + zsum f l2.
Proof.
  unfold zsum. induction l1 as [|i l1 IH]; cbn; [reflexivity|].
  rewrite IH. lia.
Qed.

Lemma zsum_ext_in (f g : Z -> Z) (l : list Z) :
  (forall i, In i l -> f i = g i) -> zsum f l = zsum g l.
Proof.
  unfold zsum. induction l as [|i l IH]; intros Hfg; cbn; [reflexivity|].
  rewrite (Hfg i (or_introl eq_refl)), IH; [reflexivity|].
  intros i' Hi'. apply Hfg. right. exact Hi'.
Qed.

Lemma in_range (a b i : Z) : In i (Py.range a b) <-> a <= i < b.
Proof.
  unfold Py.range. rewrite in_map_iff. split.
  - intros (n & <- & Hn). apply in_seq in Hn. lia.
  - intros Hi. exists (Z.to_nat (i - a)). split; [lia|]. apply in_seq. lia.
Qed.

Lemma range_snoc (a : Z) (n : nat) :
  Py.range a (a + Z.of_nat (S n)) = Py.range a (a + Z.of_nat n) ++ [a + Z.of_nat n].
Proof.
  unfold Py.range.
  replace (Z.to_nat (a + Z.of_nat (S n) - a)) with (S n) by lia.
  replace (Z.to_nat (a + Z.of_nat n - a)) with n by lia.
  rewrite seq_S, map_app. reflexivity.
Qed.

Lemma ceil_floor_scaled (q : Q) (a k n T : Z) :
  0 <= k -> 0 <= n ->
  (q == Py.float a / Py.pow2 k)%Q ->
  Py.ceil (Py.float (Py.floor (q / Py.pow2 n)) / Py.float T)
  = cdiv (a / 2 ^ (k + n)) T.
Proof.
  intros Hk Hn Hq. rewrite (floor_scaled q a k n Hk Hn Hq). apply ceil_div.
Qed.

(** What the code computes for a run at zoom level [z]: every width and
    height is scaled twice, once by the selected level and once by the
    level of the tile. *)
Lemma getTileIndex_closed_form (W H T : Z) (j : nat) (z level x y : Z) :
  let m := Z.of_nat (S j) in
  let k := m - z - 1 in
  0 <= z < m -> 0 <= level < m ->
  getTileIndex (props_of W H T j z) level x y =
    x + y * fst (level_at T W H (Z.to_nat (k + (m - level - 1))))
    + zsum (fun i => tilesAt T W H (k + (m - i))) (Py.range 1 (level + 1)).
Proof.
  intros m k Hz Hl. unfold getTileIndex.
  cbn [props_of width height maxZoom tileSize]. fold m.
  rewrite (fold_left_zsum
             (fun i => Py.ceil (Py.float (Py.floor
                          ((Py.float W / Py.pow2 (m - z - 1))%Q / Py.pow2 (m - i)))
                        / Py.float T)
                       * Py.ceil (Py.float (Py.floor
                          ((Py.float H / Py.pow2 (m - z - 1))%Q / Py.pow2 (m - i)))
                        / Py.float T))).
  fold k. f_equal.
  - rewrite (ceil_floor_scaled _ W k (m - level - 1) T) by (try lia; reflexivity).
    unfold level_at. cbn [fst]. rewrite Z2Nat.id by lia. reflexivity.
  - apply zsum_ext_in. intros i Hi. apply in_range in Hi.
    rewrite (ceil_floor_scaled _ W k (m - i) T) by (try lia; reflexivity).
    rewrite (ceil_floor_scaled _ H k (m - i) T) by (try lia; reflexivity).
    unfold tilesAt, level_at. cbn [fst snd]. rewrite Z2Nat.id by lia. reflexivity.
Qed.

Lemma firstn_snoc {A : Type} (l : list A) (n : nat) (d : A) :
  (n < List.length l)%nat -> firstn (S n) l = firstn n l ++ [nth n l d].
Proof.
  revert n. induction l as [|a l IH]; intros n Hn; cbn in Hn; [lia|].
  destruct n as [|n]; [reflexivity|].
  cbn [firstn nth app]. f_equal. apply IH. lia.
Qed.

Lemma tilesBelow_zsum (l : list (Z * Z)) (n : nat) :
  (n <= List.length l)%nat ->
  tilesBelow l (Z.of_nat n) =
    zsum (fun i => fst (nth (Z.to_nat (i - 1)) l (0, 0))
                   * snd (nth (Z.to_nat (i - 1)) l (0, 0)))
         (Py.range 1 (1 + Z.of_nat n)).
Proof.
  unfold tilesBelow. rewrite Nat2Z.id.
  induction n as [|n IH]; intros Hn; [reflexivity|].
  rewrite range_snoc, zsum_app, <- IH by lia.
  rewrite (firstn_snoc l n (0, 0)) by lia.
  rewrite fold_right_app. cbn [fold_right zsum].
  replace (Z.to_nat (1 + Z.of_nat n - 1)) with n by lia.
  generalize (fst (nth n l (0, 0)) * snd (nth n l (0, 0))). intros t.
  generalize (firstn n l). intros l'.
  induction l' as [|p l' IHl]; cbn; [lia|]. rewrite IHl. lia.
Qed.

(** A run at the finest level computes the index of the protocol, for a
    tile of any level. *)
Lemma getTileIndex_finest (W H T : Z) (j : nat) (level x y : Z) :
  let m := Z.of_nat (S j) in
  0 <= level < m ->
  getTileIndex (props_of W H T j (m - 1)) level x y =
    globalIndex (levels_of T W H j) level x y.
Proof.
  intros m Hl. rewrite getTileIndex_closed_form by (fold m; lia). fold m.
  unfold globalIndex.
  replace (tilesBelow (levels_of T W H j) level)
    with (tilesBelow (levels_of T W H j) (Z.of_nat (Z.to_nat level)))
    by (rewrite Z2Nat.id by lia; reflexivity).
  rewrite tilesBelow_zsum by (rewrite levels_of_length; lia).
  rewrite Z2Nat.id by lia.
  rewrite levels_of_nth by lia.
  replace (Z.to_nat (m - (m - 1) - 1 + (m - level - 1))) with (j - Z.to_nat level)%nat by lia.
  replace (1 + level) with (level + 1) by lia.
  assert (Hsum :
    zsum (fun i => tilesAt T W H (m - (m - 1) - 1 + (m - i))) (Py.range 1 (level + 1))
    = zsum (fun i => fst (nth (Z.to_nat (i - 1)) (levels_of T W H j) (0, 0))
                     * snd (nth (Z.to_nat (i - 1)) (levels_of T W H j) (0, 0)))
           (Py.range 1 (level + 1))).
  { apply zsum_ext_in. intros i Hi. apply in_range in Hi.
    rewrite levels_of_nth by lia. unfold tilesAt.
    replace (Z.to_nat (m - (m - 1) - 1 + (m - i))) with (j - Z.to_nat (i - 1))%nat by lia.
    reflexivity. }
  rewrite Hsum. lia.
Qed.

Lemma fmt_d_scaled (a n : Z) :
  0 <= a -> 0 <= n ->
  Py.fmt_d (Py.float a / Py.pow2 n) = a / 2 ^ n.
Proof.
  intros Ha Hn. unfold Py.fmt_d, Py.int, Py.float.
  assert (Hq : (inject_Z a / Py.pow2 n == inject_Z a / inject_Z (2 ^ n))%Q).
  { rewrite (pow2_nonneg n Hn). reflexivity. }
  assert (Hpos : (0 < inject_Z (2 ^ n))%Q).
  { change 0%Q with (inject_Z 0). rewrite <- Zlt_Qlt. apply Z.pow_pos_nonneg; lia. }
  assert (Hle : Qle_bool 0 (inject_Z a / Py.pow2 n) = true).
  { apply Qle_bool_iff. rewrite Hq. apply Qle_shift_div_l; [exact Hpos|].
    rewrite Qmult_0_l. change 0%Q with (inject_Z 0). rewrite <- Zle_Qle. exact Ha. }
  rewrite Hle, (Qfloor_comp _ _ Hq). symmetry. apply Zdiv_Qdiv.
Qed.

Lemma last_rev_cons {A : Type} (a : A) (l : list A) (d : A) :
  last (rev (a :: l)) d = a.
Proof. cbn [rev]. apply last_last. Qed.

(** Closed arithmetic side conditions, by evaluation *)
Ltac ground :=
  vm_compute; repeat split; solve [reflexivity | discriminate | intros ?; discriminate].

(** * The claims *)

(** ** Pyramid geometry *)

(** C1 (defect of the code).  [getTileIndex] divides [self.width] and
    [self.height], which [getProperties] has already scaled to the selected
    zoom level, where the index of the protocol needs the full width and
    height.  For the geometry 2679 x 4000 with tiles of 256, the tile
    (level 3, column 0, row 1) has the index 9 in a run at zoom level 3 and
    the index 23 in a run at the finest level; the sum of the tile counts
    of the levels below plus [col + row * xTiles(level)] is 23. *)
Theorem getTileIndex_depends_on_selected_level :
  exists (p3 p4 : Props) (w3 w4 : world),
    getProperties 8 (document 2679 4000 256) (ZoomInt 3) world0 = (Done p3, w3) /\
    getProperties 8 (document 2679 4000 256) ZoomUnset world0 = (Done p4, w4) /\
    levels p3 = levels p4 /\
    zoomLevel p3 = 3 /\ xTiles p3 = 6 /\ yTiles p3 = 8 /\
    globalIndex (levels p3) 3 0 1 = 23 /\
    getTileIndex p3 3 0 1 = 9 /\
    getTileIndex p4 3 0 1 = 23.
Proof.
  do 4 eexists.
  split; [vm_compute; reflexivity|].
  split; [vm_compute; reflexivity|].
  vm_compute. repeat split; reflexivity.
Qed.

(** The same defect seen in the URL: for a 16384 x 16384 image with tiles
    of 256, a run at zoom level 5 asks for tile (0, 0) in TileGroup0; its
    index in the protocol is 341, which lies in TileGroup1. *)
Example getImageTileURL_wrong_group :
  exists (p : Props) (w : world),
    getProperties 8 (document 16384 16384 256) (ZoomInt 5) world0 = (Done p, w) /\
    getTileIndex p 5 0 0 = 86 /\
    globalIndex (levels p) 5 0 0 = 341 /\
    tileGroup p 0 0 = 0 /\
    globalIndex (levels p) 5 0 0 / tileSize p = 1 /\
    getImageTileURL "http://host/img" "jpg" p 0 0
      = "http://host/img/TileGroup0/5-0-0.jpg"%string.
Proof.
  do 2 eexists. split; [vm_compute; reflexivity|].
  vm_compute. repeat split; reflexivity.
Qed.

(** C2 (counterexample).  The loop does not terminate for every positive
    geometry: for a 1 x 2 image with tiles of 1 the width is halved to 0
    before the height reaches one tile, and no later level is 1 x 1.  And
    where it terminates the list has been reversed: for 2679 x 4000 with
    tiles of 256 its last element is the finest level (11, 16), not (1, 1),
    although the list has five elements. *)
Lemma getZoomLevels_counterexample :
  (forall fuel, getZoomLevels fuel 1 2 1 = OutOfFuel) /\
  (exists levels,
     getZoomLevels 8 2679 4000 256 = Done levels /\
     List.length levels = 5%nat /\
     last levels (0, 0) = (11, 16) /\
     last levels (0, 0) <> (1, 1)).
Proof.
  split.
  - intros [|fuel]; [reflexivity|]. unfold getZoomLevels.
    rewrite loop_step by lia. cbn [single_tile level_at].
    change (getZoomLevels_loop fuel 1 (1 / 2) (2 / 2) ([] ++ [level_at 1 1 2 0]))
      with (getZoomLevels_loop fuel 1 0 1 ([] ++ [level_at 1 1 2 0])).
    rewrite loop_diverges; [reflexivity | lia | lia | lia |].
    intros k. apply level_at_zero_width. lia.
  - eexists. split; [vm_compute; reflexivity|].
    split; [reflexivity|]. split; [reflexivity|]. cbn. congruence.
Qed.

(** C2 (amended).  For a width, a height and a tile size below 2^53:
    whenever some number [k] of halvings brings both the width and the
    height between 1 and [tileSize], the loop terminates; the resulting
    list has (1, 1) at index 0 and nowhere else, its last element is the
    finest level [(ceil(W/T), ceil(H/T))], and it has exactly one element
    exactly when the finest level is itself 1 x 1.  For 2679 x 4000 with
    tiles of 256 the finest level is (11, 16). *)
Theorem getZoomLevels_coarsest_first :
  (forall (W H T : Z) (k : nat),
     0 < W -> 0 < H -> 0 < T ->
     double_exact W H T ->
     1 <= W / 2 ^ Z.of_nat k <= T ->
     1 <= H / 2 ^ Z.of_nat k <= T ->
     exists (fuel : nat) (levels : list (Z * Z)),
       (forall fuel', (fuel <= fuel')%nat ->
                      getZoomLevels fuel' W H T = Done levels) /\
       nth 0 levels (0, 0) = (1, 1) /\
       (forall i, (0 < i < List.length levels)%nat -> nth i levels (0, 0) <> (1, 1)) /\
       last levels (0, 0)
         = (Py.ceil (Py.float W / Py.float T), Py.ceil (Py.float H / Py.float T)) /\
       (List.length levels = 1%nat <->
        Py.ceil (Py.float W / Py.float T) = 1 /\ Py.ceil (Py.float H / Py.float T) = 1)) /\
  (exists levels,
     getZoomLevels 5 2679 4000 256 = Done levels /\ last levels (0, 0) = (11, 16)).
Proof.
  split; [|eexists; split; [vm_compute; reflexivity | reflexivity]].
  intros W H T k HW HH HT _ HkW HkH.
  assert (Hk : level_at T W H k = (1, 1)) by (apply level_at_single; auto).
  destruct (getZoomLevels_spec W H T k ltac:(lia) ltac:(lia) HT Hk)
    as (j & Hjk & Hj & Hmin & Hrun).
  exists (S j), (levels_of T W H j).
  assert (Hfinest : level_at T W H 0
                    = (Py.ceil (Py.float W / Py.float T), Py.ceil (Py.float H / Py.float T))).
  { rewrite !ceil_div. unfold level_at. cbn [Z.of_nat Z.pow]. rewrite !Z.div_1_r. reflexivity. }
  split; [intros fuel' Hf; apply Hrun; lia|].
  split; [rewrite levels_of_nth by lia; rewrite Nat.sub_0_r; exact Hj|].
  split.
  { intros i Hi. rewrite levels_of_length in Hi.
    rewrite levels_of_nth by lia. apply Hmin. lia. }
  split.
  { rewrite <- Hfinest. unfold levels_of. cbn [seq map]. apply last_rev_cons. }
  rewrite levels_of_length.
  assert (Hone : level_at T W H 0 = (1, 1) <->
                 Py.ceil (Py.float W / Py.float T) = 1
                 /\ Py.ceil (Py.float H / Py.float T) = 1).
  { rewrite Hfinest. split; [intros E; inversion E; auto | intros [-> ->]; reflexivity]. }
  rewrite <- Hone. split.
  - intros Hlen. assert (j = O) by lia. subst j. exact Hj.
  - intros H0. destruct j as [|j]; [reflexivity|].
    exfalso. apply (Hmin O); [lia | exact H0].
Qed.

Lemma getZoomLevels_coarsest_first_witness :
  exists (fuel : nat) (levels : list (Z * Z)),
    (forall fuel', (fuel <= fuel')%nat ->
                   getZoomLevels fuel' 2679 4000 256 = Done levels) /\
    nth 0 levels (0, 0) = (1, 1) /\
    (forall i, (0 < i < List.length levels)%nat -> nth i levels (0, 0) <> (1, 1)) /\
    last levels (0, 0)
      = (Py.ceil (Py.float 2679 / Py.float 256),
         Py.ceil (Py.float 4000 / Py.float 256)) /\
    (List.length levels = 1%nat <->
     Py.ceil (Py.float 2679 / Py.float 256) = 1
     /\ Py.ceil (Py.float 4000 / Py.float 256) = 1).
Proof.
  apply (proj1 getZoomLevels_coarsest_first 2679 4000 256 4%nat); ground.
Defined.

(** C3 (counterexample).  In a run of the 2679 x 4000 image at zoom level
    3 of 5 the attribute [self.width] is 2679/2 = 1339.5: [/] is the true
    division, and the value is not the integer 1339 = floor(2679 / 2). *)
Lemma width_not_truncated :
  exists (p : Props) (w : world),
    getProperties 8 (document 2679 4000 256) (ZoomInt 3) world0 = (Done p, w) /\
    maxZoom p = 5 /\ zoomLevel p = 3 /\
    (width p == 2679 # 2)%Q /\
    ~ (width p == inject_Z (2679 / 2 ^ (5 - 3 - 1)))%Q.
Proof.
  do 2 eexists. split; [vm_compute; reflexivity|].
  split; [reflexivity|]. split; [reflexivity|]. split; [reflexivity|].
  cbn. unfold Qeq. cbn. lia.
Qed.

(** C3 (amended).  For a width, a height and a tile size below 2^53 and
    the zoom level [z] a run selects, [self.width] and [self.height] are
    the exact quotients of the full width and height by [2^(maxZoom-z-1)],
    without truncation; the truncation is applied where the values are
    used: the canvas size formatted with [%d] for the compositor is
    [floor(fullWidth / 2^(maxZoom-z-1))] by
    [floor(fullHeight / 2^(maxZoom-z-1))]. *)
Theorem width_height_exact_truncated_on_use
    (W H T : Z) (k : nat) (request : zoom_arg) (w : world) :
  0 < W -> 0 < H -> 0 < T ->
  double_exact W H T ->
  1 <= W / 2 ^ Z.of_nat k <= T ->
  1 <= H / 2 ^ Z.of_nat k <= T ->
  request <> ZoomNotAnInt ->
  exists (fuel : nat) (p : Props) (w' : world),
    getProperties fuel (document W H T) request w = (Done p, w') /\
    zoomLevel p = effectiveZoom request (maxZoom p) /\
    0 <= zoomLevel p < maxZoom p /\
    let s := 2 ^ (maxZoom p - zoomLevel p - 1) in
    (width p == inject_Z W / inject_Z s)%Q /\
    (height p == inject_Z H / inject_Z s)%Q /\
    Py.fmt_d (width p) = W / s /\
    Py.fmt_d (height p) = H / s.
Proof.
  intros HW HH HT _ HkW HkH Hreq.
  assert (Hk : level_at T W H k = (1, 1)) by (apply level_at_single; auto).
  destruct (getProperties_run W H T k request w ltac:(lia) ltac:(lia) HT Hk Hreq)
    as (j & _ & _ & _ & Hrun).
  specialize (Hrun (S j) ltac:(lia)). cbv zeta in Hrun.
  eexists (S j), _, _. split; [exact Hrun|].
  cbn [props_of zoomLevel maxZoom width height].
  pose proof (effectiveZoom_range request (Z.of_nat (S j)) ltac:(lia)) as Hz.
  split; [reflexivity|]. split; [exact Hz|].
  cbv zeta.
  set (z := effectiveZoom request (Z.of_nat (S j))) in *.
  assert (Hn : 0 <= Z.of_nat (S j) - z - 1) by lia.
  repeat split.
  - rewrite (pow2_nonneg _ Hn). reflexivity.
  - rewrite (pow2_nonneg _ Hn). reflexivity.
  - apply fmt_d_scaled; lia.
  - apply fmt_d_scaled; lia.
Qed.

Lemma width_height_exact_truncated_on_use_witness :
  exists (fuel : nat) (p : Props) (w' : world),
    getProperties fuel (document 2679 4000 256) (ZoomInt 3) world0 = (Done p, w') /\
    zoomLevel p = effectiveZoom (ZoomInt 3) (maxZoom p) /\
    0 <= zoomLevel p < maxZoom p /\
    let s := 2 ^ (maxZoom p - zoomLevel p - 1) in
    (width p == inject_Z 2679 / inject_Z s)%Q /\
    (height p == inject_Z 4000 / inject_Z s)%Q /\
    Py.fmt_d (width p) = 2679 / s /\
    Py.fmt_d (height p) = 4000 / s.
Proof.
  apply (width_height_exact_truncated_on_use 2679 4000 256 4%nat (ZoomInt 3) world0);
    ground.
Defined.

(** C4 (defect of the code).  The tile group that [getImageTileURL]
    writes into the URL is the index [getTileIndex] returns,
    integer-divided by [tileSize]; in a run below the finest level that
    index is not the global index of the protocol (the defect of C1), and
    the group is not the global index integer-divided by [tileSize].  For
    a 16384 x 16384 image with tiles of 256, in a run at zoom level 5
    (32 x 32 tiles), tile (0, 0) is requested from TileGroup0 while its
    global index 341 lies in TileGroup1, and no cell of the grid gets the
    group of its global index; in a run of the same image at the finest
    level every cell does. *)
Theorem tileGroup_is_not_global_index_div_tileSize :
  exists (p5 p6 : Props) (w5 w6 : world),
    getProperties 8 (document 16384 16384 256) (ZoomInt 5) world0 = (Done p5, w5) /\
    getProperties 8 (document 16384 16384 256) ZoomUnset world0 = (Done p6, w6) /\
    levels p5 = levels p6 /\ tileSize p5 = 256 /\ tileSize p6 = 256 /\
    zoomLevel p5 = 5 /\ xTiles p5 = 32 /\ yTiles p5 = 32 /\
    zoomLevel p6 = 6 /\ xTiles p6 = 64 /\ yTiles p6 = 64 /\
    tileGroup p5 0 0 = getTileIndex p5 5 0 0 / tileSize p5 /\
    getTileIndex p5 5 0 0 = 86 /\
    globalIndex (levels p5) 5 0 0 = 341 /\
    tileGroup p5 0 0 = 0 /\
    globalIndex (levels p5) 5 0 0 / tileSize p5 = 1 /\
    getImageTileURL "http://host/img" "jpg" p5 0 0
      = "http://host/img/TileGroup0/5-0-0.jpg"%string /\
    Forall (fun col =>
              Forall (fun row =>
                        tileGroup p5 col row
                          <> globalIndex (levels p5) (zoomLevel p5) col row
                             / tileSize p5)
                     (Py.range 0 (yTiles p5)))
           (Py.range 0 (xTiles p5)) /\
    Forall (fun col =>
              Forall (fun row =>
                        tileGroup p6 col row
                          = globalIndex (levels p6) (zoomLevel p6) col row
                            / tileSize p6)
                     (Py.range 0 (yTiles p6)))
           (Py.range 0 (xTiles p6)).
Proof.
  do 4 eexists.
  split; [vm_compute; reflexivity|].
  split; [vm_compute; reflexivity|].
  do 15 (split; [vm_compute; reflexivity|]).
  split.
  - apply Forall_forall. intros col Hcol. apply Forall_forall. intros row Hrow.
    match goal with
    | |- tileGroup ?p col row <> globalIndex ?l ?z col row / ?t =>
      assert (Hall : forallb
                       (fun c => forallb
                                   (fun r => negb (tileGroup p c r
                                                   =? globalIndex l z c r / t))
                                   (Py.range 0 32))
                       (Py.range 0 32) = true)
        by (vm_compute; reflexivity)
    end.
    rewrite forallb_forall in Hall. specialize (Hall col Hcol).
    rewrite forallb_forall in Hall. specialize (Hall row Hrow).
    apply negb_true_iff, Z.eqb_neq in Hall. exact Hall.
  - apply Forall_forall. intros col Hcol. apply Forall_forall. intros row Hrow.
    match goal with
    | |- tileGroup ?p col row = globalIndex ?l ?z col row / ?t =>
      assert (Hall : forallb
                       (fun c => forallb
                                   (fun r => tileGroup p c r
                                             =? globalIndex l z c r / t)
                                   (Py.range 0 64))
                       (Py.range 0 64) = true)
        by (vm_compute; reflexivity)
    end.
    rewrite forallb_forall in Hall. specialize (Hall col Hcol).
    rewrite forallb_forall in Hall. specialize (Hall row Hrow).
    apply Z.eqb_eq in Hall. exact Hall.
Qed.

(** ** Zoom level *)

(** The three cases of lines 508-520, for any number of levels *)
Lemma resolveZoomLevel_cases (maxZoom : Z) (w : world) :
  resolveZoomLevel ZoomUnset maxZoom w = (Done (maxZoom - 1), w) /\
  (forall z, 0 <= z < maxZoom ->
     resolveZoomLevel (ZoomInt z) maxZoom w = (Done z, w)) /\
  (forall z, ~ 0 <= z < maxZoom ->
     resolveZoomLevel (ZoomInt z) maxZoom w
       = (Done (maxZoom - 1),
          add_log (WARNING, MsgZoomNotAvailable (maxZoom - 1)) w)).
Proof.
  split; [reflexivity|]. split; intros z Hz; cbn.
  - destruct (Z.ltb_spec z maxZoom); [|lia].
    rewrite Z.geb_leb. destruct (Z.leb_spec 0 z); [|lia]. reflexivity.
  - rewrite Z.geb_leb.
    destruct (Z.ltb_spec z maxZoom), (Z.leb_spec 0 z); try lia; reflexivity.
Qed.

Lemma warnings_app (l1 l2 : list (log_level * message)) :
  warnings (l1 ++ l2) = warnings l1 ++ warnings l2.
Proof. apply filter_app. Qed.



(** The scenario of the spec: level 99 requested for the 2679 x 4000
    image, which has 5 levels. *)
Example zoom_99_falls_back_to_4 :
  exists (p : Props) (w : world),
    getProperties 8 (document 2679 4000 256) (ZoomInt 99) world0 = (Done p, w) /\
    maxZoom p = 5 /\ zoomLevel p = 4 /\
    warnings (log w) = [(WARNING, MsgZoomNotAvailable 4)].
Proof.
  do 2 eexists. split; [vm_compute; reflexivity|].
  repeat split; reflexivity.
Qed.

(** ** The downloader threads *)

Lemma attempts_app (l1 l2 : list (log_level * message)) :
  attempts (l1 ++ l2) = attempts l1 ++ attempts l2.
Proof. apply flat_map_app. Qed.

(** A thread meeting only successes and HTTP errors drains the queue. *)
Lemma downloader_survives (self : Untiler) (E : env)
    (dq : list (string * Z * Z)) :
  Forall (survivable E) dq ->
  forall (jq : list (Z * Z)) (w : world),
  exists w',
    downloader self E dq jq w
      = (Returned, ([], jq ++ map task_cell (List.filter (fetched E) dq), w')) /\
    warnings (log w')
      = warnings (log w)
        ++ map (fun t => (WARNING, MsgNotOnServer (task_url t) (snd t) (snd (fst t))))
               (List.filter (not_found E) dq) /\
    attempts (log w')
      = attempts (log w) ++ map (fun t => (snd t, snd (fst t))) dq /\
    calls w' = calls w /\ fresh w' = fresh w.
Proof.
  induction dq as [|[[url col] row] dq IH]; intros Hall jq w.
  - exists w. cbn. rewrite !app_nil_r. repeat split; reflexivity.
  - inversion Hall as [|t l Ht Hrest]; subst.
    cbn [downloader List.filter].
    destruct Ht as [Ht|Ht]; cbn [task_url fst snd] in Ht; rewrite Ht;
      unfold fetched at 1, not_found at 1; cbn [task_url fst snd]; rewrite Ht.
    + destruct (IH Hrest (jq ++ [(col, row)])
                   (set_fs ({[localTileName self col row]} ∪ fs (add_log (INFO, MsgDownloading row col) w))
                           (add_log (INFO, MsgDownloading row col) w)))
        as (w' & Hrun & Hwarn & Hatt & Hcalls & Hfresh).
      cbn [log set_fs add_log calls fresh] in Hwarn, Hatt, Hcalls, Hfresh.
      rewrite warnings_app in Hwarn. rewrite attempts_app in Hatt.
      cbn [warnings attempts List.filter flat_map fst snd app] in Hwarn, Hatt.
      rewrite app_nil_r in Hwarn. rewrite <- app_assoc in Hatt, Hrun.
      exists w'. rewrite Hrun, Hwarn, Hatt, Hcalls, Hfresh.
      repeat split; reflexivity.
    + destruct (IH Hrest jq
                   (add_log (WARNING, MsgNotOnServer url row col)
                      (set_fs ({[localTileName self col row]} ∪ fs (add_log (INFO, MsgDownloading row col) w))
                              (add_log (INFO, MsgDownloading row col) w))))
        as (w' & Hrun & Hwarn & Hatt & Hcalls & Hfresh).
      cbn [log set_fs add_log calls fresh] in Hwarn, Hatt, Hcalls, Hfresh.
      rewrite !warnings_app in Hwarn. rewrite !attempts_app in Hatt.
      cbn [warnings attempts List.filter flat_map fst snd app] in Hwarn, Hatt.
      rewrite !app_nil_r in Hwarn, Hatt. rewrite <- !app_assoc in Hatt, Hwarn.
      exists w'. rewrite Hrun, Hwarn, Hatt, Hcalls, Hfresh.
      repeat split; reflexivity.
Qed.

(** ** Joining *)

Lemma subprocess_call_starts (E : env) (c : cmd) (w : world) :
  starts E ->
  exists status, subprocess_call E c w = (Done status, add_call c w).
Proof.
  intros Hs. unfold subprocess_call. specialize (Hs c).
  destruct (sys E c) as [status|]; [exists status; reflexivity | congruence].
Qed.

Lemma join_tile_run (self : Untiler) (E : env) (tmpimgs : path * path)
    (a n col row : Z) (w : world) :
  starts E ->
  join_tile self E tmpimgs (a, n) col row w =
    (Done ((a + 1) mod 2, n + 1),
     {| log := log w ++ [(INFO, MsgAdding row col)];
        fs := fs w;
        calls := calls w
                 ++ (if n =? 0 then
                       [Crop (Py.fmt_d (width (props self)))
                             (Py.fmt_d (height (props self)))
                             (select tmpimgs a) (localTileName self col row)]
                     else [])
                 ++ [Drop (col * tileSize (props self)) (row * tileSize (props self))
                          (localTileName self col row)
                          (select tmpimgs ((a + 1) mod 2)) (select tmpimgs a)];
        fresh := fresh w |}).
Proof.
  intros Hs. unfold join_tile.
  destruct (n =? 0).
  - unfold bind at 1. unfold bind at 1.
    destruct (subprocess_call_starts E
                (Crop (Py.fmt_d (width (props self))) (Py.fmt_d (height (props self)))
                      (select tmpimgs a) (localTileName self col row)) w Hs) as [s1 ->].
    cbn [ret]. unfold bind at 1. cbn [logger]. unfold bind at 1.
    match goal with |- context [subprocess_call E ?c ?w0] =>
      destruct (subprocess_call_starts E c w0 Hs) as [s2 ->] end.
    unfold ret, add_call, add_log. cbn [log fs calls fresh app].
    rewrite <- ?app_assoc. reflexivity.
  - unfold bind at 1. cbn [ret]. unfold bind at 1. cbn [logger]. unfold bind at 1.
    match goal with |- context [subprocess_call E ?c ?w0] =>
      destruct (subprocess_call_starts E c w0 Hs) as [s2 ->] end.
    unfold ret, add_call, add_log. cbn [log fs calls fresh app]. reflexivity.
Qed.

Lemma parity_succ (s : nat) :
  (Z.of_nat s mod 2 + 1) mod 2 = Z.of_nat (S s) mod 2.
Proof. rewrite Nat2Z.inj_succ, Zplus_mod_idemp_l. f_equal. Qed.

Lemma join_loop_run (self : Untiler) (E : env) (tmpimgs : path * path)
    (Hs : starts E) (arrivals : list (option (Z * Z))) :
  forall (s : nat) (w : world),
    let tiles := arrived arrivals in
    let n := List.length tiles in
    join_loop self E tmpimgs arrivals (Z.of_nat s mod 2, Z.of_nat s) w =
      (Done (Z.of_nat (s + n) mod 2, Z.of_nat (s + n)),
       {| log := log w ++ map (fun t => (INFO, MsgAdding (snd t) (fst t))) tiles;
          fs := fs w;
          calls := calls w
                   ++ (if (s =? 0)%nat then canvas self tmpimgs tiles else [])
                   ++ map (placement self tmpimgs) (combine (seq s n) tiles);
          fresh := fresh w |}).
Proof.
  induction arrivals as [|[[col row]|] arrivals IH]; intros s w.
  - cbn. rewrite Nat.add_0_r. destruct w, (s =? 0)%nat; cbn; rewrite !app_nil_r; reflexivity.
  - cbn [join_loop arrived flat_map app List.length]. unfold bind.
    rewrite join_tile_run by exact Hs.
    rewrite Zplus_mod_idemp_l.
    replace ((Z.of_nat s + 1) mod 2, Z.of_nat s + 1)
      with (Z.of_nat (S s) mod 2, Z.of_nat (S s))
      by (rewrite Nat2Z.inj_succ; unfold Z.succ; reflexivity).
    rewrite IH. cbv zeta. cbn [log fs calls fresh].
    fold (arrived arrivals).
    replace (S s + List.length (arrived arrivals))%nat
      with (s + S (List.length (arrived arrivals)))%nat by lia.
    f_equal. f_equal.
    + rewrite <- app_assoc. reflexivity.
    + cbn [seq combine map Nat.eqb app]. unfold placement at 2.
      cbn [fst snd]. rewrite <- !app_assoc. f_equal.
      destruct (Z.eqb_spec (Z.of_nat s) 0) as [H0|H0].
      * assert (s = O) by lia. subst s. reflexivity.
      * destruct s as [|s]; [lia|]. reflexivity.
  - cbn [join_loop arrived flat_map app]. apply IH.
Qed.

Lemma compose_run (self : Untiler) (E : env) (tmpimgs : path * path)
    (arrivals : list (option (Z * Z))) (outputDestination : string) (w : world) :
  starts E ->
  let tiles := arrived arrivals in
  let n := List.length tiles in
  let numMissing := xTiles (props self) * yTiles (props self) - Z.of_nat n in
  compose self E tmpimgs arrivals outputDestination w =
    (Done numMissing,
     {| log := log w
               ++ map (fun t => (INFO, MsgAdding (snd t) (fst t))) tiles
               ++ (if numMissing >? 0 then
                     [(WARNING, MsgMissing numMissing (negb (numMissing =? 1))
                                           (zoomLevel (props self)))]
                   else []);
        fs := fs w;
        calls := calls w
                 ++ canvas self tmpimgs tiles
                 ++ map (placement self tmpimgs) (combine (seq 0 n) tiles)
                 ++ [Optimize (OutFile outputDestination)
                              (select tmpimgs (Z.of_nat n mod 2))];
        fresh := fresh w |}).
Proof.
  intros Hs tiles n numMissing. unfold compose. unfold bind at 1.
  change (0, 0) with (Z.of_nat 0 mod 2, Z.of_nat 0).
  rewrite (join_loop_run self E tmpimgs Hs arrivals 0 w).
  cbv zeta. cbn [Nat.add Nat.eqb]. fold tiles. fold n. fold numMissing.
  unfold bind at 1.
  destruct (numMissing >? 0).
  - cbn [logger]. unfold bind at 1.
    match goal with |- context [subprocess_call E ?c ?w0] =>
      destruct (subprocess_call_starts E c w0 Hs) as [s2 ->] end.
    unfold ret, add_call, add_log. cbn [log fs calls fresh].
    rewrite <- !app_assoc. reflexivity.
  - cbn [ret]. unfold bind at 1.
    match goal with |- context [subprocess_call E ?c ?w0] =>
      destruct (subprocess_call_starts E c w0 Hs) as [s2 ->] end.
    unfold ret, add_call, add_log. cbn [log fs calls fresh].
    rewrite <- !app_assoc, app_nil_r. reflexivity.
Qed.

(** The downloads leave the command trace and the counter of temporary
    names alone, and log nothing about missing tiles. *)
Lemma downloader_frame (self : Untiler) (E : env) (dq : list (string * Z * Z)) :
  forall (jq : list (Z * Z)) (w : world),
    let w' := snd (snd (downloader self E dq jq w)) in
    calls w' = calls w /\ fresh w' = fresh w /\
    List.filter is_missing (log w') = List.filter is_missing (log w).
Proof.
  induction dq as [|[[url col] row] dq IH]; intros jq w; [repeat split; reflexivity|].
  cbn [downloader]. cbv zeta.
  destruct (net E url).
  - destruct (IH (jq ++ [(col, row)])
                 (set_fs ({[localTileName self col row]} ∪ fs (add_log (INFO, MsgDownloading row col) w))
                         (add_log (INFO, MsgDownloading row col) w)))
      as (Hc & Hf & Hl).
    rewrite Hc, Hf, Hl. cbn [calls fresh log set_fs add_log].
    rewrite filter_app. cbn. rewrite app_nil_r. repeat split; reflexivity.
  - destruct (IH jq
                 (add_log (WARNING, MsgNotOnServer url row col)
                    (set_fs ({[localTileName self col row]} ∪ fs (add_log (INFO, MsgDownloading row col) w))
                            (add_log (INFO, MsgDownloading row col) w))))
      as (Hc & Hf & Hl).
    rewrite Hc, Hf, Hl. cbn [calls fresh log set_fs add_log].
    rewrite !filter_app. cbn. rewrite !app_nil_r. repeat split; reflexivity.
  - cbn [snd calls fresh log set_fs add_log]. rewrite filter_app. cbn.
    rewrite app_nil_r. repeat split; reflexivity.
  - cbn [snd calls fresh log set_fs add_log]. rewrite filter_app. cbn.
    rewrite app_nil_r. repeat split; reflexivity.
Qed.

Lemma run_threads_frame (n : nat) (self : Untiler) (E : env) :
  forall (dq : list (string * Z * Z)) (jq : list (Z * Z)) (w : world),
    let w' := snd (snd (run_threads n self E dq jq w)) in
    calls w' = calls w /\ fresh w' = fresh w /\
    List.filter is_missing (log w') = List.filter is_missing (log w).
Proof.
  induction n as [|n IH]; intros dq jq w; [repeat split; reflexivity|].
  cbn [run_threads]. cbv zeta.
  pose proof (downloader_frame self E dq jq w) as Hd. cbv zeta in Hd.
  destruct (downloader self E dq jq w) as [e [[dq1 jq1] w1]].
  cbn [snd] in Hd. destruct Hd as (Hc & Hf & Hl).
  specialize (IH dq1 jq1 w1). cbv zeta in IH.
  destruct (run_threads n self E dq1 jq1 w1) as [es [[dq2 jq2] w2]].
  cbn [snd] in *. destruct IH as (Hc2 & Hf2 & Hl2).
  rewrite Hc2, Hf2, Hl2, Hc, Hf, Hl. repeat split; reflexivity.
Qed.

Lemma run_threads_nil (n : nat) (self : Untiler) (E : env)
    (jq : list (Z * Z)) (w : world) :
  snd (run_threads n self E [] jq w) = ([], jq, w).
Proof.
  induction n as [|n IH]; [reflexivity|].
  cbn [run_threads downloader].
  destruct (run_threads n self E [] jq w) as [es st]. exact IH.
Qed.

(** When every fetch succeeds, one thread is enough to hand every cell to
    the join queue. *)
Lemma run_threads_all_fetched (n : nat) (self : Untiler) (E : env)
    (dq : list (string * Z * Z)) (w : world) :
  (0 < n)%nat ->
  Forall (fun t => net E (task_url t) = FetchOk) dq ->
  snd (fst (snd (run_threads n self E dq [] w))) = map task_cell dq.
Proof.
  intros Hn Hall. destruct n as [|n]; [lia|].
  cbn [run_threads].
  assert (Hsurv : Forall (survivable E) dq).
  { eapply Forall_impl; [|exact Hall]. intros t Ht. left. exact Ht. }
  destruct (downloader_survives self E dq Hsurv [] w) as (w' & Hrun & _).
  rewrite Hrun.
  pose proof (run_threads_nil n self E ([] ++ map task_cell (List.filter (fetched E) dq)) w') as Hnil.
  destruct (run_threads n self E [] _ w') as [es st]. cbn [snd] in Hnil. subst st.
  cbn [snd fst app]. f_equal.
  clear - Hall. induction Hall as [|t l Ht Hl IH]; [reflexivity|].
  cbn [List.filter]. unfold fetched at 1. rewrite Ht. f_equal. exact IH.
Qed.

Lemma arrived_map_Some (l : list (Z * Z)) : arrived (map Some l) = l.
Proof. induction l as [|t l IH]; [reflexivity|]. cbn. f_equal. exact IH. Qed.

Lemma filter_adding (l : list (Z * Z)) :
  List.filter is_missing (map (fun t => (INFO, MsgAdding (snd t) (fst t))) l) = [].
Proof. induction l as [|t l IH]; [reflexivity|]. cbn. exact IH. Qed.

(** ** [getImage] *)

Lemma getImage_handoff (self : Untiler) (E : env) (outputDestination : string)
    (w : world) :
  getImage self E outputDestination w
  = finish self E outputDestination (fst (handoff self E w)) (snd (handoff self E w)).
Proof.
  unfold getImage, handoff, tasks, finish.
  destruct (nodownload (config self)); cbn [negb]; [reflexivity|].
  unfold bind at 1.
  destruct (run_threads _ self E _ [] w) as [ends [[dq jq] w1]]. reflexivity.
Qed.

Lemma finish_run (self : Untiler) (E : env) (outputDestination : string)
    (tiles : list (Z * Z)) (w1 : world) :
  starts E ->
  finish self E outputDestination tiles w1 =
    (Done (xTiles (props self) * yTiles (props self) - Z.of_nat (List.length tiles)),
     finished self outputDestination tiles w1).
Proof.
  intros Hs. unfold finish, finished.
  destruct w1 as [l0 f0 c0 k0]. cbn [fresh calls log fs].
  unfold bind at 1. unfold NamedTemporaryFile at 1.
  unfold set_fs, bump. cbn [log fs calls fresh].
  unfold bind at 1. cbn [logger]. unfold add_log. cbn [log fs calls fresh].
  unfold bind at 1. unfold NamedTemporaryFile at 1.
  unfold set_fs, bump. cbn [log fs calls fresh].
  unfold bind at 1. cbn [logger]. unfold add_log. cbn [log fs calls fresh].
  unfold try_finally.
  rewrite compose_run by exact Hs. cbv zeta. cbn [log fs calls fresh].
  unfold cleanup. rewrite arrived_map_Some. cbn [fst snd].
  unfold set_fs, add_log. cbn [log fs calls fresh].
  destruct (store (config self)); cbn [negb]; f_equal; f_equal;
    rewrite <- ?app_assoc; cbn [app]; rewrite ?app_nil_r; reflexivity.
Qed.

Lemma keeps_files_ret {A : Type} (a : A) : keeps_files (ret a).
Proof. intros w. cbn. split; [discriminate | split; reflexivity]. Qed.

Lemma keeps_files_logger (l : log_level) (m : message) : keeps_files (logger l m).
Proof. intros w. cbn. split; [discriminate | split; reflexivity]. Qed.

Lemma keeps_files_call (E : env) (c : cmd) : keeps_files (subprocess_call E c).
Proof.
  intros w. unfold subprocess_call.
  destruct (sys E c); cbn; (split; [discriminate | split; reflexivity]).
Qed.

Lemma keeps_files_bind {A B : Type} (m : M A) (k : A -> M B) :
  keeps_files m -> (forall a, keeps_files (k a)) -> keeps_files (bind m k).
Proof.
  intros Hm Hk w. unfold bind. destruct (Hm w) as (Hr & Hf & Hn).
  destruct (m w) as [[a|e|] w']; cbn [fst snd] in *.
  - destruct (Hk a w') as (Hr' & Hf' & Hn'). rewrite Hf', Hn'. auto.
  - split; [discriminate | split; [exact Hf | exact Hn]].
  - congruence.
Qed.

Lemma keeps_files_join_tile (self : Untiler) (E : env) (tmpimgs : path * path)
    (st : Z * Z) (col row : Z) :
  keeps_files (join_tile self E tmpimgs st col row).
Proof.
  unfold join_tile. destruct st as [a n].
  apply keeps_files_bind.
  - destruct (n =? 0); [|apply keeps_files_ret].
    apply keeps_files_bind; [apply keeps_files_call | intros; apply keeps_files_ret].
  - intros _. apply keeps_files_bind; [apply keeps_files_logger|]. intros _.
    apply keeps_files_bind; [apply keeps_files_call | intros; apply keeps_files_ret].
Qed.

Lemma keeps_files_join_loop (self : Untiler) (E : env) (tmpimgs : path * path)
    (arrivals : list (option (Z * Z))) :
  forall st, keeps_files (join_loop self E tmpimgs arrivals st).
Proof.
  induction arrivals as [|[[col row]|] arrivals IH]; intros st; cbn [join_loop].
  - apply keeps_files_ret.
  - apply keeps_files_bind; [apply keeps_files_join_tile | exact IH].
  - apply IH.
Qed.

Lemma keeps_files_compose (self : Untiler) (E : env) (tmpimgs : path * path)
    (arrivals : list (option (Z * Z))) (outputDestination : string) :
  keeps_files (compose self E tmpimgs arrivals outputDestination).
Proof.
  unfold compose. apply keeps_files_bind; [apply keeps_files_join_loop|].
  intros [a n]. apply keeps_files_bind.
  - destruct (_ >? 0); [apply keeps_files_logger | apply keeps_files_ret].
  - intros _. apply keeps_files_bind; [apply keeps_files_call | intros; apply keeps_files_ret].
Qed.

(** Whatever the commands do, [finish] ends, with the two temporary images
    deleted, and the staging directory deleted unless tiles are kept. *)
Lemma finish_files (self : Untiler) (E : env) (outputDestination : string)
    (tiles : list (Z * Z)) (w1 : world) :
  exists (r : outcome Z) (w' : world),
    finish self E outputDestination tiles w1 = (r, w') /\
    r <> OutOfFuel /\
    fs w' = fs (finished self outputDestination tiles w1).
Proof.
  unfold finish, finished.
  destruct w1 as [l0 f0 c0 k0]. cbn [fresh calls log fs].
  unfold bind at 1. unfold NamedTemporaryFile at 1.
  unfold set_fs, bump. cbn [log fs calls fresh].
  unfold bind at 1. cbn [logger]. unfold add_log. cbn [log fs calls fresh].
  unfold bind at 1. unfold NamedTemporaryFile at 1.
  unfold set_fs, bump. cbn [log fs calls fresh].
  unfold bind at 1. cbn [logger]. unfold add_log. cbn [log fs calls fresh].
  unfold try_finally.
  match goal with |- context [compose self E ?t ?a ?o ?w0] =>
    pose proof (keeps_files_compose self E t a o w0) as (Hr & Hf & _);
    destruct (compose self E t a o w0) as [r w'] end.
  cbn [fst snd fs] in Hr, Hf.
  unfold cleanup, set_fs, add_log. cbn [fst snd log fs calls fresh].
  rewrite Hf.
  destruct r as [x|e|]; [| |congruence];
    destruct (store (config self)); cbn [negb fst snd fs];
    (eexists _, _; split; [reflexivity|]); cbn [fs];
    (split; [discriminate | reflexivity]).
Qed.

(** ** Acquisition *)

(** C6 (counterexample).  One downloader thread, two tiles, the fetch of
    the first one failing with an error that is not an HTTP error
    ([URLError]): the run completes, but the only warning is the count of
    missing tiles, nothing is logged above the level of a warning, and the
    second tile is never attempted, because the only thread ended with the
    exception. *)
Lemma other_failure_ends_the_thread :
  exists w,
    process_images 8 one_thread unreachable_first [two_tiles] world0 = (Done tt, w) /\
    attempts (log w) = [(0, 0)] /\
    warnings (log w) = [(WARNING, MsgMissing 2 true 1)] /\
    List.filter (fun r => (severity WARNING <? severity (fst r))%nat) (log w) = [] /\
    calls w = [Optimize (OutFile "o.jpg") (TmpImg 1)].
Proof.
  eexists. split; [vm_compute; reflexivity|].
  repeat split; vm_compute; reflexivity.
Qed.

(** C6 (amended).  A fetch that fails with an HTTP error response is
    recoverable: the thread logs one warning for it, drops the task
    without a second attempt and goes on with the remaining tasks, so a
    thread that meets only successes and HTTP errors drains the queue and
    returns.  A fetch that fails in any other way is not caught: it ends
    the thread that ran it, nothing is logged for it, and the remaining
    tasks stay in the queue for the other threads (for none, when it was
    the only thread). *)
Theorem fetch_failure_policy (self : Untiler) (E : env) :
  (forall (dq : list (string * Z * Z)) (jq : list (Z * Z)) (w : world),
     Forall (survivable E) dq ->
     exists w',
       downloader self E dq jq w
         = (Returned, ([], jq ++ map task_cell (List.filter (fetched E) dq), w')) /\
       warnings (log w')
         = warnings (log w)
           ++ map (fun t => (WARNING, MsgNotOnServer (task_url t) (snd t) (snd (fst t))))
                  (List.filter (not_found E) dq) /\
       attempts (log w')
         = attempts (log w) ++ map (fun t => (snd t, snd (fst t))) dq) /\
  (forall (url : string) (col row : Z) (dq : list (string * Z * Z))
          (jq : list (Z * Z)) (w : world) (e : exn),
     net E url = FetchError e ->
     exists w',
       downloader self E ((url, col, row) :: dq) jq w = (Uncaught e, (dq, jq, w')) /\
       log w' = log w ++ [(INFO, MsgDownloading row col)] /\
       run_threads 1 self E ((url, col, row) :: dq) jq w
         = ([Uncaught e], (dq, jq, w'))).
Proof.
  split.
  - intros dq jq w Hall.
    destruct (downloader_survives self E dq Hall jq w) as (w' & H1 & H2 & H3 & _).
    exists w'. auto.
  - intros url col row dq jq w e Hnet.
    eexists. cbn [run_threads downloader]. rewrite Hnet.
    split; [reflexivity|]. split; reflexivity.
Qed.

Lemma fetch_failure_policy_witness :
  exists w',
    downloader two_tiles_self missing_first (tasks two_tiles_self) [] world0
      = (Returned,
         ([], [] ++ map task_cell
                      (List.filter (fetched missing_first) (tasks two_tiles_self)),
          w')) /\
    warnings (log w')
      = warnings (log world0)
        ++ map (fun t => (WARNING, MsgNotOnServer (task_url t) (snd t) (snd (fst t))))
               (List.filter (not_found missing_first) (tasks two_tiles_self)) /\
    attempts (log w')
      = attempts (log world0)
        ++ map (fun t => (snd t, snd (fst t))) (tasks two_tiles_self).
Proof.
  apply (proj1 (fetch_failure_policy two_tiles_self missing_first)).
  vm_compute.
  apply Forall_cons; [right; reflexivity|].
  apply Forall_cons; [left; reflexivity|]. apply Forall_nil.
Defined.

(** The scenario of the spec, here with the tile (col 0, row 0): its
    fetch is answered by an HTTP error, the run completes with one tile
    missing and the output is still written. *)
Example one_tile_not_found :
  exists w,
    process_images 8 one_thread missing_first [two_tiles] world0 = (Done tt, w) /\
    attempts (log w) = [(0, 0); (1, 0)] /\
    warnings (log w)
      = [(WARNING, MsgNotOnServer "http://h/TileGroup0/1-0-0.jpg" 0 0);
         (WARNING, MsgMissing 1 false 1)] /\
    last (calls w) (Optimize (TmpImg 0) (TmpImg 0))
      = Optimize (OutFile "o.jpg") (TmpImg 2).
Proof.
  eexists. split; [vm_compute; reflexivity|].
  repeat split; vm_compute; reflexivity.
Qed.

(** ** Composition *)

Lemma downloader_net (self : Untiler) (E1 E2 : env) :
  (forall url, net E1 url = net E2 url) ->
  forall dq jq w, downloader self E1 dq jq w = downloader self E2 dq jq w.
Proof.
  intros Hnet dq. induction dq as [|[[url col] row] dq IH]; intros jq w; [reflexivity|].
  cbn [downloader]. rewrite <- Hnet.
  destruct (net E1 url); try reflexivity; apply IH.
Qed.

Lemma run_threads_net (n : nat) (self : Untiler) (E1 E2 : env) :
  (forall url, net E1 url = net E2 url) ->
  forall dq jq w, run_threads n self E1 dq jq w = run_threads n self E2 dq jq w.
Proof.
  intros Hnet. induction n as [|n IH]; intros dq jq w; [reflexivity|].
  cbn [run_threads]. rewrite (downloader_net self E1 E2 Hnet).
  destruct (downloader self E2 dq jq w) as [e [[dq1 jq1] w1]].
  rewrite IH. reflexivity.
Qed.

Lemma getImage_starts (self : Untiler) (E : env) (outputDestination : string)
    (w : world) :
  starts E ->
  getImage self E outputDestination w =
    (Done (xTiles (props self) * yTiles (props self)
           - Z.of_nat (List.length (fst (handoff self E w)))),
     finished self outputDestination (fst (handoff self E w)) (snd (handoff self E w))).
Proof.
  intros Hs. rewrite getImage_handoff. apply finish_run. exact Hs.
Qed.

(** C7 (counterexample).  With a jpegtran whose every call returns the
    failure status 1, both images of a batch are composed to the end: the
    canvas allocation, the two placements and the final optimization are
    issued for each, and both are reported as saved.  With a jpegtran whose
    canvas allocation cannot be started, the exception leaves the loop over
    the images: the second image is never begun. *)
Lemma failing_primitive_is_not_fatal_per_image :
  (exists w,
     process_images 8 one_thread jpegtran_fails [two_tiles; second_image] world0
       = (Done tt, w) /\
     List.length (calls w) = 8%nat /\
     List.filter (fun r => match snd r with MsgSaved _ => true | _ => false end) (log w)
       = [(INFO, MsgSaved "o.jpg"); (INFO, MsgSaved "p.jpg")]) /\
  (exists w,
     process_images 8 one_thread crop_cannot_start [two_tiles; second_image] world0
       = (Raised OSError, w) /\
     List.length (calls w) = 1%nat /\
     List.filter (fun r => match snd r with MsgSaved _ => true | _ => false end) (log w)
       = []).
Proof.
  split; eexists; (split; [vm_compute; reflexivity|]);
    split; vm_compute; reflexivity.
Qed.

(** C7 (amended).  The exit status of a compositor call is not looked at:
    whatever statuses the calls return, a [getImage] whose commands can be
    started runs to its end with the same commands, log and files, and
    returns.  Only a command that cannot be started raises, and nothing
    catches the exception per image: an image that raises ends the whole
    loop over the images. *)
Theorem primitive_status_ignored :
  (forall (self : Untiler) (E1 E2 : env) (outputDestination : string) (w : world),
     (forall url, net E1 url = net E2 url) ->
     starts E1 -> starts E2 ->
     getImage self E1 outputDestination w = getImage self E2 outputDestination w /\
     exists numMissing w',
       getImage self E1 outputDestination w = (Done numMissing, w')) /\
  (forall (fuel : nat) (args : Args) (E : env) (j : job) (rest : list job)
          (w w' : world) (e : exn),
     process_image fuel args E j w = (Raised e, w') ->
     process_images fuel args E (j :: rest) w = (Raised e, w')).
Proof.
  split.
  - intros self E1 E2 out w Hnet Hs1 Hs2.
    rewrite (getImage_starts self E1 out w Hs1), (getImage_starts self E2 out w Hs2).
    assert (Hh : handoff self E1 w = handoff self E2 w).
    { unfold handoff. rewrite (run_threads_net _ self E1 E2 Hnet). reflexivity. }
    rewrite Hh. split; [reflexivity | eauto].
  - intros fuel args E j rest w w' e Hj.
    unfold process_images. cbn [for_each]. unfold bind. rewrite Hj. reflexivity.
Qed.

Lemma primitive_status_ignored_witness :
  getImage two_tiles_self jpegtran_fails "o.jpg" world0
    = getImage two_tiles_self jpegtran_succeeds "o.jpg" world0 /\
  exists numMissing w',
    getImage two_tiles_self jpegtran_fails "o.jpg" world0 = (Done numMissing, w').
Proof.
  apply (proj1 primitive_status_ignored two_tiles_self jpegtran_fails jpegtran_succeeds);
    [reflexivity | intros c; discriminate | intros c; discriminate].
Defined.

Lemma filter_drop_canvas (self : Untiler) (tmpimgs : path * path)
    (tiles : list (Z * Z)) :
  List.filter is_drop (canvas self tmpimgs tiles) = [].
Proof. destruct tiles as [|[col row] tiles]; reflexivity. Qed.

Lemma filter_drop_placements (self : Untiler) (tmpimgs : path * path)
    (l : list (nat * (Z * Z))) :
  List.filter is_drop (map (placement self tmpimgs) l)
  = map (placement self tmpimgs) l.
Proof. induction l as [|it l IH]; [reflexivity|]. cbn. f_equal. exact IH. Qed.

Lemma length_indexed {A : Type} (l : list A) (s : nat) :
  List.length (combine (seq s (List.length l)) l) = List.length l.
Proof. rewrite length_combine, length_seq. lia. Qed.

Lemma nth_error_indexed {A : Type} (l : list A) (s i : nat) (x : A) :
  nth_error l i = Some x ->
  nth_error (combine (seq s (List.length l)) l) i = Some ((s + i)%nat, x).
Proof.
  revert s i. induction l as [|a l IH]; intros s i Hi; [destruct i; discriminate|].
  destruct i as [|i]; cbn in *.
  - inversion Hi. rewrite Nat.add_0_r. reflexivity.
  - rewrite (IH (S s) i Hi). do 2 f_equal. lia.
Qed.

(** C8.  For the tiles the join loop takes from the queue, in whatever
    order and with whatever timeouts in between: the canvas is allocated
    once, when the first tile arrives, and then every tile, the first one
    included, gets exactly one placement command, at the pixel offset
    [(col * tileSize, row * tileSize)], reading the active temporary image
    and writing the other one; the active image is the first temporary
    image before the first merge and alternates with every merge. *)
Theorem one_placement_per_tile (self : Untiler) (E : env)
    (tmpimgs : path * path) (arrivals : list (option (Z * Z))) (w : world) :
  starts E ->
  let tiles := arrived arrivals in
  let n := List.length tiles in
  exists (w' : world) (new : list cmd),
    join_loop self E tmpimgs arrivals (0, 0) w
      = (Done (Z.of_nat n mod 2, Z.of_nat n), w') /\
    calls w' = calls w ++ new /\
    List.length (List.filter is_drop new) = n /\
    (forall (i : nat) (col row : Z),
       nth_error tiles i = Some (col, row) ->
       nth_error (List.filter is_drop new) i
         = Some (Drop (col * tileSize (props self)) (row * tileSize (props self))
                      (localTileName self col row)
                      (select tmpimgs ((Z.of_nat i + 1) mod 2))
                      (select tmpimgs (Z.of_nat i mod 2)))) /\
    (forall i : nat,
       select tmpimgs (Z.of_nat i mod 2)
         = if Nat.even i then fst tmpimgs else snd tmpimgs) /\
    List.filter (fun c => negb (is_drop c)) new = canvas self tmpimgs tiles.
Proof.
  intros Hs tiles n.
  pose proof (join_loop_run self E tmpimgs Hs arrivals 0 w) as Hrun.
  cbv zeta in Hrun. cbn [Nat.add Nat.eqb] in Hrun. fold tiles in Hrun. fold n in Hrun.
  eexists _, (canvas self tmpimgs tiles
              ++ map (placement self tmpimgs) (combine (seq 0 n) tiles)).
  split; [exact Hrun|]. cbn [calls].
  split; [reflexivity|].
  rewrite filter_app, filter_drop_canvas, filter_drop_placements. cbn [app].
  split; [rewrite length_map; apply length_indexed|].
  split.
  { intros i col row Hi.
    rewrite nth_error_map. unfold n.
    rewrite (nth_error_indexed tiles 0 i (col, row) Hi). reflexivity. }
  split.
  { intros i. unfold select.
    destruct (Nat.even i) eqn:He.
    - apply Nat.even_spec in He. destruct He as [k ->].
      rewrite Nat2Z.inj_mul, Z.mul_comm, Z_mod_mult. reflexivity.
    - assert (Ho : Nat.odd i = true) by (unfold Nat.odd; rewrite He; reflexivity).
      apply Nat.odd_spec in Ho. destruct Ho as [k ->].
      rewrite Nat2Z.inj_add, Nat2Z.inj_mul, Z.add_comm, Z.mul_comm, Z_mod_plus_full.
      reflexivity. }
  rewrite filter_app.
  assert (Hc : List.filter (fun c => negb (is_drop c)) (canvas self tmpimgs tiles)
               = canvas self tmpimgs tiles)
    by (destruct tiles as [|[col row] tiles']; reflexivity).
  rewrite Hc.
  assert (Hp : forall l, List.filter (fun c => negb (is_drop c))
                                     (map (placement self tmpimgs) l) = []).
  { induction l as [|it l IH]; [reflexivity|]. cbn. exact IH. }
  rewrite Hp, app_nil_r. reflexivity.
Qed.

Lemma one_placement_per_tile_witness :
  exists (w' : world) (new : list cmd),
    join_loop two_tiles_self jpegtran_succeeds (TmpImg 1, TmpImg 2)
              [Some (0, 1); None; Some (0, 0)] (0, 0) world0
      = (Done (Z.of_nat 2 mod 2, Z.of_nat 2), w') /\
    calls w' = calls world0 ++ new /\
    List.length (List.filter is_drop new) = 2%nat /\
    (forall (i : nat) (col row : Z),
       nth_error [(0, 1); (0, 0)] i = Some (col, row) ->
       nth_error (List.filter is_drop new) i
         = Some (Drop (col * tileSize (props two_tiles_self))
                      (row * tileSize (props two_tiles_self))
                      (localTileName two_tiles_self col row)
                      (select (TmpImg 1, TmpImg 2) ((Z.of_nat i + 1) mod 2))
                      (select (TmpImg 1, TmpImg 2) (Z.of_nat i mod 2)))) /\
    (forall i : nat,
       select (TmpImg 1, TmpImg 2) (Z.of_nat i mod 2)
         = if Nat.even i then TmpImg 1 else TmpImg 2) /\
    List.filter (fun c => negb (is_drop c)) new
      = canvas two_tiles_self (TmpImg 1, TmpImg 2) [(0, 1); (0, 0)].
Proof.
  apply (one_placement_per_tile two_tiles_self jpegtran_succeeds (TmpImg 1, TmpImg 2)
           [Some (0, 1); None; Some (0, 0)] world0).
  intros c. discriminate.
Defined.

(** ** The outcome of a run *)

Lemma handoff_frame (self : Untiler) (E : env) (w : world) :
  let w1 := snd (handoff self E w) in
  calls w1 = calls w /\ fresh w1 = fresh w /\
  List.filter is_missing (log w1) = List.filter is_missing (log w).
Proof.
  unfold handoff. destruct (nodownload (config self)); [repeat split; reflexivity|].
  apply run_threads_frame.
Qed.

Lemma range_length (a b : Z) : List.length (Py.range a b) = Z.to_nat (b - a).
Proof. unfold Py.range. rewrite length_map, length_seq. reflexivity. Qed.

Lemma cells_length (self : Untiler) :
  0 <= xTiles (props self) -> 0 <= yTiles (props self) ->
  Z.of_nat (List.length (cells self)) = xTiles (props self) * yTiles (props self).
Proof.
  intros Hx Hy. unfold cells.
  assert (Hlen : forall l : list Z,
            List.length (flat_map (fun col => map (fun row => (col, row))
                                                  (Py.range 0 (yTiles (props self)))) l)
            = (List.length l * Z.to_nat (yTiles (props self)))%nat).
  { induction l as [|c l IH]; [reflexivity|].
    cbn [flat_map]. rewrite length_app, length_map, range_length, IH.
    rewrite Z.sub_0_r. cbn [List.length]. lia. }
  rewrite Hlen, range_length, Z.sub_0_r. lia.
Qed.

Lemma tasks_cells (self : Untiler) : map task_cell (tasks self) = cells self.
Proof.
  unfold tasks. rewrite map_map. rewrite <- (map_id (cells self)) at 2.
  apply map_ext. intros [col row]. reflexivity.
Qed.

(** When nothing is to be downloaded, or when at least one thread runs and
    every fetch succeeds, every cell reaches the join loop. *)
Lemma handoff_complete (self : Untiler) (E : env) (w : world) :
  nodownload (config self) = true
  \/ (1 <= nthreads (config self)
      /\ Forall (fun t => net E (task_url t) = FetchOk) (tasks self)) ->
  fst (handoff self E w) = cells self.
Proof.
  unfold handoff. intros [Hnd|[Hn Hall]].
  - rewrite Hnd. reflexivity.
  - destruct (nodownload (config self)); [reflexivity|]. cbn [fst].
    rewrite run_threads_all_fetched by (try lia; exact Hall).
    apply tasks_cells.
Qed.

(** C9.  A run whose commands can be started always reaches its end,
    whatever the fetches did: [numMissing] is [xTiles * yTiles] minus the
    number of tiles merged (one placement command each); the warning that
    names the zoom level is logged exactly when [numMissing > 0]; the last
    command of the run is the final optimization into the output file; and
    [numMissing] is 0 when every tile was handed to the loop, that is when
    the tiles are taken from a previous run or every fetch succeeds. *)
Theorem missing_tiles_report (self : Untiler) (E : env)
    (outputDestination : string) (w : world) :
  starts E ->
  exists (numMissing : Z) (w' : world) (merges : list cmd) (active : path),
    getImage self E outputDestination w = (Done numMissing, w') /\
    calls w' = calls w ++ merges ++ [Optimize (OutFile outputDestination) active] /\
    numMissing
      = xTiles (props self) * yTiles (props self)
        - Z.of_nat (List.length (List.filter is_drop merges)) /\
    (numMissing > 0 ->
     List.filter is_missing (log w')
       = List.filter is_missing (log w)
         ++ [(WARNING, MsgMissing numMissing (negb (numMissing =? 1))
                                  (zoomLevel (props self)))]) /\
    (numMissing <= 0 ->
     List.filter is_missing (log w') = List.filter is_missing (log w)) /\
    (0 <= xTiles (props self) -> 0 <= yTiles (props self) ->
     nodownload (config self) = true
     \/ (1 <= nthreads (config self)
         /\ Forall (fun t => net E (task_url t) = FetchOk) (tasks self)) ->
     numMissing = 0).
Proof.
  intros Hs. rewrite (getImage_starts self E outputDestination w Hs).
  destruct (handoff_frame self E w) as (Hc & Hf & Hl).
  set (tiles := fst (handoff self E w)) in *.
  set (w1 := snd (handoff self E w)) in *.
  set (tmpimgs := (TmpImg (fresh w1), TmpImg (S (fresh w1)))).
  eexists _, _,
    (canvas self tmpimgs tiles
     ++ map (placement self tmpimgs) (combine (seq 0 (List.length tiles)) tiles)),
    (select tmpimgs (Z.of_nat (List.length tiles) mod 2)).
  split; [reflexivity|].
  unfold finished. cbn [calls log]. fold tmpimgs.
  split; [rewrite Hc, <- !app_assoc; reflexivity|].
  rewrite filter_app, filter_drop_canvas, filter_drop_placements. cbn [app].
  rewrite length_map, length_indexed.
  split; [reflexivity|].
  rewrite filter_app. cbn [List.filter is_missing snd].
  rewrite !filter_app, filter_adding, Hl.
  cbn [List.filter is_missing snd app].
  assert (Herased :
    List.filter is_missing (if store (config self) then [] else [(INFO, MsgErased)]) = [])
    by (destruct (store (config self)); reflexivity).
  rewrite Herased, app_nil_r.
  set (numMissing := xTiles (props self) * yTiles (props self)
                     - Z.of_nat (List.length tiles)).
  split.
  { intros Hpos. destruct (Z.gtb_spec numMissing 0); [reflexivity | lia]. }
  split.
  { intros Hle. destruct (Z.gtb_spec numMissing 0); [lia|].
    cbn. rewrite app_nil_r. reflexivity. }
  intros Hx Hy Hall. unfold numMissing, tiles.
  rewrite (handoff_complete self E w Hall), (cells_length self Hx Hy). lia.
Qed.

Lemma missing_tiles_report_witness :
  exists (numMissing : Z) (w' : world) (merges : list cmd) (active : path),
    getImage two_tiles_self missing_first "o.jpg" world0 = (Done numMissing, w') /\
    calls w' = calls world0 ++ merges ++ [Optimize (OutFile "o.jpg") active] /\
    numMissing
      = xTiles (props two_tiles_self) * yTiles (props two_tiles_self)
        - Z.of_nat (List.length (List.filter is_drop merges)) /\
    (numMissing > 0 ->
     List.filter is_missing (log w')
       = List.filter is_missing (log world0)
         ++ [(WARNING, MsgMissing numMissing (negb (numMissing =? 1))
                                  (zoomLevel (props two_tiles_self)))]) /\
    (numMissing <= 0 ->
     List.filter is_missing (log w') = List.filter is_missing (log world0)) /\
    (0 <= xTiles (props two_tiles_self) -> 0 <= yTiles (props two_tiles_self) ->
     nodownload (config two_tiles_self) = true
     \/ (1 <= nthreads (config two_tiles_self)
         /\ Forall (fun t => net missing_first (task_url t) = FetchOk)
                   (tasks two_tiles_self)) ->
     numMissing = 0).
Proof.
  apply (missing_tiles_report two_tiles_self missing_first "o.jpg" world0).
  intros c. discriminate.
Defined.

(** The scenario of the spec: the 2679 x 4000 image at its finest level,
    every one of the 176 fetches succeeding. *)
Example all_176_tiles_present :
  exists (p : Props) (w1 : world),
    getProperties 8 (document 2679 4000 256) ZoomUnset world0 = (Done p, w1) /\
    xTiles p = 11 /\ yTiles p = 16 /\
    forall (E : env) (w : world),
      starts E -> (forall url, net E url = FetchOk) ->
      exists w',
        getImage {| config := configure one_thread; imageDir := "http://h";
                    props := p; tileDir := TempDir 0 |} E "o.jpg" w
          = (Done 0, w').
Proof.
  do 2 eexists. split; [vm_compute; reflexivity|].
  split; [reflexivity|]. split; [reflexivity|].
  intros E w Hs Hnet.
  match goal with |- context [getImage ?s _ _ _] => set (self := s) end.
  rewrite (getImage_starts self E "o.jpg" w Hs). eexists. f_equal. f_equal.
  assert (Hall : nodownload (config self) = true
                 \/ (1 <= nthreads (config self)
                     /\ Forall (fun t => net E (task_url t) = FetchOk) (tasks self))).
  { right. split; [discriminate|]. apply Forall_forall. intros t _. apply Hnet. }
  rewrite (handoff_complete self E w Hall).
  rewrite (cells_length self); [lia | discriminate | discriminate].
Qed.

(** ** Cleanup *)

Lemma scratch_removed (f : gset path) (a b : path) :
  (({[b]} ∪ ({[a]} ∪ f)) ∖ {[a]}) ∖ {[b]} = f ∖ {[ a; b ]}.
Proof. apply set_eq. intros q. rewrite !elem_of_difference, !elem_of_union, !elem_of_singleton. tauto. Qed.

Lemma others_kept (f : gset path) (a b q : path) :
  q <> a -> q <> b -> q ∈ f -> q ∈ f ∖ {[ a; b ]}.
Proof.
  intros Ha Hb Hq. rewrite elem_of_difference, elem_of_union, !elem_of_singleton. tauto.
Qed.

(** C10.  With [-x] the tiles are kept: [__init__] sets [self.store], and
    the cleanup of [getImage], which runs whatever the commands did,
    deletes the two temporary images and nothing else; the staging
    directory and every tile file in it are still there after the run. *)
Theorem nodownload_keeps_tiles (args : Args) (self : Untiler) (E : env)
    (outputDestination : string) (w : world) :
  args_nodownload args = true ->
  config self = configure args ->
  store (config self) = true /\
  exists (r : outcome Z) (w' : world),
    getImage self E outputDestination w = (r, w') /\
    r <> OutOfFuel /\
    fs w' = fs w ∖ {[ TmpImg (fresh w); TmpImg (S (fresh w)) ]} /\
    (forall q, under (tileDir self) q = true -> q ∈ fs w -> q ∈ fs w').
Proof.
  intros Hx Hcfg.
  assert (Hstore : store (config self) = true)
    by (rewrite Hcfg; unfold configure; cbn [store]; rewrite Hx; reflexivity).
  assert (Hnd : nodownload (config self) = true)
    by (rewrite Hcfg; unfold configure; cbn [nodownload]; exact Hx).
  split; [exact Hstore|].
  rewrite getImage_handoff.
  assert (Hh : handoff self E w = (cells self, w))
    by (unfold handoff; rewrite Hnd; reflexivity).
  rewrite Hh. cbn [fst snd].
  destruct (finish_files self E outputDestination (cells self) w)
    as (r & w' & Hrun & Hr & Hfs).
  exists r, w'. split; [exact Hrun|]. split; [exact Hr|].
  unfold finished in Hfs. cbn [fs] in Hfs. rewrite Hstore in Hfs.
  assert (Hkept : fs w' = fs w ∖ {[ TmpImg (fresh w); TmpImg (S (fresh w)) ]})
    by (rewrite Hfs; apply scratch_removed).
  split; [exact Hkept|].
  intros q Hq Hin. rewrite Hkept.
  destruct q as [n|d|d c r'|s]; cbn in Hq; try discriminate;
    (apply others_kept; [discriminate | discriminate | exact Hin]).
Qed.

Lemma nodownload_keeps_tiles_witness :
  store (config recompose_self) = true /\
  exists (r : outcome Z) (w' : world),
    getImage recompose_self jpegtran_succeeds "o.jpg" stored_tiles = (r, w') /\
    r <> OutOfFuel /\
    fs w' = fs stored_tiles
              ∖ {[ TmpImg (fresh stored_tiles); TmpImg (S (fresh stored_tiles)) ]} /\
    (forall q, under (tileDir recompose_self) q = true ->
               q ∈ fs stored_tiles -> q ∈ fs w').
Proof.
  apply (nodownload_keeps_tiles recompose recompose_self jpegtran_succeeds
           "o.jpg" stored_tiles); reflexivity.
Defined.

(** Without [-x] and [-s] the staging directory goes with the temporary
    images. *)
Example temporary_tiles_are_erased :
  exists w,
    process_images 8 one_thread jpegtran_succeeds [two_tiles] world0 = (Done tt, w) /\
    fs w = ∅.
Proof.
  eexists. split; [vm_compute; reflexivity|]. vm_compute. reflexivity.
Qed.

(** * Further properties of the code *)

(** ** The levels *)

Lemma loop_returns_inv (T : Z) (HT : 0 < T) (fuel : nat) :
  forall (w h : Z) (acc l : list (Z * Z)),
    0 <= w -> 0 <= h ->
    getZoomLevels_loop fuel T w h acc = Done l ->
    exists k : nat, (k < fuel)%nat /\ level_at T w h k = (1, 1).
Proof.
  induction fuel as [|fuel IH]; intros w h acc l Hw Hh Hrun; [discriminate|].
  rewrite loop_step in Hrun by assumption.
  destruct (single_tile (level_at T w h 0)) eqn:Hs.
  - exists O. split; [lia|]. apply single_tile_true. exact Hs.
  - apply IH in Hrun; try (apply Z.div_pos; lia).
    destruct Hrun as (k & Hk & Hone). exists (S k). split; [lia|].
    rewrite <- level_at_half by assumption. exact Hone.
Qed.


(** What a returned list is *)
Lemma getZoomLevels_inv (fuel : nat) (W H T : Z) (levels : list (Z * Z)) :
  0 <= W -> 0 <= H -> 0 < T ->
  getZoomLevels fuel W H T = Done levels ->
  exists j : nat,
    (j < fuel)%nat /\
    levels = levels_of T W H j /\
    level_at T W H j = (1, 1) /\
    (forall i, (i < j)%nat -> level_at T W H i <> (1, 1)).
Proof.
  intros HW HH HT Hrun.
  assert (Hk : exists k : nat, (k < fuel)%nat /\ level_at T W H k = (1, 1)).
  { unfold getZoomLevels in Hrun.
    destruct (getZoomLevels_loop fuel T W H []) as [l| |] eqn:Hloop; try discriminate.
    apply (loop_returns_inv T HT fuel W H [] l HW HH Hloop). }
  destruct Hk as (k & Hkf & Hk).
  destruct (getZoomLevels_spec W H T k HW HH HT Hk) as (j & Hjk & Hj & Hmin & Hall).
  exists j. split; [lia|]. split; [|split; assumption].
  rewrite (Hall fuel ltac:(lia)) in Hrun. congruence.
Qed.



Lemma first_fit (H T : Z) (k : nat) :
  H / 2 ^ Z.of_nat k <= T ->
  exists j : nat,
    (j <= k)%nat /\ H / 2 ^ Z.of_nat j <= T /\
    (j = O \/ T < H / 2 ^ (Z.of_nat j - 1)).
Proof.
  induction k as [|k IH]; intros Hk.
  - exists O. split; [lia|]. split; [exact Hk | left; reflexivity].
  - destruct (Z_le_gt_dec (H / 2 ^ Z.of_nat k) T) as [Hle|Hgt].
    + destruct (IH Hle) as (j & Hj & Hfit & Hprev). exists j. split; [lia|]. auto.
    + exists (S k). split; [lia|]. split; [exact Hk|]. right.
      replace (Z.of_nat (S k) - 1) with (Z.of_nat k) by lia. lia.
Qed.

Lemma halved_to_zero (H : Z) : 0 <= H -> H / 2 ^ Z.of_nat (Z.to_nat H) = 0.
Proof.
  intros HH. apply Z.div_small. split; [exact HH|].
  rewrite Z2Nat.id by exact HH. apply Z.pow_gt_lin_r; lia.
Qed.

(** The shorter side [a] and the longer side [b] meet in one tile *)
Lemma sides_meet (a b T : Z) :
  0 < a -> a <= b -> 0 < T -> 2 * b <= (T + 1) * a ->
  exists k : nat,
    1 <= a / 2 ^ Z.of_nat k <= T /\ 1 <= b / 2 ^ Z.of_nat k <= T.
Proof.
  intros Ha Hab HT Hratio.
  assert (Hfit : b / 2 ^ Z.of_nat (Z.to_nat b) <= T)
    by (rewrite halved_to_zero; lia).
  destruct (first_fit b T _ Hfit) as (j & _ & Hj & Hprev).
  exists j.
  assert (Hpow : 0 < 2 ^ Z.of_nat j) by (apply Z.pow_pos_nonneg; lia).
  assert (Hmono : a / 2 ^ Z.of_nat j <= b / 2 ^ Z.of_nat j)
    by (apply Z.div_le_mono; lia).
  assert (Hage : 2 ^ Z.of_nat j <= a).
  { destruct Hprev as [->|Hprev]; [cbn; lia|].
    destruct j as [|j]; [cbn; lia|].
    replace (Z.of_nat (S j) - 1) with (Z.of_nat j) in Hprev by lia.
    assert (Hpj : 0 < 2 ^ Z.of_nat j) by (apply Z.pow_pos_nonneg; lia).
    pose proof (Z.mul_div_le b (2 ^ Z.of_nat j) Hpj) as Hmul.
    rewrite Nat2Z.inj_succ, Z.pow_succ_r by lia. nia. }
  assert (Hone : 1 <= a / 2 ^ Z.of_nat j)
    by (apply Z.div_le_lower_bound; lia).
  lia.
Qed.

(** X3.  For a width, a height and a tile size below 2^53, the loop of
    [getZoomLevels] returns for every image whose longer side is at most
    [(tileSize + 1) / 2] times its shorter side. *)
Theorem getZoomLevels_returns_for_moderate_aspect (W H T : Z) :
  0 < W -> 0 < H -> 0 < T ->
  double_exact W H T ->
  2 * Z.max W H <= (T + 1) * Z.min W H ->
  exists (fuel : nat) (levels : list (Z * Z)),
    forall fuel', (fuel <= fuel')%nat -> getZoomLevels fuel' W H T = Done levels.
Proof.
  intros HW HH HT _ Hratio.
  assert (Hk : exists k : nat,
             1 <= W / 2 ^ Z.of_nat k <= T /\ 1 <= H / 2 ^ Z.of_nat k <= T).
  { destruct (Z_le_gt_dec W H) as [Hle|Hgt].
    - rewrite Z.max_r, Z.min_l in Hratio by lia.
      apply (sides_meet W H T); lia.
    - rewrite Z.max_l, Z.min_r in Hratio by lia.
      destruct (sides_meet H W T ltac:(lia) ltac:(lia) HT Hratio) as (k & Hh & Hw).
      exists k. split; assumption. }
  destruct Hk as (k & Hk). apply level_at_single in Hk; [|assumption].
  destruct (getZoomLevels_spec W H T k ltac:(lia) ltac:(lia) HT Hk)
    as (j & _ & _ & _ & Hall).
  exists (S j), (levels_of T W H j). intros fuel' Hf. apply Hall. lia.
Qed.

Lemma getZoomLevels_returns_for_moderate_aspect_witness :
  exists (fuel : nat) (levels : list (Z * Z)),
    forall fuel', (fuel <= fuel')%nat ->
                  getZoomLevels fuel' 2679 4000 256 = Done levels.
Proof.
  apply (getZoomLevels_returns_for_moderate_aspect 2679 4000 256); ground.
Defined.

Lemma cdiv_mono (a b T : Z) : 0 < T -> a <= b -> cdiv a T <= cdiv b T.
Proof.
  intros HT Hab. unfold cdiv.
  assert (- b / T <= - a / T) by (apply Z.div_le_mono; lia). lia.
Qed.

Lemma halving_antitone (w : Z) (i j : nat) :
  0 <= w -> (i <= j)%nat -> w / 2 ^ Z.of_nat j <= w / 2 ^ Z.of_nat i.
Proof.
  intros Hw Hij.
  replace (Z.of_nat j) with (Z.of_nat i + Z.of_nat (j - i)) by lia.
  rewrite Z.pow_add_r, <- Z.div_div by lia.
  assert (0 < 2 ^ Z.of_nat i) by (apply Z.pow_pos_nonneg; lia).
  assert (0 < 2 ^ Z.of_nat (j - i)) by (apply Z.pow_pos_nonneg; lia).
  assert (0 <= w / 2 ^ Z.of_nat i) by (apply Z.div_pos; lia).
  apply Z.div_le_upper_bound; [lia|]. nia.
Qed.

Lemma level_at_antitone (T w h : Z) (i j : nat) :
  0 < T -> 0 <= w -> 0 <= h -> (i <= j)%nat ->
  fst (level_at T w h j) <= fst (level_at T w h i) /\
  snd (level_at T w h j) <= snd (level_at T w h i).
Proof.
  intros HT Hw Hh Hij. unfold level_at. cbn [fst snd].
  split; apply cdiv_mono; try assumption; apply halving_antitone; assumption.
Qed.

(** X4.  The list [getZoomLevels] returns is never empty, starts with the
    single tile (1, 1), has at least one tile in each direction at every
    level, and from each level to the next finer one the numbers of
    columns and of rows do not decrease. *)
Theorem levels_grow (fuel : nat) (W H T : Z) (levels : list (Z * Z)) :
  0 <= W -> 0 <= H -> 0 < T ->
  getZoomLevels fuel W H T = Done levels ->
  levels <> [] /\
  nth 0 levels (0, 0) = (1, 1) /\
  (forall i, (i < List.length levels)%nat ->
     1 <= fst (nth i levels (0, 0)) /\ 1 <= snd (nth i levels (0, 0))) /\
  (forall i, (S i < List.length levels)%nat ->
     fst (nth i levels (0, 0)) <= fst (nth (S i) levels (0, 0)) /\
     snd (nth i levels (0, 0)) <= snd (nth (S i) levels (0, 0))).
Proof.
  intros HW HH HT Hrun.
  destruct (getZoomLevels_inv fuel W H T levels HW HH HT Hrun)
    as (j & _ & -> & Hj & _).
  rewrite levels_of_length.
  split.
  { intros E. apply (f_equal (@List.length _)) in E.
    rewrite levels_of_length in E. discriminate. }
  split; [rewrite levels_of_nth by lia; rewrite Nat.sub_0_r; exact Hj|].
  split.
  - intros i Hi. rewrite levels_of_nth by lia.
    destruct (level_at_antitone T W H (j - i) j HT HW HH ltac:(lia)) as [H1 H2].
    rewrite Hj in H1, H2. cbn [fst snd] in H1, H2. split; assumption.
  - intros i Hi. rewrite !levels_of_nth by lia.
    apply level_at_antitone; try assumption. lia.
Qed.

Lemma levels_grow_witness :
  [(1, 1); (2, 2); (3, 4); (6, 8); (11, 16)] <> [] /\
  nth 0 [(1, 1); (2, 2); (3, 4); (6, 8); (11, 16)] (0, 0) = (1, 1) /\
  (forall i, (i < List.length [(1, 1); (2, 2); (3, 4); (6, 8); (11, 16)])%nat ->
     1 <= fst (nth i [(1, 1); (2, 2); (3, 4); (6, 8); (11, 16)] (0, 0))
     /\ 1 <= snd (nth i [(1, 1); (2, 2); (3, 4); (6, 8); (11, 16)] (0, 0))) /\
  (forall i, (S i < List.length [(1, 1); (2, 2); (3, 4); (6, 8); (11, 16)])%nat ->
     fst (nth i [(1, 1); (2, 2); (3, 4); (6, 8); (11, 16)] (0, 0))
       <= fst (nth (S i) [(1, 1); (2, 2); (3, 4); (6, 8); (11, 16)] (0, 0)) /\
     snd (nth i [(1, 1); (2, 2); (3, 4); (6, 8); (11, 16)] (0, 0))
       <= snd (nth (S i) [(1, 1); (2, 2); (3, 4); (6, 8); (11, 16)] (0, 0))).
Proof.
  apply (levels_grow 8 2679 4000 256); ground.
Defined.

(** ** The attributes of a run *)

Lemma getProperties_levels (fuel : nat) (W H T : Z) (request : zoom_arg)
    (w w' : world) (p : Props) :
  getProperties fuel (document W H T) request w = (Done p, w') ->
  exists levels, getZoomLevels fuel W H T = Done levels.
Proof.
  unfold getProperties, document. cbn [WIDTH HEIGHT TILESIZE required].
  unfold bind at 1. cbn [ret]. unfold bind at 1. cbn [ret].
  unfold bind at 1. cbn [ret]. unfold bind at 1. unfold lift.
  destruct (getZoomLevels fuel W H T) as [levels|e|]; [eauto | discriminate | discriminate].
Qed.

(** The attributes a returning call assigns *)
Lemma getProperties_inv (fuel : nat) (W H T : Z) (request : zoom_arg)
    (w w' : world) (p : Props) :
  0 <= W -> 0 <= H -> 0 < T ->
  request <> ZoomNotAnInt ->
  getProperties fuel (document W H T) request w = (Done p, w') ->
  exists j : nat,
    (j < fuel)%nat /\
    level_at T W H j = (1, 1) /\
    (forall i, (i < j)%nat -> level_at T W H i <> (1, 1)) /\
    p = props_of W H T j (effectiveZoom request (Z.of_nat (S j))) /\
    0 <= effectiveZoom request (Z.of_nat (S j)) < Z.of_nat (S j).
Proof.
  intros HW HH HT Hreq Hrun.
  destruct (getProperties_levels fuel W H T request w w' p Hrun) as (levels & Hlev).
  destruct (getZoomLevels_inv fuel W H T levels HW HH HT Hlev)
    as (j & Hjf & _ & Hj & Hmin).
  destruct (getProperties_run W H T j request w HW HH HT Hj Hreq)
    as (j' & Hj'j & Hj' & Hmin' & Hall).
  assert (j' = j).
  { destruct (Nat.lt_trichotomy j' j) as [Hlt|[Heq|Hgt]]; [|exact Heq|lia].
    destruct (Hmin j' Hlt Hj'). }
  subst j'. specialize (Hall fuel Hjf). cbv zeta in Hall.
  rewrite Hall in Hrun. inversion Hrun. subst.
  exists j. repeat split; try assumption; try reflexivity;
    apply effectiveZoom_range; lia.
Qed.

Lemma cdiv_bounds (a T : Z) :
  0 < T -> (cdiv a T - 1) * T < a <= cdiv a T * T.
Proof.
  intros HT. unfold cdiv.
  pose proof (Z.mul_div_le (- a) T HT).
  pose proof (Z.mul_succ_div_gt (- a) T HT). nia.
Qed.

(** X5.  For a width, a height and a tile size below 2^53, every tile of
    the selected level starts inside the canvas: for a cell [(col, row)]
    of the grid, the offset [col * tileSize] is below the canvas width and
    [row * tileSize] below the canvas height that [getImage] passes to the
    compositor, and the grid covers the canvas. *)
Theorem offsets_inside_canvas (fuel : nat) (W H T : Z) (request : zoom_arg)
    (w w' : world) (p : Props) (col row : Z) :
  0 <= W -> 0 <= H -> 0 < T ->
  double_exact W H T ->
  request <> ZoomNotAnInt ->
  getProperties fuel (document W H T) request w = (Done p, w') ->
  in_grid p col row ->
  0 <= col * tileSize p < Py.fmt_d (width p) /\
  0 <= row * tileSize p < Py.fmt_d (height p) /\
  Py.fmt_d (width p) <= xTiles p * tileSize p /\
  Py.fmt_d (height p) <= yTiles p * tileSize p.
Proof.
  intros HW HH HT _ Hreq Hrun [Hcol Hrow].
  destruct (getProperties_inv fuel W H T request w w' p HW HH HT Hreq Hrun)
    as (j & _ & _ & _ & -> & Hz).
  set (z := effectiveZoom request (Z.of_nat (S j))) in *.
  cbn [props_of xTiles yTiles tileSize width height] in *.
  rewrite !fmt_d_scaled by lia.
  unfold level_at in *. cbn [fst snd] in *.
  replace (Z.of_nat (j - Z.to_nat z)) with (Z.of_nat (S j) - z - 1) in * by lia.
  pose proof (cdiv_bounds (W / 2 ^ (Z.of_nat (S j) - z - 1)) T HT).
  pose proof (cdiv_bounds (H / 2 ^ (Z.of_nat (S j) - z - 1)) T HT).
  nia.
Qed.

Lemma offsets_inside_canvas_witness :
  0 <= 5 * tileSize (props_of 2679 4000 256 4 3)
    < Py.fmt_d (width (props_of 2679 4000 256 4 3)) /\
  0 <= 7 * tileSize (props_of 2679 4000 256 4 3)
    < Py.fmt_d (height (props_of 2679 4000 256 4 3)) /\
  Py.fmt_d (width (props_of 2679 4000 256 4 3))
    <= xTiles (props_of 2679 4000 256 4 3) * tileSize (props_of 2679 4000 256 4 3) /\
  Py.fmt_d (height (props_of 2679 4000 256 4 3))
    <= yTiles (props_of 2679 4000 256 4 3) * tileSize (props_of 2679 4000 256 4 3).
Proof.
  apply (offsets_inside_canvas 8 2679 4000 256 (ZoomInt 3) world0
           (snd (getProperties 8 (document 2679 4000 256) (ZoomInt 3) world0))
           (props_of 2679 4000 256 4 3) 5 7); ground.
Defined.

(** ** The tile index in a run at the finest level *)

Lemma tilesBelow_succ (l : list (Z * Z)) (level : Z) :
  0 <= level < Z.of_nat (List.length l) ->
  tilesBelow l (level + 1)
  = tilesBelow l level
    + fst (nth (Z.to_nat level) l (0, 0)) * snd (nth (Z.to_nat level) l (0, 0)).
Proof.
  intros Hl. unfold tilesBelow.
  replace (Z.to_nat (level + 1)) with (S (Z.to_nat level)) by lia.
  rewrite (firstn_snoc l (Z.to_nat level) (0, 0)) by lia.
  rewrite fold_right_app. cbn [fold_right].
  generalize (fst (nth (Z.to_nat level) l (0, 0)) * snd (nth (Z.to_nat level) l (0, 0))).
  intros t. generalize (firstn (Z.to_nat level) l). intros l'.
  induction l' as [|q l' IH]; cbn; [lia|]. rewrite IH. lia.
Qed.

Lemma tilesBelow_mono (l : list (Z * Z)) :
  (forall i, (i < List.length l)%nat ->
     0 <= fst (nth i l (0, 0)) /\ 0 <= snd (nth i l (0, 0))) ->
  forall (d : nat) (level : Z),
    0 <= level -> level + Z.of_nat d <= Z.of_nat (List.length l) ->
    tilesBelow l level <= tilesBelow l (level + Z.of_nat d).
Proof.
  intros Hpos. induction d as [|d IH]; intros level H0 Hd.
  - rewrite Z.add_0_r. lia.
  - replace (level + Z.of_nat (S d)) with (level + Z.of_nat d + 1) by lia.
    rewrite tilesBelow_succ by lia.
    specialize (IH level H0 ltac:(lia)).
    destruct (Hpos (Z.to_nat (level + Z.of_nat d)) ltac:(lia)) as [Hx Hy]. nia.
Qed.

Lemma globalIndex_range (l : list (Z * Z)) (level col row : Z) :
  in_pyramid l level col row ->
  tilesBelow l level <= globalIndex l level col row < tilesBelow l (level + 1).
Proof.
  intros (Hl & Hc & Hr). rewrite tilesBelow_succ by exact Hl.
  unfold globalIndex. nia.
Qed.

Lemma globalIndex_injective (l : list (Z * Z)) (level1 col1 row1 level2 col2 row2 : Z) :
  (forall i, (i < List.length l)%nat ->
     0 <= fst (nth i l (0, 0)) /\ 0 <= snd (nth i l (0, 0))) ->
  in_pyramid l level1 col1 row1 ->
  in_pyramid l level2 col2 row2 ->
  globalIndex l level1 col1 row1 = globalIndex l level2 col2 row2 ->
  level1 = level2 /\ col1 = col2 /\ row1 = row2.
Proof.
  intros Hpos H1 H2 Heq.
  pose proof (globalIndex_range l _ _ _ H1) as R1.
  pose proof (globalIndex_range l _ _ _ H2) as R2.
  destruct H1 as (Hl1 & Hc1 & Hr1), H2 as (Hl2 & Hc2 & Hr2).
  assert (Hlev : level1 = level2).
  { destruct (Z.lt_trichotomy level1 level2) as [Hlt|[Heq'|Hgt]]; [|exact Heq'|].
    - pose proof (tilesBelow_mono l Hpos (Z.to_nat (level2 - (level1 + 1)))
                    (level1 + 1) ltac:(lia) ltac:(lia)) as Hm.
      replace (level1 + 1 + Z.of_nat (Z.to_nat (level2 - (level1 + 1))))
        with level2 in Hm by lia. lia.
    - pose proof (tilesBelow_mono l Hpos (Z.to_nat (level1 - (level2 + 1)))
                    (level2 + 1) ltac:(lia) ltac:(lia)) as Hm.
      replace (level2 + 1 + Z.of_nat (Z.to_nat (level1 - (level2 + 1))))
        with level1 in Hm by lia. lia. }
  subst level2. split; [reflexivity|].
  unfold globalIndex in Heq.
  set (x := fst (nth (Z.to_nat level1) l (0, 0))) in *.
  assert (Hrow : row1 = row2) by nia.
  subst row2. split; [lia | reflexivity].
Qed.

(** X6.  For a width, a height and a tile size below 2^53, in a run at
    the finest level, the index [getTileIndex] gives to a tile of the
    pyramid lies after the indices of all the coarser levels and before
    those of the next level, and two different tiles, of the same level or
    not, never share an index. *)
Theorem finest_run_index_injective (fuel : nat) (W H T : Z) (w w' : world)
    (p : Props) :
  0 <= W -> 0 <= H -> 0 < T ->
  double_exact W H T ->
  getProperties fuel (document W H T) ZoomUnset w = (Done p, w') ->
  (forall level col row,
     in_pyramid (levels p) level col row ->
     tilesBelow (levels p) level
       <= getTileIndex p level col row
       < tilesBelow (levels p) (level + 1)) /\
  (forall level1 col1 row1 level2 col2 row2,
     in_pyramid (levels p) level1 col1 row1 ->
     in_pyramid (levels p) level2 col2 row2 ->
     getTileIndex p level1 col1 row1 = getTileIndex p level2 col2 row2 ->
     level1 = level2 /\ col1 = col2 /\ row1 = row2).
Proof.
  intros HW HH HT _ Hrun.
  destruct (getProperties_inv fuel W H T ZoomUnset w w' p HW HH HT
              ltac:(discriminate) Hrun) as (j & Hjf & Hj & Hmin & -> & _).
  cbn [effectiveZoom props_of levels].
  assert (Hidx : forall level col row,
            in_pyramid (levels_of T W H j) level col row ->
            getTileIndex (props_of W H T j (Z.of_nat (S j) - 1)) level col row
            = globalIndex (levels_of T W H j) level col row).
  { intros level col row (Hl & _). rewrite levels_of_length in Hl.
    apply getTileIndex_finest. exact Hl. }
  assert (Hpos : forall i, (i < List.length (levels_of T W H j))%nat ->
            0 <= fst (nth i (levels_of T W H j) (0, 0))
            /\ 0 <= snd (nth i (levels_of T W H j) (0, 0))).
  { intros i Hi. rewrite levels_of_length in Hi. rewrite levels_of_nth by lia.
    destruct (level_at_antitone T W H (j - i) j HT HW HH ltac:(lia)) as [H1 H2].
    rewrite Hj in H1, H2. cbn [fst snd] in H1, H2. lia. }
  split.
  - intros level col row Hin. rewrite (Hidx _ _ _ Hin).
    apply globalIndex_range. exact Hin.
  - intros l1 c1 r1 l2 c2 r2 H1 H2 Heq.
    rewrite (Hidx _ _ _ H1), (Hidx _ _ _ H2) in Heq.
    apply (globalIndex_injective (levels_of T W H j)); assumption.
Qed.

Lemma finest_run_index_injective_witness :
  (forall level col row,
     in_pyramid (levels (props_of 2679 4000 256 4 4)) level col row ->
     tilesBelow (levels (props_of 2679 4000 256 4 4)) level
       <= getTileIndex (props_of 2679 4000 256 4 4) level col row
       < tilesBelow (levels (props_of 2679 4000 256 4 4)) (level + 1)) /\
  (forall level1 col1 row1 level2 col2 row2,
     in_pyramid (levels (props_of 2679 4000 256 4 4)) level1 col1 row1 ->
     in_pyramid (levels (props_of 2679 4000 256 4 4)) level2 col2 row2 ->
     getTileIndex (props_of 2679 4000 256 4 4) level1 col1 row1
       = getTileIndex (props_of 2679 4000 256 4 4) level2 col2 row2 ->
     level1 = level2 /\ col1 = col2 /\ row1 = row2).
Proof.
  apply (finest_run_index_injective 8 2679 4000 256 world0
           (snd (getProperties 8 (document 2679 4000 256) ZoomUnset world0))
           (props_of 2679 4000 256 4 4)); ground.
Defined.

(** ** The task set *)

Lemma range_NoDup (a b : Z) : NoDup (Py.range a b).
Proof.
  unfold Py.range. generalize (Z.to_nat (b - a)). intros n.
  generalize O. induction n as [|n IH]; intros s; cbn [seq map]; constructor.
  - rewrite in_map_iff. intros (i & Hi & Hin). apply in_seq in Hin. lia.
  - apply IH.
Qed.

Lemma in_cells (self : Untiler) (col row : Z) :
  In (col, row) (cells self) <-> in_grid (props self) col row.
Proof.
  unfold cells, in_grid. rewrite in_flat_map. split.
  - intros (c & Hc & Hin). apply in_map_iff in Hin.
    destruct Hin as (r & Heq & Hr). inversion Heq; subst.
    apply in_range in Hc. apply in_range in Hr. lia.
  - intros [Hc Hr]. exists col. split; [apply in_range; lia|].
    apply in_map_iff. exists row. split; [reflexivity | apply in_range; lia].
Qed.

Lemma column_NoDup (c : Z) (rows : list Z) :
  NoDup rows -> NoDup (map (fun row => (c, row)) rows).
Proof.
  induction 1 as [|r l Hr Hl IH]; cbn [map]; constructor; [|exact IH].
  rewrite in_map_iff. intros (r' & Heq & Hin). inversion Heq; subst. contradiction.
Qed.

Lemma cells_NoDup (self : Untiler) : NoDup (cells self).
Proof.
  unfold cells.
  pose proof (range_NoDup 0 (xTiles (props self))) as Hcols.
  induction Hcols as [|c l Hc Hl IH]; cbn [flat_map]; [constructor|].
  apply List.NoDup_app.
  - apply column_NoDup, range_NoDup.
  - exact IH.
  - intros [c' r'] Hin Hin'. apply in_map_iff in Hin.
    destruct Hin as (r & Heq & _). inversion Heq; subst.
    apply in_flat_map in Hin'. destruct Hin' as (c'' & Hc'' & Hin').
    apply in_map_iff in Hin'. destruct Hin' as (r'' & Heq' & _).
    inversion Heq'; subst. contradiction.
Qed.

(** X1.  [getImage] enqueues every cell of the grid of the selected level
    exactly once, and nothing else; when tiles are downloaded, the task of
    a cell carries the URL [getImageTileURL] gives for it. *)
Theorem every_cell_enqueued_once (self : Untiler) :
  NoDup (cells self) /\
  (forall col row, In (col, row) (cells self) <-> in_grid (props self) col row) /\
  map task_cell (tasks self) = cells self /\
  (forall t, In t (tasks self) ->
     task_url t = getImageTileURL (imageDir self) (ext (config self)) (props self)
                                  (fst (task_cell t)) (snd (task_cell t))).
Proof.
  split; [apply cells_NoDup|]. split; [apply in_cells|].
  split; [apply tasks_cells|].
  intros t Hin. unfold tasks in Hin. apply in_map_iff in Hin.
  destruct Hin as ([col row] & <- & _). reflexivity.
Qed.

(** ** The pool of downloader threads *)

Lemma count_occ_fatal_app (E : env) (l1 l2 : list (string * Z * Z)) :
  List.length (List.filter (fatal E) (l1 ++ l2))
  = (List.length (List.filter (fatal E) l1)
     + List.length (List.filter (fatal E) l2))%nat.
Proof. rewrite filter_app, length_app. reflexivity. Qed.

(** One thread works through a prefix of the queue: the tasks of the
    prefix are attempted once each, in order, the fetched ones are handed
    to the join queue, and the thread stops either on the empty queue or
    on the first fatal fetch, which is the last task of the prefix. *)
Lemma downloader_prefix (self : Untiler) (E : env) (dq : list (string * Z * Z)) :
  forall (jq : list (Z * Z)) (w : world),
  exists (done : list (string * Z * Z)),
    let r := downloader self E dq jq w in
    dq = done ++ fst (fst (snd r)) /\
    snd (fst (snd r)) = jq ++ map task_cell (List.filter (fetched E) done) /\
    attempts (log (snd (snd r)))
      = attempts (log w) ++ map task_row_col done /\
    (forall q, q ∈ fs (snd (snd r)) <->
               q ∈ fs w \/ exists t, In t done
                                     /\ q = localTileName self (fst (task_cell t))
                                                          (snd (task_cell t))) /\
    ((fst r = Returned /\ fst (fst (snd r)) = []
      /\ List.length (List.filter (fatal E) done) = 0%nat)
     \/ (fst r <> Returned
         /\ List.length (List.filter (fatal E) done) = 1%nat)).
Proof.
  induction dq as [|[[url col] row] dq IH]; intros jq w.
  - exists []. cbn. rewrite !app_nil_r.
    repeat split; auto.
    + intros [Hq|(t & [] & _)]; exact Hq.
  - cbn [downloader].
    set (w1 := set_fs ({[localTileName self col row]}
                        ∪ fs (add_log (INFO, MsgDownloading row col) w))
                      (add_log (INFO, MsgDownloading row col) w)).
    assert (Hatt1 : attempts (log w1) = attempts (log w) ++ [(row, col)]).
    { unfold w1. cbn [log set_fs add_log]. rewrite attempts_app. reflexivity. }
    assert (Hfs1 : forall q, q ∈ fs w1 <-> q ∈ fs w \/ q = localTileName self col row).
    { intros q. unfold w1. cbn [fs set_fs add_log].
      rewrite elem_of_union, elem_of_singleton. tauto. }
    destruct (net E url) eqn:Hnet;
      assert (Hfetched : fetched E (url, col, row)
                         = match net E url with FetchOk => true | _ => false end)
        by reflexivity;
      assert (Hfatal : fatal E (url, col, row)
                       = match net E url with
                         | FetchOk | FetchHTTPError => false
                         | _ => true
                         end)
        by (unfold fatal, fetched, not_found; cbn [task_url fst snd];
            destruct (net E url); reflexivity);
      rewrite Hnet in Hfetched, Hfatal.
    + destruct (IH (jq ++ [(col, row)]) w1) as (done & Hdq & Hjq & Hatt & Hfs & Hend).
      cbv zeta in Hdq, Hjq, Hatt, Hfs, Hend.
      exists ((url, col, row) :: done). cbv zeta.
      split; [cbn [app]; f_equal; exact Hdq|].
      cbn [List.filter]. rewrite Hfetched, Hfatal. cbn [map task_cell fst snd].
      split; [rewrite Hjq, <- app_assoc; reflexivity|].
      split; [rewrite Hatt, Hatt1, <- app_assoc; reflexivity|].
      split; [|exact Hend].
      intros q. rewrite Hfs, Hfs1. split.
      * intros [[Hq|Hq]|(t & Ht & Hq)]; [left; exact Hq | right | right].
        -- exists (url, col, row). split; [left; reflexivity | exact Hq].
        -- exists t. split; [right; exact Ht | exact Hq].
      * intros [Hq|(t & [Ht|Ht] & Hq)]; [left; left; exact Hq | | ].
        -- subst t. left. right. exact Hq.
        -- right. exists t. split; assumption.
    + destruct (IH jq (add_log (WARNING, MsgNotOnServer url row col) w1))
        as (done & Hdq & Hjq & Hatt & Hfs & Hend).
      cbv zeta in Hdq, Hjq, Hatt, Hfs, Hend.
      exists ((url, col, row) :: done). cbv zeta.
      split; [cbn [app]; f_equal; exact Hdq|].
      cbn [List.filter]. rewrite Hfetched, Hfatal. cbn [map task_cell fst snd].
      split; [exact Hjq|].
      split.
      { rewrite Hatt. cbn [log add_log]. rewrite attempts_app, Hatt1.
        cbn [attempts flat_map snd app]. rewrite app_nil_r, <- app_assoc. reflexivity. }
      split; [|exact Hend].
      intros q. rewrite Hfs. cbn [fs add_log]. rewrite Hfs1. split.
      * intros [[Hq|Hq]|(t & Ht & Hq)]; [left; exact Hq | right | right].
        -- exists (url, col, row). split; [left; reflexivity | exact Hq].
        -- exists t. split; [right; exact Ht | exact Hq].
      * intros [Hq|(t & [Ht|Ht] & Hq)]; [left; left; exact Hq | | ].
        -- subst t. left. right. exact Hq.
        -- right. exists t. split; assumption.
    + exists [(url, col, row)]. cbv zeta. cbn [fst snd app].
      cbn [List.filter]. rewrite Hfetched, Hfatal. cbn [map task_cell fst snd List.length].
      split; [reflexivity|]. split; [rewrite app_nil_r; reflexivity|].
      split; [exact Hatt1|].
      split; [|right; split; [discriminate | reflexivity]].
      intros q. rewrite Hfs1. split.
      * intros [Hq|Hq]; [left; exact Hq|]. right.
        exists (url, col, row). split; [left; reflexivity | exact Hq].
      * intros [Hq|(t & [Ht|[]] & Hq)]; [left; exact Hq|]. subst t. right. exact Hq.
    + exists [(url, col, row)]. cbv zeta. cbn [fst snd app].
      cbn [List.filter]. rewrite Hfetched, Hfatal. cbn [map task_cell fst snd List.length].
      split; [reflexivity|]. split; [rewrite app_nil_r; reflexivity|].
      split; [exact Hatt1|].
      split; [|right; split; [discriminate | reflexivity]].
      intros q. rewrite Hfs1. split.
      * intros [Hq|Hq]; [left; exact Hq|]. right.
        exists (url, col, row). split; [left; reflexivity | exact Hq].
      * intros [Hq|(t & [Ht|[]] & Hq)]; [left; exact Hq|]. subst t. right. exact Hq.
Qed.

Lemma run_threads_prefix (n : nat) (self : Untiler) (E : env) :
  forall (dq : list (string * Z * Z)) (jq : list (Z * Z)) (w : world),
  exists (done : list (string * Z * Z)),
    let r := run_threads n self E dq jq w in
    dq = done ++ fst (fst (snd r)) /\
    snd (fst (snd r)) = jq ++ map task_cell (List.filter (fetched E) done) /\
    attempts (log (snd (snd r)))
      = attempts (log w) ++ map task_row_col done /\
    (forall q, q ∈ fs (snd (snd r)) <->
               q ∈ fs w \/ exists t, In t done
                                     /\ q = localTileName self (fst (task_cell t))
                                                          (snd (task_cell t))) /\
    (fst (fst (snd r)) = []
     \/ List.length (List.filter (fatal E) done) = n).
Proof.
  induction n as [|n IH]; intros dq jq w.
  - exists []. cbn. rewrite !app_nil_r. repeat split; auto.
    intros [Hq|(t & [] & _)]; exact Hq.
  - cbn [run_threads].
    destruct (downloader_prefix self E dq jq w)
      as (done1 & Hdq1 & Hjq1 & Hatt1 & Hfs1 & Hend1).
    cbv zeta in Hdq1, Hjq1, Hatt1, Hfs1, Hend1.
    destruct (downloader self E dq jq w) as [e [[dq1 jq1] w1]].
    cbn [fst snd] in Hdq1, Hjq1, Hatt1, Hfs1, Hend1.
    destruct (IH dq1 jq1 w1) as (done2 & Hdq2 & Hjq2 & Hatt2 & Hfs2 & Hend2).
    cbv zeta in Hdq2, Hjq2, Hatt2, Hfs2, Hend2.
    destruct (run_threads n self E dq1 jq1 w1) as [es [[dq2 jq2] w2]].
    cbn [fst snd] in *.
    exists (done1 ++ done2).
    split; [rewrite <- app_assoc, <- Hdq2; exact Hdq1|].
    split; [rewrite Hjq2, Hjq1, filter_app, map_app, <- app_assoc; reflexivity|].
    split; [rewrite Hatt2, Hatt1, map_app, <- app_assoc; reflexivity|].
    split.
    + intros q. rewrite Hfs2, Hfs1. split.
      * intros [[Hq|(t & Ht & Hq)]|(t & Ht & Hq)]; [left; exact Hq | right | right];
          exists t; (split; [apply in_or_app; auto | exact Hq]).
      * intros [Hq|(t & Ht & Hq)]; [left; left; exact Hq|].
        apply in_app_or in Ht. destruct Ht as [Ht|Ht];
          [left; right | right]; exists t; split; assumption.
    + rewrite count_occ_fatal_app.
      destruct Hend1 as [(_ & Hnil & H0)|(_ & H1)].
      * subst dq1. left. destruct done2; [|discriminate].
        destruct dq2; [reflexivity | discriminate].
      * destruct Hend2 as [Hnil|Hn]; [left; exact Hnil | right; lia].
Qed.

(** X7.  The threads work through the queue in order, each task attempted
    at most once; tasks are left over only when every one of the [n]
    threads has ended on a fatal fetch.  So with fewer than [n] fatal
    fetches in the queue every task is attempted exactly once, and the join
    queue receives exactly the cells whose fetch succeeded. *)
Theorem pool_survives_fewer_fatal_fetches_than_threads
    (n : nat) (self : Untiler) (E : env)
    (dq : list (string * Z * Z)) (jq : list (Z * Z)) (w : world) :
  exists (ends : list thread_end) (done rest : list (string * Z * Z))
         (jq' : list (Z * Z)) (w' : world),
    run_threads n self E dq jq w = (ends, (rest, jq', w')) /\
    dq = done ++ rest /\
    attempts (log w') = attempts (log w) ++ map task_row_col done /\
    jq' = jq ++ map task_cell (List.filter (fetched E) done) /\
    (rest = [] \/ List.length (List.filter (fatal E) done) = n) /\
    ((List.length (List.filter (fatal E) dq) < n)%nat -> rest = [] /\ done = dq).
Proof.
  destruct (run_threads_prefix n self E dq jq w)
    as (done & Hdq & Hjq & Hatt & _ & Hend).
  cbv zeta in Hdq, Hjq, Hatt, Hend.
  destruct (run_threads n self E dq jq w) as [ends [[rest jq'] w']].
  cbn [fst snd] in *.
  exists ends, done, rest, jq', w'.
  split; [reflexivity|]. split; [exact Hdq|]. split; [exact Hatt|].
  split; [exact Hjq|]. split; [exact Hend|].
  intros Hfew.
  assert (Hrest : rest = []).
  { destruct Hend as [Hnil|Hn]; [exact Hnil|].
    rewrite Hdq, count_occ_fatal_app in Hfew. lia. }
  split; [exact Hrest|]. rewrite Hdq, Hrest, app_nil_r. reflexivity.
Qed.

Lemma pool_survives_fewer_fatal_fetches_than_threads_witness :
  exists (ends : list thread_end) (jq' : list (Z * Z)) (w' : world),
    run_threads 1 two_tiles_self missing_first (tasks two_tiles_self) [] world0
      = (ends, ([], jq', w')) /\
    attempts (log w') = map task_row_col (tasks two_tiles_self) /\
    jq' = map task_cell (List.filter (fetched missing_first) (tasks two_tiles_self)).
Proof.
  destruct (pool_survives_fewer_fatal_fetches_than_threads
              1 two_tiles_self missing_first (tasks two_tiles_self) [] world0)
    as (ends & done & rest & jq' & w' & Hrun & _ & Hatt & Hjq & _ & Hall).
  assert (Hfew : (List.length (List.filter (fatal missing_first)
                                           (tasks two_tiles_self)) < 1)%nat)
    by (vm_compute; lia).
  destruct (Hall Hfew) as [Hrest Hdone]. subst rest done.
  exists ends, jq', w'. split; [exact Hrun|]. split; [exact Hatt | exact Hjq].
Defined.

Lemma handoff_sound (self : Untiler) (E : env) (w : world) :
  NoDup (fst (handoff self E w)) /\
  (forall col row,
     In (col, row) (fst (handoff self E w)) ->
     in_grid (props self) col row /\
     (nodownload (config self) = false ->
      exists t, In t (tasks self) /\ net E (task_url t) = FetchOk
                /\ task_cell t = (col, row))).
Proof.
  unfold handoff. destruct (nodownload (config self)); cbn [fst].
  - split; [apply cells_NoDup|]. intros col row Hin.
    split; [apply in_cells; exact Hin | discriminate].
  - destruct (run_threads_prefix (Z.to_nat (nthreads (config self))) self E
                (tasks self) [] w) as (done & Hdq & Hjq & _).
    cbv zeta in Hdq, Hjq. rewrite Hjq. cbn [app].
    assert (Hcells : cells self
                     = map task_cell done
                       ++ map task_cell
                            (fst (fst (snd (run_threads
                                              (Z.to_nat (nthreads (config self)))
                                              self E (tasks self) [] w))))).
    { rewrite <- map_app, <- Hdq. symmetry. apply tasks_cells. }
    pose proof (cells_NoDup self) as Hnd. rewrite Hcells in Hnd.
    apply NoDup_app_remove_r in Hnd.
    split.
    + clear - Hnd. induction done as [|t done IH]; [constructor|].
      cbn [map] in Hnd. inversion Hnd as [|x l Hx Hl]; subst.
      cbn [List.filter]. destruct (fetched E t); [|apply IH; exact Hl].
      cbn [map]. constructor; [|apply IH; exact Hl].
      intros Hin. apply Hx. apply in_map_iff in Hin.
      destruct Hin as (t' & Heq & Hin). apply filter_In in Hin.
      apply in_map_iff. exists t'. tauto.
    + intros col row Hin. apply in_map_iff in Hin.
      destruct Hin as (t & Hcell & Hin). apply filter_In in Hin.
      destruct Hin as [Hdone Hfetched].
      assert (Htask : In t (tasks self))
        by (rewrite Hdq; apply in_or_app; left; exact Hdone).
      split.
      * apply in_cells. rewrite <- tasks_cells, <- Hcell.
        apply in_map. exact Htask.
      * intros _. exists t. split; [exact Htask|]. split; [|exact Hcell].
        unfold fetched in Hfetched. destruct (net E (task_url t)); congruence.
Qed.

Lemma in_placements (self : Untiler) (tmpimgs : path * path)
    (tiles : list (Z * Z)) (s : nat) (tile : path) :
  In (Some tile)
     (map placed (map (placement self tmpimgs)
                      (combine (seq s (List.length tiles)) tiles))) ->
  exists col row, In (col, row) tiles /\ tile = localTileName self col row.
Proof.
  rewrite map_map, in_map_iff. intros ([i [col row]] & Heq & Hin).
  apply in_combine_r in Hin. cbn in Heq. inversion Heq.
  exists col, row. split; [exact Hin | reflexivity].
Qed.

Lemma placements_NoDup (self : Untiler) (tmpimgs : path * path)
    (tiles : list (Z * Z)) :
  NoDup tiles ->
  forall s, NoDup (map placed (map (placement self tmpimgs)
                                   (combine (seq s (List.length tiles)) tiles))).
Proof.
  induction 1 as [|[col row] tiles Hx Hl IH]; intros s; [constructor|].
  cbn [List.length seq combine map]. constructor; [|apply IH].
  intros Hin. change (placed (placement self tmpimgs (s, (col, row))))
    with (Some (localTileName self col row)) in Hin.
  apply in_placements in Hin. destruct Hin as (c & r & Hin & Heq).
  inversion Heq; subst. contradiction.
Qed.

(** X8.  [getImage] never places a tile twice, places only tiles of the
    grid, and, when tiles are downloaded, only tiles whose fetch
    succeeded. *)
Theorem only_fetched_tiles_are_placed (self : Untiler) (E : env)
    (outputDestination : string) (w : world) :
  starts E ->
  exists (numMissing : Z) (w' : world) (new : list cmd),
    getImage self E outputDestination w = (Done numMissing, w') /\
    calls w' = calls w ++ new /\
    NoDup (List.filter (fun o => match o with Some _ => true | None => false end)
                       (map placed new)) /\
    (forall tile, In (Some tile) (map placed new) ->
       exists col row,
         tile = localTileName self col row /\
         in_grid (props self) col row /\
         (nodownload (config self) = false ->
          net E (getImageTileURL (imageDir self) (ext (config self)) (props self)
                                 col row) = FetchOk)).
Proof.
  intros Hs. rewrite (getImage_starts self E outputDestination w Hs).
  destruct (handoff_frame self E w) as (Hc & _ & _).
  destruct (handoff_sound self E w) as (Hnd & Hin).
  set (tiles := fst (handoff self E w)) in *.
  set (w1 := snd (handoff self E w)) in *.
  set (tmpimgs := (TmpImg (fresh w1), TmpImg (S (fresh w1)))).
  eexists _, _,
    (canvas self tmpimgs tiles
     ++ map (placement self tmpimgs) (combine (seq 0 (List.length tiles)) tiles)
     ++ [Optimize (OutFile outputDestination)
                  (select tmpimgs (Z.of_nat (List.length tiles) mod 2))]).
  split; [reflexivity|].
  unfold finished. cbn [calls]. fold tmpimgs.
  split; [rewrite Hc; reflexivity|].
  assert (Hcanvas : map placed (canvas self tmpimgs tiles)
                    = match tiles with [] => [] | _ => [None] end)
    by (destruct tiles as [|[c r] l]; reflexivity).
  rewrite !map_app, Hcanvas. cbn [map placed].
  split.
  - rewrite !filter_app.
    assert (Hnone : List.filter (fun o : option path =>
                                   match o with Some _ => true | None => false end)
                                (match tiles with [] => [] | _ => [None] end) = [])
      by (destruct tiles; reflexivity).
    rewrite Hnone. cbn [app List.filter]. rewrite app_nil_r.
    assert (Hall : forall l : list (nat * (Z * Z)),
              List.filter (fun o : option path =>
                             match o with Some _ => true | None => false end)
                          (map placed (map (placement self tmpimgs) l))
              = map placed (map (placement self tmpimgs) l)).
    { induction l as [|it l IH]; [reflexivity|]. cbn. f_equal. exact IH. }
    rewrite Hall. apply placements_NoDup. exact Hnd.
  - intros tile Hin'. apply in_app_or in Hin'. destruct Hin' as [Hin'|Hin'].
    { destruct tiles; [destruct Hin' | destruct Hin' as [Hin'|[]]; discriminate]. }
    apply in_app_or in Hin'. destruct Hin' as [Hin'|[Hin'|[]]]; [|discriminate].
    apply in_placements in Hin'. destruct Hin' as (col & row & Hcell & ->).
    destruct (Hin col row Hcell) as (Hgrid & Hfetched).
    exists col, row. split; [reflexivity|]. split; [exact Hgrid|].
    intros Hdl. destruct (Hfetched Hdl) as (t & Ht & Hnet & Hcell').
    unfold tasks in Ht. apply in_map_iff in Ht.
    destruct Ht as ([c r] & <- & _). cbn in Hcell'. inversion Hcell'; subst.
    exact Hnet.
Qed.

Lemma only_fetched_tiles_are_placed_witness :
  exists (numMissing : Z) (w' : world) (new : list cmd),
    getImage two_tiles_self missing_first "o.jpg" world0 = (Done numMissing, w') /\
    calls w' = calls world0 ++ new /\
    NoDup (List.filter (fun o => match o with Some _ => true | None => false end)
                       (map placed new)) /\
    (forall tile, In (Some tile) (map placed new) ->
       exists col row,
         tile = localTileName two_tiles_self col row /\
         in_grid (props two_tiles_self) col row /\
         (nodownload (config two_tiles_self) = false ->
          net missing_first
              (getImageTileURL (imageDir two_tiles_self) (ext (config two_tiles_self))
                               (props two_tiles_self) col row) = FetchOk)).
Proof.
  apply (only_fetched_tiles_are_placed two_tiles_self missing_first "o.jpg" world0).
  intros c. discriminate.
Defined.

(** X9.  With no thread to start ([-t 0] or less) nothing is downloaded:
    no fetch is attempted, no canvas is allocated, the only command is the
    final optimization of the still empty first temporary image, and every
    tile of the grid is reported missing. *)
Theorem no_thread_no_tile (self : Untiler) (E : env)
    (outputDestination : string) (w : world) :
  starts E ->
  nodownload (config self) = false ->
  nthreads (config self) <= 0 ->
  exists w',
    getImage self E outputDestination w
      = (Done (xTiles (props self) * yTiles (props self)), w') /\
    attempts (log w') = attempts (log w) /\
    calls w' = calls w ++ [Optimize (OutFile outputDestination) (TmpImg (fresh w))].
Proof.
  intros Hs Hnd Hn. rewrite (getImage_starts self E outputDestination w Hs).
  assert (Hh : handoff self E w = ([], w)).
  { unfold handoff. rewrite Hnd.
    replace (Z.to_nat (nthreads (config self))) with O by lia. reflexivity. }
  rewrite Hh. cbn [fst snd List.length].
  change (Z.of_nat 0) with 0. rewrite Z.sub_0_r.
  eexists. split; [reflexivity|].
  unfold finished. cbn [log calls List.length seq combine map canvas app].
  rewrite !attempts_app. cbn [attempts flat_map snd app].
  assert (Hm : forall l, attempts
                 (l ++ (if store (config self) then [] else [(INFO, MsgErased)])) = attempts l).
  { intros l. rewrite attempts_app. destruct (store (config self)); cbn; apply app_nil_r. }
  change (Z.of_nat 0) with 0. rewrite Z.sub_0_r.
  destruct (xTiles (props self) * yTiles (props self) >? 0);
    cbn [app attempts flat_map snd];
    destruct (store (config self)); cbn [app attempts flat_map snd];
    rewrite ?app_nil_r; split; reflexivity.
Qed.

Lemma no_thread_no_tile_witness :
  exists w',
    getImage {| config := {| ext := "jpg"; store := false; out := "o.jpg";
                             nodownload := false; nthreads := 0 |};
                imageDir := "http://h"; props := props_of 256 512 256 1 1;
                tileDir := TempDir 0 |} jpegtran_succeeds "o.jpg" world0
      = (Done (xTiles (props_of 256 512 256 1 1) * yTiles (props_of 256 512 256 1 1)), w') /\
    attempts (log w') = attempts (log world0) /\
    calls w' = calls world0 ++ [Optimize (OutFile "o.jpg") (TmpImg (fresh world0))].
Proof.
  apply (no_thread_no_tile
           {| config := {| ext := "jpg"; store := false; out := "o.jpg";
                           nodownload := false; nthreads := 0 |};
              imageDir := "http://h"; props := props_of 256 512 256 1 1;
              tileDir := TempDir 0 |} jpegtran_succeeds "o.jpg" world0);
    [intros c; discriminate | reflexivity | discriminate].
Defined.

(** ** Files *)

Lemma only_logs_ret {A : Type} (a : A) : only_logs (ret a).
Proof. intros w. cbn. auto. Qed.

Lemma only_logs_raise {A : Type} (e : exn) : only_logs (@raise A e).
Proof. intros w. cbn. auto. Qed.

Lemma only_logs_lift {A : Type} (o : outcome A) : only_logs (lift o).
Proof. intros w. cbn. auto. Qed.

Lemma only_logs_logger (l : log_level) (m : message) : only_logs (logger l m).
Proof. intros w. cbn. auto. Qed.

Lemma only_logs_bind {A B : Type} (m : M A) (k : A -> M B) :
  only_logs m -> (forall a, only_logs (k a)) -> only_logs (bind m k).
Proof.
  intros Hm Hk w. unfold bind. destruct (Hm w) as (Hf & Hn & Hc).
  destruct (m w) as [[a|e|] w']; cbn [fst snd] in *; auto.
  destruct (Hk a w') as (Hf' & Hn' & Hc'). rewrite Hf', Hn', Hc'. auto.
Qed.

Lemma only_logs_required (field : option Z) (m : message) :
  only_logs (required field m).
Proof.
  destruct field; [apply only_logs_ret|].
  apply only_logs_bind; [apply only_logs_logger | intros; apply only_logs_raise].
Qed.

Lemma only_logs_resolveZoomLevel (request : zoom_arg) (maxZoom : Z) :
  only_logs (resolveZoomLevel request maxZoom).
Proof.
  destruct request as [|z|]; cbn [resolveZoomLevel];
    [apply only_logs_ret | | apply only_logs_raise].
  destruct ((z <? maxZoom) && (z >=? 0)); [apply only_logs_ret|].
  apply only_logs_bind; [apply only_logs_logger | intros; apply only_logs_ret].
Qed.

Lemma only_logs_index {A : Type} (l : list A) (i : Z) :
  only_logs (index_or_raise l i).
Proof.
  unfold index_or_raise.
  destruct (Py.getitem l i); [apply only_logs_ret | apply only_logs_raise].
Qed.

(** [getProperties] creates no file and runs no command. *)
Lemma only_logs_getProperties (fuel : nat) (doc : ImageProperties)
    (request : zoom_arg) :
  only_logs (getProperties fuel doc request).
Proof.
  unfold getProperties.
  apply only_logs_bind; [apply only_logs_required | intros maxWidth].
  apply only_logs_bind; [apply only_logs_required | intros maxHeight].
  apply only_logs_bind; [apply only_logs_required | intros tileSize].
  apply only_logs_bind; [apply only_logs_lift | intros levels].
  apply only_logs_bind; [apply only_logs_logger | intros _].
  apply only_logs_bind; [apply only_logs_resolveZoomLevel | intros zoomLevel].
  apply only_logs_bind; [apply only_logs_index | intros finest].
  apply only_logs_bind; [apply only_logs_index | intros current].
  apply only_logs_bind; [apply only_logs_logger | intros _].
  apply only_logs_ret.
Qed.

Lemma finish_fresh (self : Untiler) (E : env) (outputDestination : string)
    (tiles : list (Z * Z)) (w1 : world) :
  fresh (snd (finish self E outputDestination tiles w1)) = S (S (fresh w1)).
Proof.
  unfold finish.
  destruct w1 as [l0 f0 c0 k0]. cbn [fresh calls log fs].
  unfold bind at 1. unfold NamedTemporaryFile at 1.
  unfold set_fs, bump. cbn [log fs calls fresh].
  unfold bind at 1. cbn [logger]. unfold add_log. cbn [log fs calls fresh].
  unfold bind at 1. unfold NamedTemporaryFile at 1.
  unfold set_fs, bump. cbn [log fs calls fresh].
  unfold bind at 1. cbn [logger]. unfold add_log. cbn [log fs calls fresh].
  unfold try_finally.
  match goal with |- context [compose self E ?t ?a ?o ?w0] =>
    pose proof (keeps_files_compose self E t a o w0) as (Hr & _ & Hn);
    destruct (compose self E t a o w0) as [r w'] end.
  cbn [fst snd fresh] in Hr, Hn.
  unfold cleanup, set_fs, add_log. cbn [fst snd log fs calls fresh].
  destruct r as [x|e|]; [| |congruence];
    destruct (store (config self)); cbn [negb fst snd fresh]; exact Hn.
Qed.

Lemma handoff_files (self : Untiler) (E : env) (w : world) (q : path) :
  q ∈ fs (snd (handoff self E w)) ->
  q ∈ fs w \/ under (tileDir self) q = true.
Proof.
  unfold handoff. destruct (nodownload (config self)); cbn [snd]; [auto|].
  destruct (run_threads_prefix (Z.to_nat (nthreads (config self))) self E
              (tasks self) [] w) as (done & _ & _ & _ & Hfs & _).
  cbv zeta in Hfs. rewrite Hfs. intros [Hq|(t & _ & ->)]; [left; exact Hq|].
  right. unfold localTileName. cbn [under]. apply bool_decide_eq_true. reflexivity.
Qed.

Lemma handoff_keeps (self : Untiler) (E : env) (w : world) (q : path) :
  q ∈ fs w -> q ∈ fs (snd (handoff self E w)).
Proof.
  unfold handoff. destruct (nodownload (config self)); cbn [snd]; [auto|].
  destruct (run_threads_prefix (Z.to_nat (nthreads (config self))) self E
              (tasks self) [] w) as (done & _ & _ & _ & Hfs & _).
  cbv zeta in Hfs. rewrite Hfs. auto.
Qed.

Lemma getImage_erases (self : Untiler) (E : env) (outputDestination : string)
    (w : world) :
  store (config self) = false ->
  fresh (snd (getImage self E outputDestination w)) = S (S (fresh w)) /\
  fst (getImage self E outputDestination w) <> OutOfFuel /\
  forall q,
    q ∈ fs (snd (getImage self E outputDestination w)) <->
    q ∈ fs w /\ under (tileDir self) q = false
    /\ q <> TmpImg (fresh w) /\ q <> TmpImg (S (fresh w)).
Proof.
  intros Hstore. rewrite getImage_handoff.
  destruct (handoff_frame self E w) as (_ & Hfresh & _).
  pose proof (finish_fresh self E outputDestination
                (fst (handoff self E w)) (snd (handoff self E w))) as Hn.
  destruct (finish_files self E outputDestination
              (fst (handoff self E w)) (snd (handoff self E w)))
    as (r & w' & Hrun & Hr & Hfs).
  rewrite Hrun in *. cbn [fst snd] in *.
  split; [rewrite Hn, Hfresh; reflexivity|]. split; [exact Hr|].
  intros q. rewrite Hfs. unfold finished. cbn [fs]. rewrite Hstore, Hfresh.
  rewrite elem_of_filter, !elem_of_difference, !elem_of_union, !elem_of_singleton.
  split.
  - intros (Hu & ([H1|[H0|Hq]] & Hn0) & Hn1); try contradiction.
    destruct (handoff_files self E w q Hq) as [Hin|Hunder]; [tauto | congruence].
  - intros (Hq & Hu & Hn0 & Hn1).
    pose proof (handoff_keeps self E w q Hq). tauto.
Qed.

Lemma process_image_files (fuel : nat) (args : Args) (E : env) (j : job)
    (w w' : world) (r : outcome unit) :
  args_store args = false -> args_nodownload args = false ->
  temp_names_unused w ->
  process_image fuel args E j w = (r, w') ->
  fs w' = fs w /\ (fresh w <= fresh w')%nat.
Proof.
  intros Hs Hx Hunused. unfold process_image.
  assert (Hstore : store (configure args) = false)
    by (unfold configure; cbn [store]; rewrite Hx; exact Hs).
  destruct (base j) as [d|].
  2:{ unfold bind, logger, raise. cbn. intros Hrun. inversion Hrun; subst.
      split; [reflexivity|cbn; lia]. }
  unfold bind at 1. cbn [ret]. unfold bind at 1.
  destruct (only_logs_getProperties fuel (properties j) (args_zoomLevel args) w)
    as (Hf1 & Hn1 & _).
  destruct (getProperties fuel (properties j) (args_zoomLevel args) w)
    as [[p|e|] w1]; cbn [fst snd] in *.
  2:{ intros Hrun. inversion Hrun; subst. split; [exact Hf1|lia]. }
  2:{ intros Hrun. inversion Hrun; subst. split; [exact Hf1|lia]. }
  unfold bind at 1. unfold setupDirectory. rewrite Hstore.
  set (dir := TempDir (fresh w1)).
  set (w2 := add_log (INFO, MsgCreatedDir dir)
               (bump (set_fs ({[Dir dir]} ∪ fs w1) w1))).
  set (self := {| config := configure args; imageDir := d; props := p;
                  tileDir := dir |}).
  assert (Hstore' : store (config self) = false) by exact Hstore.
  destruct (getImage_erases self E (destination j) w2 Hstore') as (Hn3 & Hr3 & Hfs3).
  unfold bind at 1.
  destruct (getImage self E (destination j) w2) as [r3 w3]. cbn [fst snd] in *.
  assert (Hfresh2 : fresh w2 = S (fresh w1)) by reflexivity.
  assert (Hfs2 : fs w2 = {[Dir dir]} ∪ fs w1) by reflexivity.
  assert (Hsame : fs w3 = fs w).
  { apply set_eq. intros q. rewrite Hfs3, Hfs2, Hfresh2, Hf1, Hn1.
    rewrite elem_of_union, elem_of_singleton. cbn [tileDir self]. split.
    - intros ([Hq|Hq] & Hu & _ & _); [|exact Hq].
      subst q. unfold dir in Hu. cbn [under] in Hu.
      rewrite bool_decide_eq_false in Hu. contradiction.
    - intros Hq. specialize (Hunused q Hq).
      split; [right; exact Hq|].
      unfold dir. rewrite Hn1.
      destruct q as [k|[s|k]|[s|k] c r'|s]; cbn [under];
        rewrite ?bool_decide_eq_false;
        repeat split; try discriminate; try (intros E'; inversion E'; lia). }
  destruct r3 as [x|e|]; cbn [logger fst snd add_log fs fresh];
    intros Hrun; inversion Hrun; subst; cbn [add_log fs fresh];
    (split; [exact Hsame | lia]).
Qed.

(** X10.  A batch whose tiles are not kept (neither [-s] nor [-x]) and
    whose jpegtran commands can be started leaves no file of its own
    behind: after every image, also one whose properties ended the batch
    with an exception, the temporary directory with its tiles and the two
    temporary images are gone, and no other file has been touched. *)
Theorem batch_leaves_no_file (fuel : nat) (args : Args) (E : env)
    (jobs : list job) (w : world) :
  starts E ->
  args_store args = false -> args_nodownload args = false ->
  temp_names_unused w ->
  fs (snd (process_images fuel args E jobs w)) = fs w /\
  temp_names_unused (snd (process_images fuel args E jobs w)).
Proof.
  intros _ Hs Hx. revert w.
  assert (Hkeep : forall w w' : world,
            temp_names_unused w -> fs w' = fs w -> (fresh w <= fresh w')%nat ->
            temp_names_unused w').
  { intros w w' Hu Hf Hn q Hq. rewrite Hf in Hq. specialize (Hu q Hq).
    destruct q as [k|[s|k]|[s|k] c r|s]; try exact I; lia. }
  induction jobs as [|j jobs IH]; intros w Hunused.
  - cbn. auto.
  - unfold process_images. cbn [for_each]. unfold bind.
    destruct (process_image fuel args E j w) as [r w1] eqn:Hrun.
    destruct (process_image_files fuel args E j w w1 r Hs Hx Hunused Hrun) as (Hf & Hn).
    cbn [fst snd] in *.
    pose proof (Hkeep w w1 Hunused Hf Hn) as Hunused1.
    destruct r as [[]|e|]; cbn [fst snd]; [|split; assumption|split; assumption].
    destruct (IH w1 Hunused1) as (Hf' & Hu'). unfold process_images in Hf', Hu'.
    split; [rewrite Hf'; exact Hf | exact Hu'].
Qed.

Lemma batch_leaves_no_file_witness :
  fs (snd (process_images 8 one_thread missing_first [two_tiles; second_image]
                          stored_tiles))
    = fs stored_tiles /\
  temp_names_unused (snd (process_images 8 one_thread missing_first
                                         [two_tiles; second_image] stored_tiles)).
Proof.
  apply (batch_leaves_no_file 8 one_thread missing_first [two_tiles; second_image]
           stored_tiles); [intros c; discriminate | reflexivity | reflexivity |].
  intros q Hq. unfold stored_tiles in Hq. cbn [fs] in Hq.
  rewrite !elem_of_union, !elem_of_singleton in Hq.
  destruct Hq as [[->| ->]| ->]; exact I.
Defined.

(** X11.  With [-s] the tile files stay: when the jpegtran commands can
    be started and fewer fetches are fatal than there are threads,
    [getImage] returns, and every cell of the grid has its tile file in the
    staging directory after the run, also a cell whose fetch was answered
    by an HTTP error or failed ([downloadUrl] opens the file for writing
    before it fetches), and every file that was there before is still
    there, the names of the two temporary images apart. *)
Theorem stored_run_leaves_a_file_per_cell (self : Untiler) (E : env)
    (outputDestination : string) (w : world) :
  starts E ->
  store (config self) = true ->
  nodownload (config self) = false ->
  (List.length (List.filter (fatal E) (tasks self))
   < Z.to_nat (nthreads (config self)))%nat ->
  exists (numMissing : Z) (w' : world),
    getImage self E outputDestination w = (Done numMissing, w') /\
    (forall col row, in_grid (props self) col row ->
                     localTileName self col row ∈ fs w') /\
    (forall q, q ∈ fs w -> q <> TmpImg (fresh w) -> q <> TmpImg (S (fresh w)) ->
               q ∈ fs w').
Proof.
  intros Hs Hstore Hnd Hfew.
  rewrite (getImage_starts self E outputDestination w Hs).
  destruct (handoff_frame self E w) as (_ & Hfresh & _).
  eexists _, _. split; [reflexivity|].
  assert (Hin : forall q,
            q ∈ fs (snd (handoff self E w)) ->
            q <> TmpImg (fresh w) -> q <> TmpImg (S (fresh w)) ->
            q ∈ fs (finished self outputDestination (fst (handoff self E w))
                             (snd (handoff self E w)))).
  { intros q Hq H0 H1. unfold finished. cbn [fs]. rewrite Hstore, Hfresh.
    rewrite !elem_of_difference, !elem_of_union, !elem_of_singleton. tauto. }
  split.
  - intros col row Hgrid. apply Hin; [|discriminate|discriminate].
    unfold handoff. rewrite Hnd. cbn [snd].
    destruct (run_threads_prefix (Z.to_nat (nthreads (config self))) self E
                (tasks self) [] w) as (done & Hdq & _ & _ & Hfiles & Hend).
    cbv zeta in Hdq, Hfiles, Hend. rewrite Hfiles. right.
    assert (Hdone : done = tasks self).
    { destruct Hend as [Hnil|Hn].
      - rewrite Hnil, app_nil_r in Hdq. symmetry. exact Hdq.
      - rewrite Hdq, count_occ_fatal_app in Hfew. lia. }
    apply in_cells in Hgrid. rewrite <- tasks_cells in Hgrid.
    apply in_map_iff in Hgrid. destruct Hgrid as (t & Hcell & Ht).
    exists t. split; [rewrite Hdone; exact Ht|]. rewrite Hcell. reflexivity.
  - intros q Hq H0 H1. apply Hin; [|exact H0|exact H1].
    apply handoff_keeps. exact Hq.
Qed.

Lemma stored_run_leaves_a_file_per_cell_witness :
  exists (numMissing : Z) (w' : world),
    getImage {| config := {| ext := "jpg"; store := true; out := "o.jpg";
                             nodownload := false; nthreads := 1 |};
                imageDir := "http://h"; props := props_of 256 512 256 1 1;
                tileDir := StoreDir "o.jpg" |} missing_first "o.jpg" world0
      = (Done numMissing, w') /\
    (forall col row,
       in_grid (props_of 256 512 256 1 1) col row ->
       TileFile (StoreDir "o.jpg") col row ∈ fs w') /\
    (forall q, q ∈ fs world0 -> q <> TmpImg (fresh world0) ->
               q <> TmpImg (S (fresh world0)) -> q ∈ fs w').
Proof.
  apply (stored_run_leaves_a_file_per_cell
           {| config := {| ext := "jpg"; store := true; out := "o.jpg";
                           nodownload := false; nthreads := 1 |};
              imageDir := "http://h"; props := props_of 256 512 256 1 1;
              tileDir := StoreDir "o.jpg" |} missing_first "o.jpg" world0);
    [intros c; discriminate | reflexivity | reflexivity | vm_compute; lia].
Defined.

(** ** Errors of [getProperties] in a run *)

(** X12.  An image whose properties document lacks the width, the height
    or the tile size ends the run with [SystemExit] after one error record
    naming the first missing field, in that order; no directory is created,
    nothing is fetched and no command is run. *)
Theorem missing_property_is_fatal (fuel : nat) (args : Args) (E : env) (j : job)
    (d : string) (w : world) :
  base j = Some d ->
  WIDTH (properties j) = None \/ HEIGHT (properties j) = None
  \/ TILESIZE (properties j) = None ->
  process_image fuel args E j w
    = (Raised SystemExit,
       add_log (ERROR,
                match WIDTH (properties j), HEIGHT (properties j) with
                | None, _ => MsgWidthNotFound
                | Some _, None => MsgHeightNotFound
                | Some _, Some _ => MsgTileSizeNotFound
                end) w).
Proof.
  intros Hbase Hmissing. unfold process_image. rewrite Hbase.
  unfold bind at 1. cbn [ret]. unfold getProperties.
  destruct (WIDTH (properties j)) as [W|]; [|reflexivity].
  destruct (HEIGHT (properties j)) as [H|]; [|reflexivity].
  destruct (TILESIZE (properties j)) as [T|]; [|reflexivity].
  destruct Hmissing as [Hm|[Hm|Hm]]; discriminate.
Qed.

Lemma missing_property_is_fatal_witness :
  process_image 8 one_thread jpegtran_succeeds
                {| base := Some "http://h"%string;
                   properties := {| WIDTH := Some 2679; HEIGHT := None;
                                    TILESIZE := None |};
                   destination := "o.jpg" |} world0
    = (Raised SystemExit,
       add_log (ERROR,
                match WIDTH {| WIDTH := Some 2679; HEIGHT := None; TILESIZE := None |},
                      HEIGHT {| WIDTH := Some 2679; HEIGHT := None; TILESIZE := None |} with
                | None, _ => MsgWidthNotFound
                | Some _, None => MsgHeightNotFound
                | Some _, Some _ => MsgTileSizeNotFound
                end) world0).
Proof.
  apply (missing_property_is_fatal 8 one_thread jpegtran_succeeds
           {| base := Some "http://h"%string;
              properties := {| WIDTH := Some 2679; HEIGHT := None; TILESIZE := None |};
              destination := "o.jpg" |} "http://h"%string world0);
    [reflexivity | right; left; reflexivity].
Defined.

(** X13.  A properties document with [TILESIZE="0"] (and a width and a
    height below 2^53) is not rejected: the first division of
    [getZoomLevels] raises [ZeroDivisionError], which nothing catches, and
    the run ends there: the program writes no record at the level of a
    warning or above, creates no directory and runs no command. *)
Theorem zero_tile_size_raises (fuel : nat) (args : Args) (E : env) (j : job)
    (d : string) (W H : Z) (w : world) :
  base j = Some d ->
  properties j = document W H 0 ->
  double_exact W H 0 ->
  exists w' : world,
    process_image (S fuel) args E j w = (Raised ZeroDivisionError, w') /\
    shown 0 (log w') = shown 0 (log w) /\
    fs w' = fs w /\
    calls w' = calls w.
Proof.
  intros Hbase Hdoc _. exists w. unfold process_image. rewrite Hbase, Hdoc.
  split; [reflexivity|]. split; [reflexivity|]. split; reflexivity.
Qed.

Lemma zero_tile_size_raises_witness :
  exists w' : world,
    process_image (S 7) one_thread jpegtran_succeeds
                  {| base := Some "http://h"%string;
                     properties := document 2679 4000 0;
                     destination := "o.jpg" |} world0
      = (Raised ZeroDivisionError, w') /\
    shown 0 (log w') = shown 0 (log world0) /\
    fs w' = fs world0 /\
    calls w' = calls world0.
Proof.
  apply (zero_tile_size_raises 7 one_thread jpegtran_succeeds
           {| base := Some "http://h"%string;
              properties := document 2679 4000 0;
              destination := "o.jpg" |} "http://h"%string 2679 4000 world0);
    [reflexivity | reflexivity | ground].
Defined.

(** ** What a run shows *)

Lemma shown_app (v : Z) (l1 l2 : list (log_level * message)) :
  shown v (l1 ++ l2) = shown v l1 ++ shown v l2.
Proof. apply filter_app. Qed.

Lemma shown_info (l : list (log_level * message)) (m : message) :
  shown 0 (l ++ [(INFO, m)]) = shown 0 l.
Proof. rewrite shown_app. cbn. apply app_nil_r. Qed.

Lemma shown_debug (l : list (log_level * message)) (m : message) :
  shown 0 (l ++ [(DEBUG, m)]) = shown 0 l.
Proof. rewrite shown_app. cbn. apply app_nil_r. Qed.

Lemma downloader_quiet (self : Untiler) (E : env) (dq : list (string * Z * Z)) :
  Forall (fun t => net E (task_url t) = FetchOk) dq ->
  forall jq w,
    shown 0 (log (snd (snd (downloader self E dq jq w)))) = shown 0 (log w).
Proof.
  induction 1 as [|[[url col] row] dq Ht Hall IH]; intros jq w; [reflexivity|].
  cbn [downloader]. cbn [task_url fst] in Ht. rewrite Ht, IH.
  cbn [log set_fs add_log]. apply shown_info.
Qed.

Lemma handoff_quiet (self : Untiler) (E : env) (w : world) :
  nodownload (config self) = true
  \/ (1 <= nthreads (config self)
      /\ Forall (fun t => net E (task_url t) = FetchOk) (tasks self)) ->
  shown 0 (log (snd (handoff self E w))) = shown 0 (log w).
Proof.
  unfold handoff. intros [Hnd|[Hn Hall]].
  - rewrite Hnd. reflexivity.
  - destruct (nodownload (config self)); [reflexivity|]. cbn [snd].
    destruct (Z.to_nat (nthreads (config self))) as [|n] eqn:Hth; [lia|].
    cbn [run_threads].
    pose proof (downloader_quiet self E (tasks self) Hall [] w) as Hq.
    assert (Hsurv : Forall (survivable E) (tasks self)).
    { eapply Forall_impl; [|exact Hall]. intros t Ht. left. exact Ht. }
    destruct (downloader_survives self E (tasks self) Hsurv [] w) as (w' & Hrun & _).
    rewrite Hrun in *. cbn [snd] in Hq.
    pose proof (run_threads_nil n self E
                  ([] ++ map task_cell (List.filter (fetched E) (tasks self))) w') as Hnil.
    destruct (run_threads n self E [] _ w') as [es st]. cbn [snd] in Hnil. subst st.
    cbn [snd]. exact Hq.
Qed.

Lemma setupDirectory_quiet (cfg : Config) (destination : string) (w : world) :
  exists d w',
    setupDirectory cfg destination w = (Done d, w') /\
    shown 0 (log w') = shown 0 (log w).
Proof.
  unfold setupDirectory. destruct (store cfg).
  - destruct (bool_decide _); eexists _, _; (split; [reflexivity|]);
      [reflexivity | cbn [log set_fs add_log]; apply shown_info].
  - eexists _, _. split; [reflexivity|]. cbn [log set_fs add_log bump]. apply shown_info.
Qed.

(** X14.  An image whose properties are well formed, whose zoom level is
    the default or a valid one, whose tiles are all fetched (or taken from
    a previous run) and whose commands can be started is processed to the
    end without a single record at the level of a warning or above: at the
    default verbosity the run shows nothing. *)
Theorem complete_run_is_silent (fuel : nat) (args : Args) (E : env) (j : job)
    (d : string) (W H T : Z) (levels : list (Z * Z)) (w : world) :
  0 <= W -> 0 <= H -> 0 < T ->
  base j = Some d ->
  properties j = document W H T ->
  getZoomLevels fuel W H T = Done levels ->
  args_zoomLevel args = ZoomUnset
  \/ (exists z, args_zoomLevel args = ZoomInt z
                /\ 0 <= z < Z.of_nat (List.length levels)) ->
  args_nodownload args = true
  \/ (1 <= args_nthreads args /\ forall url, net E url = FetchOk) ->
  starts E ->
  exists w',
    process_image fuel args E j w = (Done tt, w') /\
    shown 0 (log w') = shown 0 (log w).
Proof.
  intros HW HH HT Hbase Hdoc Hlev Hzoom Hnet Hs.
  destruct (getZoomLevels_inv fuel W H T levels HW HH HT Hlev)
    as (j0 & Hjf & Hlevels & Hj & Hmin).
  assert (Hreq : args_zoomLevel args <> ZoomNotAnInt)
    by (destruct Hzoom as [->|(z & -> & _)]; discriminate).
  destruct (getProperties_run W H T j0 (args_zoomLevel args) w HW HH HT Hj Hreq)
    as (j1 & _ & Hj1 & Hmin1 & Hall).
  assert (j1 = j0).
  { destruct (Nat.lt_trichotomy j1 j0) as [Hlt|[Heq|Hgt]]; [|exact Heq|].
    - destruct (Hmin j1 Hlt Hj1).
    - destruct (Hmin1 j0 Hgt Hj). }
  subst j1. specialize (Hall fuel Hjf). cbv zeta in Hall.
  assert (Hquietzoom : zoomWarnings (args_zoomLevel args) (Z.of_nat (S j0)) = []).
  { destruct Hzoom as [->|(z & -> & Hz)]; [reflexivity|].
    rewrite Hlevels, levels_of_length in Hz. cbn [zoomWarnings].
    destruct (Z.leb_spec 0 z), (Z.ltb_spec z (Z.of_nat (S j0))); try lia. reflexivity. }
  rewrite Hquietzoom in Hall. cbn [app] in Hall.
  unfold process_image. rewrite Hbase, Hdoc.
  unfold bind at 1. cbn [ret]. unfold bind at 1. rewrite Hall.
  set (p := props_of W H T j0 (effectiveZoom (args_zoomLevel args) (Z.of_nat (S j0)))).
  unfold bind at 1.
  match goal with |- context [setupDirectory ?c ?dst ?w1] =>
    destruct (setupDirectory_quiet c dst w1) as (dir & w2 & Hsetup & Hq2) end.
  rewrite Hsetup.
  set (self := {| config := configure args; imageDir := d; props := p;
                  tileDir := dir |}).
  unfold bind at 1. rewrite (getImage_starts self E (destination j) w2 Hs).
  cbn [logger]. eexists. split; [reflexivity|].
  assert (Hcomplete : nodownload (config self) = true
                      \/ (1 <= nthreads (config self)
                          /\ Forall (fun t => net E (task_url t) = FetchOk) (tasks self))).
  { destruct Hnet as [Hx|[Hn Hok]]; [left | right].
    - cbn [config self]. unfold configure. cbn [nodownload]. exact Hx.
    - split; [exact Hn|]. apply Forall_forall. intros t _. apply Hok. }
  assert (Hgrid : 0 <= xTiles (props self) /\ 0 <= yTiles (props self)).
  { cbn [props self p props_of xTiles yTiles].
    pose proof (effectiveZoom_range (args_zoomLevel args) (Z.of_nat (S j0)) ltac:(lia)) as Hz.
    destruct (level_at_antitone T W H
                (j0 - Z.to_nat (effectiveZoom (args_zoomLevel args) (Z.of_nat (S j0))))
                j0 HT HW HH ltac:(lia)) as [H1 H2].
    rewrite Hj in H1, H2. cbn [fst snd] in H1, H2. lia. }
  destruct Hgrid as [Hx Hy].
  cbn [add_log log]. rewrite shown_info.
  unfold finished. cbn [log].
  rewrite (handoff_complete self E w2 Hcomplete), (cells_length self Hx Hy).
  rewrite Z.sub_diag. cbn [Z.gtb Z.compare app].
  assert (Hadd : forall l : list (Z * Z),
            shown 0 (map (fun t => (INFO, MsgAdding (snd t) (fst t))) l) = []).
  { induction l as [|t l IH]; [reflexivity|]. cbn. exact IH. }
  assert (Herased : shown 0 (if store (config self) then [] else [(INFO, MsgErased)]) = [])
    by (destruct (store (config self)); reflexivity).
  assert (Hdebug : forall m l, shown 0 ((DEBUG, m) :: l) = shown 0 l) by reflexivity.
  rewrite shown_app, !Hdebug, shown_app.
  rewrite (handoff_quiet self E w2 Hcomplete), Hq2, Hadd, Herased.
  cbn [log app]. rewrite app_nil_r, shown_app.
  assert (Hprops : forall m1 m2, shown 0 [(DEBUG, m1); (INFO, m2)] = []) by reflexivity.
  rewrite Hprops. apply app_nil_r.
Qed.

Lemma complete_run_is_silent_witness :
  exists w',
    process_image 8 one_thread jpegtran_succeeds two_tiles world0 = (Done tt, w') /\
    shown 0 (log w') = shown 0 (log world0).
Proof.
  apply (complete_run_is_silent 8 one_thread jpegtran_succeeds two_tiles
           "http://h"%string 256 512 256 [(1, 1); (1, 2)] world0);
    try ground;
    [left; reflexivity | right; split; [ground | intros url; reflexivity]].
Defined.

(** ** URLs *)

Lemma slashes_app (s1 s2 : string) :
  slashes (s1 ++ s2) = (slashes s1 ++ slashes s2)%string.
Proof.
  induction s1 as [|c s1 IH]; [reflexivity|].
  change (String c s1 ++ s2)%string with (String c (s1 ++ s2)).
  cbn [slashes]. rewrite IH. reflexivity.
Qed.

Lemma slashes_clean (s : string) : has_backslash (slashes s) = false.
Proof.
  induction s as [|c s IH]; [reflexivity|]. cbn [slashes has_backslash].
  rewrite IH, orb_false_r.
  destruct (Ascii.eqb c "\"%char) eqn:Hc; [reflexivity | exact Hc].
Qed.

Lemma slashes_plain (s : string) : plain s = true -> slashes s = s.
Proof.
  induction s as [|c s IH]; [reflexivity|]. cbn [plain slashes].
  rewrite !andb_true_iff, !negb_true_iff. intros [[_ Hc] Hs].
  rewrite Hc, (IH Hs). reflexivity.
Qed.

Lemma has_backslash_app (s1 s2 : string) :
  has_backslash (s1 ++ s2) = has_backslash s1 || has_backslash s2.
Proof.
  induction s1 as [|c s1 IH]; [reflexivity|].
  change (String c s1 ++ s2)%string with (String c (s1 ++ s2)).
  cbn [has_backslash]. rewrite IH, orb_assoc. reflexivity.
Qed.

Lemma dropLeadingSlash_clean (s : string) :
  has_backslash s = false -> has_backslash (dropLeadingSlash s) = false.
Proof.
  destruct s as [|c s]; [auto|]. cbn [dropLeadingSlash has_backslash].
  rewrite orb_false_iff. intros [Hc Hs].
  destruct (Ascii.eqb c "/"%char); [exact Hs|]. cbn. rewrite Hc, Hs. reflexivity.
Qed.

Lemma concat_clean (l : list string) :
  Forall (fun s => has_backslash s = false) l ->
  has_backslash (String.concat "/" l) = false.
Proof.
  induction 1 as [|s l Hs Hl IH]; [reflexivity|].
  destruct l as [|s' l]; [exact Hs|].
  change (String.concat "/" (s :: s' :: l))
    with (s ++ "/" ++ String.concat "/" (s' :: l))%string.
  rewrite !has_backslash_app, Hs, IH. reflexivity.
Qed.

(** X15.  [urlConcat] of nothing is the empty string and of one string is
    that string as it is; of two or more it never contains a backslash; of
    two it is the first string, a slash and the second string, backslashes
    replaced, less one leading slash or backslash of the second string, no
    more than one. *)
Theorem urlConcat_edges :
  urlConcat [] = EmptyString /\
  (forall a, urlConcat [a] = a) /\
  (forall a b rest, has_backslash (urlConcat (a :: b :: rest)) = false) /\
  (forall a b,
     urlConcat [a; b] = (slashes a ++ "/" ++ dropLeadingSlash (slashes b))%string) /\
  (forall a c b,
     c = "/"%char \/ c = "\"%char ->
     urlConcat [a; String c b] = (slashes a ++ "/" ++ slashes b)%string).
Proof.
  split; [reflexivity|]. split; [reflexivity|]. split; [|split].
  - intros a b rest. unfold urlConcat. cbn [map].
    apply concat_clean. constructor; [apply slashes_clean|].
    constructor; [apply dropLeadingSlash_clean, slashes_clean|].
    induction rest as [|s rest IH]; cbn [map]; constructor;
      [apply dropLeadingSlash_clean, slashes_clean | exact IH].
  - intros a b. reflexivity.
  - intros a c b [-> | ->]; reflexivity.
Qed.

Lemma urlConcat_edges_witness :
  urlConcat ["http://h"; "\TileGroup0"]%string
  = (slashes "http://h" ++ "/" ++ slashes "TileGroup0")%string.
Proof.
  exact (proj2 (proj2 (proj2 (proj2 urlConcat_edges)))
           "http://h"%string "\"%char "TileGroup0"%string (or_intror eq_refl)).
Defined.

Lemma uint_plain (d : Decimal.uint) : plain (NilEmpty.string_of_uint d) = true.
Proof. induction d; cbn; auto. Qed.

Lemma str_plain (n : Z) : plain (Py.str n) = true.
Proof.
  unfold Py.str. destruct (Z.to_int n) as [d|d]; cbn [NilZero.string_of_int].
  - destruct d; try apply (uint_plain (_ d)); reflexivity.
  - cbn [plain]. destruct d; try apply (uint_plain (_ d)); reflexivity.
Qed.

Lemma plain_app (s1 s2 : string) : plain (s1 ++ s2) = plain s1 && plain s2.
Proof.
  induction s1 as [|c s1 IH]; [reflexivity|].
  change (String c s1 ++ s2)%string with (String c (s1 ++ s2)).
  cbn [plain]. rewrite IH, !andb_assoc. reflexivity.
Qed.

Lemma dropLeadingSlash_plain (s r : string) (c : ascii) :
  plain s = true -> Ascii.eqb c "/"%char = false ->
  dropLeadingSlash (s ++ String c r) = (s ++ String c r)%string.
Proof.
  intros Hs Hc. destruct s as [|c' s].
  - change (EmptyString ++ String c r)%string with (String c r).
    cbn [dropLeadingSlash]. rewrite Hc. reflexivity.
  - change (String c' s ++ String c r)%string with (String c' (s ++ String c r)).
    cbn [plain] in Hs. rewrite !andb_true_iff, !negb_true_iff in Hs.
    destruct Hs as [[Hc' _] _]. cbn [dropLeadingSlash]. rewrite Hc'. reflexivity.
Qed.

(** X16.  The URL of a tile is the base directory with its backslashes
    turned into slashes, then [/TileGroup<g>/<zoom>-<col>-<row>.<ext>];
    the base directory keeps its leading and trailing slashes, so a base
    directory that ends with a slash gives a double slash. *)
Theorem tile_url_layout (imageDir ext : string) (self : Props) (col row : Z) :
  getImageTileURL imageDir ext self col row
  = (slashes imageDir ++ "/TileGroup" ++ Py.str (tileGroup self col row) ++ "/"
     ++ Py.str (zoomLevel self) ++ "-" ++ Py.str col ++ "-" ++ Py.str row
     ++ "." ++ slashes ext)%string.
Proof.
  unfold getImageTileURL, urlConcat. cbn [map].
  rewrite !slashes_app.
  rewrite !(slashes_plain (Py.str _)) by apply str_plain.
  change (slashes "TileGroup") with "TileGroup"%string.
  change (slashes "-") with "-"%string. change (slashes ".") with "."%string.
  change ("TileGroup" ++ Py.str (tileGroup self col row))%string
    with (String "T" ("ileGroup" ++ Py.str (tileGroup self col row)))%string.
  cbn [dropLeadingSlash Ascii.eqb Bool.eqb].
  change ("-" ++ Py.str col ++ "-" ++ Py.str row ++ "." ++ slashes ext)%string
    with (String "-" (Py.str col ++ "-" ++ Py.str row ++ "." ++ slashes ext))%string.
  rewrite dropLeadingSlash_plain by (try apply str_plain; reflexivity).
  cbn [String.concat]. reflexivity.
Qed.

(** ** The list of images *)

Lemma split_space_cases (s : string) :
  (exists a, split_space s = [a]) \/ (exists a b, split_space s = [a; b]).
Proof.
  induction s as [|c s IH]; [left; eexists; reflexivity|].
  cbn [split_space]. destruct (Ascii.eqb c " "%char); [right; eauto|].
  destruct IH as [(a & ->)|(a & b & ->)]; [left | right]; eauto.
Qed.

Lemma count_unnamed_cons (lib : pylib) (line : string) (lines : list string) :
  count_unnamed lib (line :: lines)
    = ((if unnamed lib line then 1 else 0) + count_unnamed lib lines)%nat.
Proof.
  unfold count_unnamed. cbn [List.filter].
  destruct (unnamed lib line); reflexivity.
Qed.

Lemma getUrlList_fold (lib : pylib) (self : Config) (lines : list string) :
  forall (dirs names : list string) (i : Z),
  exists new : list string,
    fold_left (getUrlList_line lib self) lines (dirs, names, i)
      = (dirs ++ map (line_url lib) lines, names ++ new,
         i + Z.of_nat (count_unnamed lib lines)) /\
    List.length new = List.length lines /\
    map snd (List.filter (fun p => unnamed lib (fst p)) (combine lines new))
      = map (fun k => (fst (splitext lib (out self)) ++ fmt_03d (i + Z.of_nat k)
                       ++ snd (splitext lib (out self)))%string)
            (seq 0 (count_unnamed lib lines)).
Proof.
  induction lines as [|line lines IH]; intros dirs names i.
  - exists []. cbn. rewrite !app_nil_r, Z.add_0_r. auto.
  - cbn [fold_left]. rewrite count_unnamed_cons. cbn [map].
    assert (Hu : unnamed lib line
                 = match split_space (strip lib line) with [_] => true | _ => false end)
      by reflexivity.
    unfold getUrlList_line at 2, line_url at 1.
    destruct (split_space_cases (strip lib line)) as [(a & Hs)|(a & b & Hs)];
      rewrite Hs in Hu |- *; rewrite Hu.
    + destruct (splitext lib (out self)) as [root e] eqn:Hsplit.
      destruct (IH (dirs ++ [a]) (names ++ [(root ++ fmt_03d i ++ e)%string]) (i + 1))
        as (new & Hfold & Hlen & Hnum).
      exists ((root ++ fmt_03d i ++ e)%string :: new).
      rewrite Hfold. cbn [hd List.length combine List.filter fst map snd].
      rewrite Hu.
      split; [rewrite <- !app_assoc; f_equal; lia|].
      split; [rewrite Hlen; reflexivity|].
      cbn [Nat.add seq map fst snd]. rewrite Z.add_0_r. f_equal.
      rewrite Hnum, <- seq_shift, map_map. apply map_ext. intros k.
      cbn [fst snd]. do 2 f_equal. f_equal. lia.
    + destruct (IH (dirs ++ [a])
                   (names ++ [join lib (dirname lib (out self))
                                   (if has_extension (ext self) b then b
                                    else (b ++ "." ++ ext self)%string)]) i)
        as (new & Hfold & Hlen & Hnum).
      eexists (_ :: new).
      rewrite Hfold. cbn [hd List.length combine List.filter fst map snd].
      rewrite Hu.
      split; [rewrite <- !app_assoc; f_equal; lia|].
      split; [rewrite Hlen; reflexivity|]. exact Hnum.
Qed.

(** X17.  With [--list], [getUrlList] makes one image of every line of
    the file: [imageDirs] holds, in file order, what precedes the first
    space of each stripped line, and [outNames] has one name per line.  No
    line is skipped, the [else: continue] branch being unreachable; a
    blank line gives an image with the empty URL and a numbered name. *)
Theorem getUrlList_one_image_per_line (lib : pylib) (self : Config)
    (url : string) (lines : list string) :
  fst (getUrlList lib self true url lines) = map (line_url lib) lines /\
  List.length (snd (getUrlList lib self true url lines)) = List.length lines /\
  (forall line, strip lib line = EmptyString ->
                line_url lib line = EmptyString /\ unnamed lib line = true).
Proof.
  unfold getUrlList. cbn [negb].
  destruct (getUrlList_fold lib self lines [] [] 1) as (new & -> & Hlen & _).
  cbn [fst snd app]. split; [reflexivity|]. split; [exact Hlen|].
  intros line Hblank. unfold line_url, unnamed. rewrite Hblank.
  split; reflexivity.
Qed.

Lemma getUrlList_one_image_per_line_witness :
  fst (getUrlList bare_names (configure one_thread) true "list.txt"
                  ["http://h"; EmptyString; "http://g p.jpg"]%string)
    = ["http://h"; EmptyString; "http://g"]%string /\
  List.length (snd (getUrlList bare_names (configure one_thread) true "list.txt"
                               ["http://h"; EmptyString; "http://g p.jpg"]%string))
    = 3%nat /\
  line_url bare_names EmptyString = EmptyString /\
  unnamed bare_names EmptyString = true.
Proof.
  destruct (getUrlList_one_image_per_line bare_names (configure one_thread)
              "list.txt" ["http://h"; EmptyString; "http://g p.jpg"]%string)
    as (Hdirs & Hlen & Hblank).
  split; [exact Hdirs|]. split; [exact Hlen|].
  apply Hblank. reflexivity.
Defined.

(** X18.  With [--list], the lines that give no output name get the
    names [root001ext], [root002ext], ... in file order, where
    [(root, ext)] splits the [-o] name: the counter advances on the
    unnamed lines only, so a named line in between leaves no gap in the
    numbering. *)
Theorem getUrlList_numbers_unnamed_lines (lib : pylib) (self : Config)
    (url : string) (lines : list string) :
  map snd (List.filter (fun p => unnamed lib (fst p))
                       (combine lines (snd (getUrlList lib self true url lines))))
  = map (fun k => (fst (splitext lib (out self)) ++ fmt_03d (Z.of_nat k)
                   ++ snd (splitext lib (out self)))%string)
        (seq 1 (count_unnamed lib lines)).
Proof.
  unfold getUrlList. cbn [negb].
  destruct (getUrlList_fold lib self lines [] [] 1) as (new & -> & _ & Hnum).
  cbn [fst snd app]. rewrite Hnum, <- seq_shift, map_map.
  apply map_ext. intros k. do 2 f_equal. f_equal. lia.
Qed.

(** ** The two temporary images *)





